(** * mock.service: a shallow embedding of the request core

    The development follows the Python sources of the backend:

    - [app/utils/path_parser.py]      -> Module [PathParser]
    - [app/utils/soap_parser.py]      -> Module [SOAPParser]
    - [app/services/mock_service.py]  -> Module [MockServiceService]
    - [app/services/mock_processor.py]-> Module [MockProcessor]
    - [app/api/websocket.py]          -> Module [ConnectionManager]
    - [app/schemas/mock_service.py]   -> Module [Schemas]
    - [app/services/file_logger.py]   -> Module [FileLogger]

    Python [str] is modelled as [string] (a sequence of bytes); the case
    mapping, the white space tests and the identifiers are the ASCII ones.
    A [dict] whose iteration order is observable is an association list in
    insertion order; the hub's [Dict[int, List[WebSocket]]] is a [gmap].
    A function that may raise returns a [Py.result].  Time is not
    modelled: the delays only make a coroutine sleep, and [proxy_time] is
    left out of [proxy_info].  The outside world enters as parameters: the
    HTTP client, the evaluator behind [exec] and [eval], and the parser of
    SOAP bodies. *)

From Stdlib Require Import Ascii String.
From stdpp Require Import base list gmap strings pretty.

(** ** Python string primitives *)

Module Py.

Fixpoint len (s : string) : nat :=
match s with
| EmptyString => 0
| String _ s' => S (len s')
end.

(** [s.startswith(p)] *)
Fixpoint startswith (s p : string) {struct p} : bool :=
match p, s with
| EmptyString, _ => true
| String a p', String b s' => if Ascii.eqb a b then startswith s' p' else false
| String _ _, EmptyString => false
end.

(** [s[n:]] *)
Fixpoint drop (n : nat) (s : string) : string :=
match n, s with
| O, _ => s
| S n', String _ s' => drop n' s'
| S _, EmptyString => EmptyString
end.

(** [s[:n]] *)
Fixpoint take (n : nat) (s : string) : string :=
match n, s with
| O, _ => EmptyString
| S n', String c s' => String c (take n' s')
| S _, EmptyString => EmptyString
end.

(** [s.endswith(p)] *)
Definition endswith (s p : string) : bool :=
(len p <=? len s)%nat && String.eqb (drop (len s - len p) s) p.

(** [sub in s] *)
Fixpoint contains (sub s : string) : bool :=
startswith s sub ||
match s with
| EmptyString => false
| String _ s' => contains sub s'
end.

(** [c in s] for a single character *)
Fixpoint mem (c : ascii) (s : string) : bool :=
match s with
| EmptyString => false
| String a s' => Ascii.eqb a c || mem c s'
end.

(** ASCII [str.lower()] *)
Definition lower_char (c : ascii) : ascii :=
let n := nat_of_ascii c in
if (65 <=? n)%nat && (n <=? 90)%nat then ascii_of_nat (n + 32) else c.

Fixpoint lower (s : string) : string :=
match s with
| EmptyString => EmptyString
| String c s' => String (lower_char c) (lower s')
end.

(** ASCII [str.upper()] *)
Definition upper_char (c : ascii) : ascii :=
let n := nat_of_ascii c in
if (97 <=? n)%nat && (n <=? 122)%nat then ascii_of_nat (n - 32) else c.

Fixpoint upper (s : string) : string :=
match s with
| EmptyString => EmptyString
| String c s' => String (upper_char c) (upper s')
end.

(** The ASCII characters for which [str.isspace()] holds: TAB, LF, VT, FF,
    CR, the separators FS GS RS US, and the space. *)
Definition isspace (c : ascii) : bool :=
let n := nat_of_ascii c in
((9 <=? n)%nat && (n <=? 13)%nat) || ((28 <=? n)%nat && (n <=? 32)%nat).

(** [s.lstrip(chars)], the characters to strip given as a predicate *)
Fixpoint lstrip_by (p : ascii -> bool) (s : string) : string :=
match s with
| EmptyString => EmptyString
| String c s' => if p c then lstrip_by p s' else s
end.

(** [s.rstrip(chars)] *)
Fixpoint rstrip_by (p : ascii -> bool) (s : string) : string :=
match s with
| EmptyString => EmptyString
| String c s' =>
    match rstrip_by p s' with
    | EmptyString => if p c then EmptyString else String c EmptyString
    | r => String c r
    end
end.

Definition strip_by (p : ascii -> bool) (s : string) : string :=
rstrip_by p (lstrip_by p s).

(** [s.strip()] *)
Definition strip (s : string) : string := strip_by isspace s.

(** [s.strip(c)] and [s.rstrip(c)] for a one-character argument *)
Definition strip_char (c : ascii) (s : string) : string := strip_by (Ascii.eqb c) s.
Definition rstrip_char (c : ascii) (s : string) : string := rstrip_by (Ascii.eqb c) s.

(** [s.split(c)] for a one-character separator: never the empty list *)
Fixpoint split (c : ascii) (s : string) : list string :=
match s with
| EmptyString => [EmptyString]
| String a s' =>
    if Ascii.eqb a c then EmptyString :: split c s'
    else match split c s' with
         | [] => [String a EmptyString]
         | w :: ws => String a w :: ws
         end
end.

(** [s.split(c)[0]] and [s.split(c)[-1]] *)
Definition split_first (c : ascii) (s : string) : string :=
hd EmptyString (split c s).
Definition split_last (c : ascii) (s : string) : string :=
List.last (split c s) EmptyString.

(** [re.split(r'[...]', s)] for a character class given as a predicate *)
Fixpoint split_by (p : ascii -> bool) (s : string) : list string :=
match s with
| EmptyString => [EmptyString]
| String a s' =>
    if p a then EmptyString :: split_by p s'
    else match split_by p s' with
         | [] => [String a EmptyString]
         | w :: ws => String a w :: ws
         end
end.

(** [s.replace(old, new)]: every occurrence of [old], left to right, without
    overlap.  [skip] counts the characters of an occurrence still to pass.
    With an empty [old] Python puts [new] before every character and at the
    end. *)
Fixpoint replace_from (skip : nat) (old new s : string) : string :=
match s with
| EmptyString =>
    match skip, old with
    | O, EmptyString => new
    | _, _ => EmptyString
    end
| String c s' =>
    match skip with
    | S k => replace_from k old new s'
    | O =>
        match old with
        | EmptyString => new +:+ String c (replace_from 0 old new s')
        | String _ _ =>
            if startswith s old
            then new +:+ replace_from (len old - 1) old new s'
            else String c (replace_from 0 old new s')
        end
    end
end.

Definition replace (old new s : string) : string := replace_from 0 old new s.

(** Truthiness of a string *)
Definition nonempty (s : string) : bool :=
match s with
| EmptyString => false
| String _ _ => true
end.

(** A [dict] with string keys, in insertion order *)
Definition dict (V : Type) : Type := list (string * V).

(** [d.get(k)] *)
Fixpoint get {V} (d : dict V) (k : string) : option V :=
match d with
| [] => None
| (k', v) :: d' => if String.eqb k' k then Some v else get d' k
end.

(** [d[k] = v]: an existing key keeps its place *)
Fixpoint set {V} (d : dict V) (k : string) (v : V) : dict V :=
match d with
| [] => [(k, v)]
| (k', v') :: d' =>
    if String.eqb k' k then (k', v) :: d' else (k', v') :: set d' k v
end.

(** [list(d.keys())] *)
Definition keys {V} (d : dict V) : list string := map fst d.

(** What a call either returns or raises; [e] is the text of the exception. *)
Inductive result (A : Type) : Type :=
| Ok (a : A)
| Raise (e : string).
Global Arguments Ok {A} a.
Global Arguments Raise {A} e.

End Py.

Arguments Py.split c%_char s%_string.
Arguments Py.split_first c%_char s%_string.
Arguments Py.split_last c%_char s%_string.
Arguments Py.strip_char c%_char s%_string.
Arguments Py.rstrip_char c%_char s%_string.
Arguments Py.mem c%_char s%_string.

Example py_replace_1 : Py.replace "{id}" "42" "https://api/u/{id}/x/{id}" = "https://api/u/42/x/42".
Proof. reflexivity. Qed.

Example py_replace_2 : Py.replace "aa" "b" "aaa" = "ba".
Proof. reflexivity. Qed.

Example py_split_1 : Py.split ":" "urn:ns:Add" = ["urn"; "ns"; "Add"].
Proof. reflexivity. Qed.

Example py_rstrip_1 : Py.rstrip_char "/" "http://up//" = "http://up".
Proof. reflexivity. Qed.

Example py_strip_1 : Py.strip "  a b  " = "a b".
Proof. reflexivity. Qed.

Example py_endswith_1 : Py.endswith "/users{*}" "{*}" = true.
Proof. reflexivity. Qed.

(** ** app/utils/path_parser.py *)

Module PathParser.

(** A path template read left to right: literal characters and [{name}]
    placeholders.  Both [re.findall(r'{([^}]+)}', path_pattern)] and the
    substitution [re.sub(r'\\{([^}]+)\\}', ..., re.escape(path_pattern))]
    find the same occurrences: an opening brace, a non-empty run of
    characters other than the closing brace, and the closing brace; the
    search resumes after the closing brace. *)
Inductive token : Type :=
| TLit (c : ascii)
| TName (name : string).

(** The characters before the first closing brace, when there is one *)
Fixpoint until_close (s : string) : option string :=
match s with
| EmptyString => None
| String c s' =>
    if Ascii.eqb c "}" then Some EmptyString
    else option_map (String c) (until_close s')
end.

(** [skip] counts the characters of a placeholder still to pass. *)
Fixpoint tokens_from (skip : nat) (s : string) : list token :=
match s with
| EmptyString => []
| String c s' =>
    match skip with
    | S k => tokens_from k s'
    | O =>
        if Ascii.eqb c "{" then
          match until_close s' with
          | Some (String a n) =>
              TName (String a n) :: tokens_from (S (Py.len (String a n))) s'
          | _ => TLit c :: tokens_from 0 s'
          end
        else TLit c :: tokens_from 0 s'
    end
end.

Definition tokens (path_pattern : string) : list token :=
tokens_from 0 path_pattern.

Definition token_names (ts : list token) : list string :=
omap (fun t => match t with TName n => Some n | TLit _ => None end) ts.

(** [extract_parameter_names]: [re.findall(r'{([^}]+)}', path_pattern)] *)
Definition extract_parameter_names (path_pattern : string) : list string :=
token_names (tokens path_pattern).

(** The regular expressions [_pattern_to_regex] builds, between the anchors
    [^] and [$]: escaped literal characters, named groups, and [.*] for a
    wildcard.  A group is [(?P<name>[^/]+)] for a placeholder [{name}].  The
    compiler reads the name of a group up to the first [>], which
    [re.escape] leaves as it is: a placeholder [{n>m}] gives the group
    [(?P<n>m>[^/]+)], named [n], that matches the text [m>] and then the
    characters of a segment.  [lead] is this text, empty as a rule. *)
Inductive regex_item : Type :=
| RLit (c : ascii)
| RGroup (name : string) (lead : string)
| RDotStar.

(** The text before the first [>], and the text after it if there is one *)
Fixpoint break_gt (s : string) : string * option string :=
match s with
| EmptyString => (EmptyString, None)
| String c s' =>
    if Ascii.eqb c ">" then (EmptyString, Some s')
    else let '(n, m) := break_gt s' in (String c n, m)
end.

(** [escaped.replace('\\{\\*\\}', '.*')] *)
Fixpoint wildcard_items_from (skip : nat) (s : string) : list regex_item :=
match s with
| EmptyString => []
| String c s' =>
    match skip with
    | S k => wildcard_items_from k s'
    | O =>
        if Py.startswith s "{*}"
        then RDotStar :: wildcard_items_from 2 s'
        else RLit c :: wildcard_items_from 0 s'
    end
end.

Definition item_of_token (t : token) : regex_item :=
match t with
| TLit c => RLit c
| TName content =>
    match break_gt content with
    | (n, None) => RGroup n EmptyString
    | (n, Some m) => RGroup n (m +:+ ">")
    end
end.

Definition _pattern_to_regex (path_pattern : string) : list regex_item :=
if Py.contains "{*}" path_pattern
then wildcard_items_from 0 path_pattern
else map item_of_token (tokens path_pattern).

(** [[a-zA-Z_]] and [[a-zA-Z0-9_]] *)
Definition ident_start (c : ascii) : bool :=
let n := nat_of_ascii c in
((65 <=? n)%nat && (n <=? 90)%nat) || ((97 <=? n)%nat && (n <=? 122)%nat)
|| (n =? 95)%nat.

Definition ident_char (c : ascii) : bool :=
ident_start c || ((48 <=? nat_of_ascii c)%nat && (nat_of_ascii c <=? 57)%nat).

Fixpoint all_chars (p : ascii -> bool) (s : string) : bool :=
match s with
| EmptyString => true
| String c s' => p c && all_chars p s'
end.

Definition isidentifier (s : string) : bool :=
match s with
| EmptyString => false
| String c s' => ident_start c && all_chars ident_char s'
end.

Definition group_names (items : list regex_item) : list string :=
omap (fun i => match i with RGroup n _ => Some n | _ => None end) items.

Fixpoint distinct (l : list string) : bool :=
match l with
| [] => true
| x :: l' => negb (existsb (String.eqb x) l') && distinct l'
end.

(** Compiling the pattern raises [re.error] for a group name that is not an
    identifier (an escaped character has a backslash in it) and for a name
    used twice.  The identifiers are the ASCII ones. *)
Definition re_compiles (items : list regex_item) : bool :=
forallb isidentifier (group_names items) && distinct (group_names items).

(** [$] without [re.MULTILINE]: the end of the string, or just before a
    line feed that ends the string *)
Definition at_dollar (s : string) : bool :=
match s with
| EmptyString => true
| String c EmptyString => Ascii.eqb c "010"
| _ => false
end.

(** [re.match] for these patterns, as the backtracking matcher finds it.
    [k] is the match of what follows in the pattern.

    A group [[^/]+] is greedy: with [pre] taken already, it takes one more
    character and goes on, and only when that fails does it stop after
    this character and hand over to [k]. *)
Fixpoint match_group (k : string -> option (Py.dict string)) (n : string)
  (pre s : string) : option (Py.dict string) :=
match s with
| EmptyString => None
| String a s' =>
    if Ascii.eqb a "/" then None
    else
      let pre' := pre +:+ String a EmptyString in
      match match_group k n pre' s' with
      | Some d => Some d
      | None =>
          match k s' with
          | Some d => Some ((n, pre') :: d)
          | None => None
          end
      end
end.

(** [.*] takes every character but the line feed, and gives back as well. *)
Fixpoint match_star (k : string -> option (Py.dict string)) (s : string)
  : option (Py.dict string) :=
match s with
| EmptyString => k s
| String a s' =>
    if Ascii.eqb a "010" then k s
    else match match_star k s' with
         | Some d => Some d
         | None => k s
         end
end.

Fixpoint re_match_items (items : list regex_item) : string -> option (Py.dict string) :=
match items with
| [] => fun s => if at_dollar s then Some [] else None
| RLit c :: rest =>
    fun s =>
      match s with
      | String a s' => if Ascii.eqb a c then re_match_items rest s' else None
      | EmptyString => None
      end
| RGroup n lead :: rest =>
    fun s =>
      if Py.startswith s lead
      then match_group (re_match_items rest) n lead (Py.drop (Py.len lead) s)
      else None
| RDotStar :: rest => match_star (re_match_items rest)
end.

(** [extract_parameters].  The string [_pattern_to_regex] returns always
    holds the two anchors, so the branch [if not pattern] of the source is
    never taken; what is left of it is the call of [re.match]. *)
Definition extract_parameters (path_pattern actual_path : string)
  : Py.result (option (Py.dict string)) :=
if Py.endswith path_pattern "{*}" then
  let base_path := Py.take (Py.len path_pattern - 3) path_pattern in
  if Py.startswith actual_path base_path then
    let captured := Py.drop (Py.len base_path) actual_path in
    Py.Ok (Some [("*", captured)])
  else Py.Ok None
else
  let pattern := _pattern_to_regex path_pattern in
  if re_compiles pattern
  then Py.Ok (re_match_items pattern actual_path)
  else Py.Raise "re.error".

(** [re.match(r'^[a-zA-Z_][a-zA-Z0-9_]*$', param)] *)
Definition matches_identifier (param : string) : bool :=
isidentifier param
|| (Py.endswith param (String "010" EmptyString)
    && isidentifier (Py.take (Py.len param - 1) param)).

Definition param_ok (path_pattern param : string) : bool :=
if negb (Py.nonempty (Py.strip param)) then false
else if String.eqb param "*" then Py.endswith path_pattern "{*}"
else matches_identifier param.

(** [validate_path_pattern], the verdict without its message *)
Definition validate_path_pattern (path_pattern : string) : bool :=
if negb (Py.nonempty path_pattern) then false
else if negb (Py.startswith path_pattern "/") then false
else
  let params := extract_parameter_names path_pattern in
  if negb (distinct params) then false
  else forallb (param_ok path_pattern) params.

Definition paths_match (path_pattern actual_path : string) : bool :=
match extract_parameters path_pattern actual_path with
| Py.Ok (Some _) => true
| _ => false
end.

End PathParser.

Example extract_parameters_1 :
  PathParser.extract_parameters "/api/users/{id}/posts/{post_id}" "/api/users/123/posts/456"
  = Py.Ok (Some [("id", "123"); ("post_id", "456")]).
Proof. reflexivity. Qed.

Example extract_parameters_2 :
  PathParser.extract_parameters "/users{*}" "/users/account/settings"
  = Py.Ok (Some [("*", "/account/settings")]).
Proof. reflexivity. Qed.

Example extract_parameters_3 :
  PathParser.extract_parameters "/a{x}{y}" "/abcd" = Py.Ok (Some [("x", "bc"); ("y", "d")]).
Proof. reflexivity. Qed.

Example extract_parameters_4 :
  PathParser.extract_parameters "/users/{id}" "/users/a/b" = Py.Ok None.
Proof. reflexivity. Qed.

(** A placeholder with [>] in it: the group is named by what stands before. *)
Example extract_parameters_5 :
  PathParser.extract_parameters "/x/{a>b}" "/x/b>foo" = Py.Ok (Some [("a", "b>foo")]).
Proof. reflexivity. Qed.

(** A name with an escaped character does not compile. *)
Example extract_parameters_6 :
  PathParser.extract_parameters "/pets/{pet-id}" "/pets/7" = Py.Raise "re.error".
Proof. reflexivity. Qed.

Example validate_1 : PathParser.validate_path_pattern "/api/{id}/files{*}" = true.
Proof. reflexivity. Qed.

Example validate_2 : PathParser.validate_path_pattern "/api/{*}/files" = false.
Proof. reflexivity. Qed.

Example validate_3 : PathParser.validate_path_pattern "/api/{id}/{id}" = false.
Proof. reflexivity. Qed.

(** ** app/utils/soap_parser.py *)

Module SOAPParser.

(** The double quote, and a string made of it *)
Definition dquote : ascii := "034"%char.
Definition dq : string := String dquote EmptyString.

Definition is_quote (c : ascii) : bool :=
Ascii.eqb c dquote || Ascii.eqb c "'".

(** The longest prefix whose characters satisfy [p], and what follows it *)
Fixpoint span (p : ascii -> bool) (s : string) : string * string :=
match s with
| EmptyString => (EmptyString, EmptyString)
| String c s' =>
    if p c then let '(run, rest) := span p s' in (String c run, rest)
    else (EmptyString, s)
end.

(** The first search of the [Content-Type] value, ignoring case: the text
    action= , a quote (double or single), a non-empty run of characters
    that are not quotes, and a quote; the group is the run.  An attempt at
    the start of [s], then the leftmost success. *)
Definition quoted_action_here (s : string) : option string :=
if Py.startswith (Py.lower s) "action=" then
  match Py.drop 7 s with
  | String q r =>
      if is_quote q then
        match span (fun c => negb (is_quote c)) r with
        | (String a run, String _ _) => Some (String a run)
        | _ => None
        end
      else None
  | EmptyString => None
  end
else None.

Fixpoint search_quoted_action (s : string) : option string :=
match quoted_action_here s with
| Some g => Some g
| None =>
    match s with
    | EmptyString => None
    | String _ s' => search_quoted_action s'
    end
end.

(** The second search, ignoring case: the text action= and a non-empty run
    of characters that are neither a semicolon nor white space *)
Definition bare_action_here (s : string) : option string :=
if Py.startswith (Py.lower s) "action=" then
  match span (fun c => negb (Ascii.eqb c ";" || Py.isspace c)) (Py.drop 7 s) with
  | (String a run, _) => Some (String a run)
  | _ => None
  end
else None.

Fixpoint search_bare_action (s : string) : option string :=
match bare_action_here s with
| Some g => Some g
| None =>
    match s with
    | EmptyString => None
    | String _ s' => search_bare_action s'
    end
end.

Definition _normalize_method_name (method_name : string) : string :=
if negb (Py.nonempty method_name) then EmptyString
else
  let normalized := Py.strip (Py.strip_by (Ascii.eqb "'") (Py.strip_by (Ascii.eqb dquote) (Py.strip method_name))) in
  let normalized :=
    if Py.mem "?" normalized then Py.split_first "?" normalized else normalized in
  let normalized :=
    if Py.mem "#" normalized then Py.split_last "#" normalized else normalized in
  normalized.

Definition _extract_method_from_action (action_value : string) : option string :=
if negb (Py.nonempty action_value) || negb (Py.nonempty (Py.strip action_value)) then None
else
  let action_value := Py.strip action_value in
  let by_hash :=
    if Py.mem "#" action_value then
      let method_name := Py.strip (Py.split_last "#" action_value) in
      if Py.nonempty method_name then Some (_normalize_method_name method_name) else None
    else None in
  let by_slash :=
    if Py.mem "/" action_value then
      let method_name := Py.strip (Py.split_last "/" action_value) in
      if Py.nonempty method_name && negb (Py.endswith (Py.lower method_name) ".wsdl")
      then Some (_normalize_method_name method_name) else None
    else None in
  let by_colon :=
    if Py.mem ":" action_value then
      let parts := Py.split ":" action_value in
      if (1 <? length parts)%nat then
        let method_name := Py.strip (List.last parts EmptyString) in
        if Py.nonempty method_name && negb (String.eqb method_name "urn")
        then Some (_normalize_method_name method_name) else None
      else None
    else None in
  match by_hash with
  | Some m => Some m
  | None =>
      match by_slash with
      | Some m => Some m
      | None =>
          match by_colon with
          | Some m => Some m
          | None => Some (_normalize_method_name action_value)
          end
      end
  end.

(** A value that is there and not empty *)
Definition truthy (o : option string) : option string :=
match o with
| Some s => if Py.nonempty s then Some s else None
| None => None
end.

(** [s.strip(dquote).strip(quote)] *)
Definition unquote (s : string) : string :=
Py.strip_by (Ascii.eqb "'") (Py.strip_by (Ascii.eqb dquote) s).

(** The third search of [extract_soap_method_from_headers]: a [SOAPAction]
    header under any other spelling *)
Fixpoint other_soapaction (items : Py.dict string) : option string :=
match items with
| [] => None
| (header_name, header_value) :: rest =>
    if String.eqb (Py.lower header_name) "soapaction"
       && negb (String.eqb header_name "soapaction")
    then
      let soap_action := unquote header_value in
      match (if Py.nonempty soap_action
             then truthy (_extract_method_from_action soap_action) else None) with
      | Some m => Some m
      | None => other_soapaction rest
      end
    else other_soapaction rest
end.

Definition extract_soap_method_from_headers (headers : Py.dict string) : option string :=
let content_type := default EmptyString (Py.get headers "content-type") in
let from_content_type :=
  if Py.contains "action=" (Py.lower content_type) then
    let action_match :=
      match search_quoted_action content_type with
      | Some g => Some g
      | None => search_bare_action content_type
      end in
    match action_match with
    | Some g => truthy (_extract_method_from_action (Py.strip g))
    | None => None
    end
  else None in
match from_content_type with
| Some m => Some m
| None =>
    let soap_action := unquote (default EmptyString (Py.get headers "soapaction")) in
    match (if Py.nonempty soap_action
           then truthy (_extract_method_from_action soap_action) else None) with
    | Some m => Some m
    | None => other_soapaction headers
    end
end.

Section WithBodyParser.

(** [extract_soap_method_from_body] parses the body as XML and falls back on
    five regular expressions; it returns a name or [None] and never raises.
    The development takes it as given. *)
Variable extract_soap_method_from_body : string -> option string.

Definition extract_soap_method (headers : Py.dict string) (body : option string)
  : option string :=
let method_from_headers := extract_soap_method_from_headers headers in
let good_header :=
  match truthy method_from_headers with
  | Some m =>
      if (1 <? Py.len (Py.strip m))%nat then
        let normalized_method := _normalize_method_name m in
        if Py.nonempty normalized_method && (1 <? Py.len normalized_method)%nat
        then Some normalized_method else None
      else None
  | None => None
  end in
match good_header with
| Some m => Some m
| None =>
    let from_body :=
      match truthy body with
      | Some b =>
          match truthy (extract_soap_method_from_body b) with
          | Some method_from_body => truthy (Some (_normalize_method_name method_from_body))
          | None => None
          end
      | None => None
      end in
    match from_body with
    | Some m => Some m
    | None =>
        match truthy method_from_headers with
        | Some m => truthy (Some (_normalize_method_name m))
        | None => None
        end
    end
end.

End WithBodyParser.

End SOAPParser.

Example from_headers_1 :
  SOAPParser.extract_soap_method_from_headers [("soapaction", SOAPParser.dq +:+ "urn:Add" +:+ SOAPParser.dq)] = Some "Add".
Proof. reflexivity. Qed.

Example from_headers_2 :
  SOAPParser.extract_soap_method_from_headers
    [("content-type", "application/soap+xml; charset=utf-8; action=" +:+ SOAPParser.dq +:+ "http://x/svc#getInfo" +:+ SOAPParser.dq)]
  = Some "getInfo".
Proof. reflexivity. Qed.

Example from_headers_3 :
  SOAPParser.extract_soap_method_from_headers
    [("content-type", "application/soap+xml;action=urn:ns:Sub;charset=utf-8")]
  = Some "Sub".
Proof. reflexivity. Qed.

Example from_headers_4 :
  SOAPParser.extract_soap_method_from_headers [("host", "x"); ("soapaction", SOAPParser.dq +:+ SOAPParser.dq)] = None.
Proof. reflexivity. Qed.

Example from_headers_5 :
  SOAPParser.extract_soap_method_from_headers [("SOAPAction", "http://x/Calc.wsdl")] = Some "//x/Calc.wsdl".
Proof. reflexivity. Qed.

(** ** app/models/mock_service.py *)

Module Models.

Inductive ResponseStrategy : Type := PROXY | STATIC | CONDITIONAL.

Inductive ServiceType : Type := REST | SOAP.

(** An entry of [conditional_responses], a JSON object in the source.  The
    delays of the source only make the coroutine sleep; they are left out
    here and in [MockService]. *)
Record ConditionalResponse : Type := {
  condition : option string;
  response_type : string;
  response : string;
  cr_proxy_url : option string;
  status_code : Z;
  headers : option (Py.dict string)
}.

Record MockService : Type := {
  id : Z;
  name : string;
  path : string;
  methods : list string;
  strategy : ResponseStrategy;
  service_type : ServiceType;
  proxy_url : option string;
  static_response : option string;
  static_status_code : Z;
  static_headers : option (Py.dict string);
  condition_code : option string;
  conditional_responses : option (list (option ConditionalResponse));
  conditional_status_code : Z;
  conditional_headers : option (Py.dict string);
  is_active : bool
}.

End Models.

(** ** app/services/mock_service.py *)

Module MockServiceService.

Import Models.

Definition name_separator (c : ascii) : bool :=
Ascii.eqb c "." || Ascii.eqb c "_" || Ascii.eqb c "-".

Definition long_part (p : string) : bool :=
Py.nonempty p && (2 <? Py.len p)%nat.

Definition _matches_soap_service (service_name soap_method : string) : bool :=
if negb (Py.nonempty service_name) || negb (Py.nonempty soap_method) then false
else
  let service_name_lower := Py.strip (Py.lower service_name) in
  let soap_method_lower := Py.strip (Py.lower soap_method) in
  if Py.contains soap_method_lower service_name_lower then true
  else if Py.endswith service_name_lower ("_" +:+ soap_method_lower) then true
  else if Py.startswith service_name_lower (soap_method_lower +:+ "_") then true
  else if Py.endswith service_name_lower ("." +:+ soap_method_lower) then true
  else if Py.startswith service_name_lower (soap_method_lower +:+ ".") then true
  else if Py.endswith service_name_lower soap_method_lower then true
  else if Py.startswith service_name_lower soap_method_lower then true
  else if Py.contains service_name_lower soap_method_lower then true
  else
    let service_parts := Py.split_by name_separator service_name_lower in
    let soap_parts := Py.split_by name_separator soap_method_lower in
    existsb (fun service_part =>
      long_part service_part &&
      existsb (fun soap_part =>
        long_part soap_part &&
        (String.eqb service_part soap_part
         || Py.contains service_part soap_part
         || Py.contains soap_part service_part)) soap_parts) service_parts.

(** [method.upper() not in [m.upper() for m in service.methods]], negated *)
Definition method_allowed (method : string) (service : MockService) : bool :=
existsb (String.eqb (Py.upper method)) (map Py.upper (methods service)).

(** Truthiness of the [headers] argument *)
Definition headers_given (headers : option (Py.dict string)) : option (Py.dict string) :=
match headers with
| Some (h :: hs) => Some (h :: hs)
| _ => None
end.

Section WithBodyParser.

Variable extract_soap_method_from_body : string -> option string.

(** The loop of [find_mock_service_by_path_and_method] over the rows the
    query returned; [fallback] is the pair of [fallback_service] and
    [fallback_params].  A miss, [(None, {})] in the source, is [None]. *)
Fixpoint find_loop (path method : string) (body : option string)
  (headers : option (Py.dict string))
  (fallback : option (MockService * Py.dict string))
  (services : list MockService)
  : Py.result (option (MockService * Py.dict string)) :=
match services with
| [] => Py.Ok fallback
| service :: rest =>
    if negb (method_allowed method service)
    then find_loop path method body headers fallback rest
    else
      match PathParser.extract_parameters (Models.path service) path with
      | Py.Raise e => Py.Raise e
      | Py.Ok None => find_loop path method body headers fallback rest
      | Py.Ok (Some path_params) =>
          match service_type service, headers_given headers with
          | SOAP, Some hs =>
              match SOAPParser.truthy
                      (SOAPParser.extract_soap_method extract_soap_method_from_body hs body) with
              | Some soap_method =>
                  if _matches_soap_service (name service) soap_method
                  then Py.Ok (Some (service, path_params))
                  else find_loop path method body headers fallback rest
              | None =>
                  find_loop path method body headers (Some (service, path_params)) rest
              end
          | SOAP, None => find_loop path method body headers fallback rest
          | REST, _ => Py.Ok (Some (service, path_params))
          end
      end
end.

(** [services] is the table; the query keeps the active rows, in order. *)
Definition find_mock_service_by_path_and_method (services : list MockService)
  (path method : string) (body : option string) (headers : option (Py.dict string))
  : Py.result (option (MockService * Py.dict string)) :=
find_loop path method body headers None (filter (fun s => is_active s = true) services).

End WithBodyParser.

End MockServiceService.

Example matches_soap_1 : MockServiceService._matches_soap_service "Calc_Add" "Add" = true.
Proof. reflexivity. Qed.

Example matches_soap_2 : MockServiceService._matches_soap_service "Calc_Add" "Sub" = false.
Proof. reflexivity. Qed.

(** ** app/services/mock_processor.py *)

Module MockProcessor.

Import Models.

(** What the processor reads of a [fastapi.Request] *)
Record Request : Type := {
  req_method : string;
  req_path : string;                       (* request.url.path *)
  req_query : string;                      (* request.url.query *)
  req_url : string;                        (* str(request.url) *)
  req_headers : list (string * string);    (* request.headers.items() *)
  req_query_params : Py.dict string;       (* dict(request.query_params) *)
  req_body : string                        (* await request.body() *)
}.

(** What [http_client.request] does: a response, an [httpx.RequestError]
    (the transport errors: name resolution, connection, time-out), or any
    other exception; the errors carry [str(e)]. *)
Inductive http_outcome : Type :=
| Response (status : Z) (items : list (string * string)) (text : string)
| RequestError (e : string)
| OtherError (e : string).

(** The [proxy_info] dictionary, without [proxy_time] *)
Record ProxyInfo : Type := {
  target_url : string;
  proxy_headers : Py.dict string;
  proxy_response_status : option Z;
  proxy_response_headers : Py.dict string;
  proxy_response_body : string;
  proxy_error : option string
}.

(** The tuple [(status_code, response_body, headers, proxy_info)] *)
Definition reply : Type := (Z * string * Py.dict string * option ProxyInfo)%type.

Definition status_of (r : reply) : Z := r.1.1.1.
Definition body_of (r : reply) : string := r.1.1.2.
Definition headers_of (r : reply) : Py.dict string := r.1.2.
Definition proxy_info_of (r : reply) : option ProxyInfo := r.2.

(** What a run does besides returning: the conditions it evaluates and the
    requests it sends upstream, in order *)
Inductive event : Type :=
| EvEval (condition_text : string)
| EvHttp (method url : string) (headers : Py.dict string) (content : string).

(** [dict(items)], and the loops that copy headers: a repeated key keeps
    its first place and its last value *)
Definition dict_of_items (items : list (string * string)) : Py.dict string :=
fold_left (fun d kv => Py.set d kv.1 kv.2) items [].

Definition copy_headers_except (excluded : list string) (items : list (string * string))
  : Py.dict string :=
fold_left
  (fun d kv => if existsb (String.eqb (Py.lower kv.1)) excluded then d else Py.set d kv.1 kv.2)
  items [].

Definition excluded_headers : list string := ["content-length"; "host"].

Definition excluded_response_headers : list string :=
["content-length"; "transfer-encoding"; "connection"; "content-encoding"].

Definition placeholder (param : string) : string := "{" +:+ param +:+ "}".

Definition _extract_additional_path (mock_path request_path : string) : string :=
let mock_path := Py.rstrip_char "/" mock_path in
let request_path := Py.rstrip_char "/" request_path in
if String.eqb mock_path request_path then EmptyString
else if Py.startswith request_path mock_path then
  let additional := Py.drop (Py.len mock_path) request_path in
  if Py.startswith additional "/" then additional else "/" +:+ additional
else request_path.

Definition _build_proxy_url (proxy_url mock_path request_path : string)
  (path_params : Py.dict string) (query_string : string) : string :=
let proxy_has_params :=
  existsb (fun param => Py.contains (placeholder param) proxy_url) (Py.keys path_params) in
let target_url :=
  if proxy_has_params then
    fold_left
      (fun target_url kv =>
         if Py.contains (placeholder kv.1) target_url
         then Py.replace (placeholder kv.1) kv.2 target_url
         else target_url)
      path_params proxy_url
  else
    let target_url := Py.rstrip_char "/" proxy_url in
    if negb (String.eqb request_path mock_path) then
      let additional_path := _extract_additional_path mock_path request_path in
      if Py.nonempty additional_path then target_url +:+ additional_path else target_url
    else target_url in
if Py.nonempty query_string then target_url +:+ "?" +:+ query_string else target_url.

Definition or_empty (o : option string) : string := default EmptyString o.
Definition or_no_headers (o : option (Py.dict string)) : Py.dict string := default [] o.

Definition _process_static (mock_service : MockService) : reply :=
(static_status_code mock_service, or_empty (static_response mock_service),
 or_no_headers (static_headers mock_service), None).

Section WithClient.

Variable http_client : string -> string -> Py.dict string -> string -> http_outcome.

Definition _process_proxy (mock_service : MockService) (request : Request)
  (body_data : option string) (path_params : Py.dict string) : list event * reply :=
match SOAPParser.truthy (proxy_url mock_service) with
| None => ([], (500%Z, "Не указан proxy_url", [], None))
| Some configured =>
    let body := default (req_body request) body_data in
    let proxy_url :=
      _build_proxy_url configured (path mock_service) (req_path request)
        path_params (req_query request) in
    let headers := copy_headers_except excluded_headers (req_headers request) in
    let failed e :=
      {| target_url := proxy_url; proxy_headers := headers;
         proxy_response_status := None; proxy_response_headers := [];
         proxy_response_body := EmptyString; proxy_error := Some e |} in
    ([EvHttp (req_method request) proxy_url headers body],
     match http_client (req_method request) proxy_url headers body with
     | Response status_code items response_body =>
         let response_headers := copy_headers_except excluded_response_headers items in
         (status_code, response_body, response_headers,
          Some {| target_url := proxy_url; proxy_headers := headers;
                  proxy_response_status := Some status_code;
                  proxy_response_headers := dict_of_items items;
                  proxy_response_body := response_body; proxy_error := None |})
     | RequestError e =>
         (502%Z, "Ошибка соединения с внешним сервисом: " +:+ e, [], Some (failed e))
     | OtherError e =>
         (500%Z, "Внутренняя ошибка proxy: " +:+ e, [], Some (failed e))
     end)
end.

Definition _proxy_conditional_request (proxy_url : string) (request : Request)
  (body_data : option string) (path_params : Py.dict string) : list event * reply :=
let proxy_headers := copy_headers_except excluded_headers (req_headers request) in
let target_url :=
  _build_proxy_url proxy_url (req_path request) (req_path request)
    path_params (req_query request) in
let content := default (req_body request) body_data in
([EvHttp (req_method request) target_url proxy_headers content],
 match http_client (req_method request) target_url proxy_headers content with
 | Response status_code items response_content =>
     let response_headers := copy_headers_except excluded_response_headers items in
     (status_code, response_content, response_headers,
      Some {| target_url := target_url; proxy_headers := proxy_headers;
              proxy_response_status := Some status_code;
              proxy_response_headers := dict_of_items items;
              proxy_response_body := response_content; proxy_error := None |})
 | RequestError e | OtherError e =>
     (500%Z, "Ошибка проксирования: " +:+ e, [],
      Some {| target_url := target_url; proxy_headers := proxy_headers;
              proxy_response_status := None; proxy_response_headers := [];
              proxy_response_body := EmptyString; proxy_error := Some e |})
 end).

End WithClient.

(** The names the processor binds itself; [_process_response_template]
    skips them when it looks for variables and when it replaces them. *)
Definition reserved_names : list string :=
["request"; "headers"; "query"; "body"; "method"; "path"; "json"].

Definition is_reserved (var : string) : bool :=
existsb (String.eqb var) reserved_names.

(** [excluded_vars] of the proxy branch, and the test on the first
    character *)
Definition excluded_vars : list string :=
reserved_names ++ ["__builtins__"; "__name__"; "__doc__"; "__package__"].

Definition is_excluded_var (var_name : string) : bool :=
existsb (String.eqb var_name) excluded_vars || Py.startswith var_name "_".

Definition python_operators : list string :=
[" + "; " - "; " * "; " / "; "str("; "int("; "float("].

(** The values of the evaluator and what the processor does with them.
    [py_exec] is [exec(code, {"__builtins__": safe_builtins}, context)] and
    gives the updated context; [py_eval] is [eval] under the same builtins
    and gives the context back as well, since an assignment expression
    binds a name in it. *)
Class Evaluator : Type := {
  pyval : Type;
  VNone : pyval;
  VStr : string -> pyval;
  VDict : Py.dict pyval -> pyval;
  py_str : pyval -> string;                 (* str(v) *)
  py_as_str : pyval -> option string;       (* v when isinstance(v, str) *)
  py_is_none : pyval -> bool;               (* v is None *)
  py_bool : pyval -> bool;                  (* truthiness *)
  json_loads : string -> Py.result pyval;
  json_dumps : pyval -> Py.result string;
  py_exec : string -> Py.dict pyval -> Py.result (Py.dict pyval);
  py_eval : string -> Py.dict pyval -> Py.dict pyval * Py.result pyval
}.

Section WithEvaluator.

Context {E : Evaluator}.
Variable http_client : string -> string -> Py.dict string -> string -> http_outcome.

Definition str_dict (d : Py.dict string) : pyval :=
VDict (map (fun kv => (kv.1, VStr kv.2)) d).

Definition _prepare_request_data (request : Request) (body_str : option string)
  : Py.dict pyval :=
let body := default (req_body request) body_str in
[("method", VStr (req_method request));
 ("path", VStr (req_path request));
 ("query_params", str_dict (req_query_params request));
 ("headers", str_dict (dict_of_items (req_headers request)));
 ("body", VStr body);
 ("url", VStr (req_url request))].

(** The context before [condition_code] runs *)
Definition initial_context (request : Request) (body_str : option string)
  (path_params : Py.dict string) : Py.dict pyval :=
let body := default (req_body request) body_str in
[("request", VDict (_prepare_request_data request body_str));
 ("headers", str_dict (dict_of_items (req_headers request)));
 ("query", str_dict (req_query_params request));
 ("body", VStr body);
 ("method", VStr (req_method request));
 ("path", VStr (req_path request));
 ("path_params", str_dict path_params);
 ("json",
  if Py.nonempty body then
    match json_loads body with
    | Py.Ok v => v
    | Py.Raise _ => VNone
    end
  else VNone)].

(** The fallback of a JSON-shaped template that did not evaluate *)
Definition replace_variables (local_context : Py.dict pyval) (response_template : string)
  : string :=
fold_left
  (fun result kv =>
     if is_reserved kv.1 then result else Py.replace kv.1 (py_str kv.2) result)
  local_context response_template.

Definition contains_python (response_template : string) (context : Py.dict pyval) : bool :=
existsb (fun var => Py.contains var response_template)
  (List.filter (fun var => negb (is_reserved var)) (Py.keys context))
|| existsb (fun op => Py.contains op response_template) python_operators.

Definition json_shaped (response_template : string) : bool :=
Py.startswith (Py.strip response_template) "{"
&& Py.endswith (Py.strip response_template) "}".

Definition _process_response_template (response_template : string)
  (context : Py.dict pyval) : string :=
if contains_python response_template context then
  if json_shaped response_template then
    match py_eval response_template context with
    | (local_context, Py.Ok result_dict) =>
        match json_dumps result_dict with
        | Py.Ok result => result
        | Py.Raise _ => replace_variables local_context response_template
        end
    | (local_context, Py.Raise _) => replace_variables local_context response_template
    end
  else
    match py_eval response_template context with
    | (_, Py.Ok result) =>
        match py_as_str result with
        | Some s => s
        | None => py_str result
        end
    | (_, Py.Raise _) => response_template
    end
else response_template.

(** [extended_params] of a proxy branch *)
Definition extended_params (path_params : Py.dict string) (context : Py.dict pyval)
  : Py.dict string :=
fold_left
  (fun acc kv =>
     if negb (is_excluded_var kv.1) && negb (py_is_none kv.2)
     then Py.set acc kv.1 (py_str kv.2) else acc)
  context path_params.

(** What a branch whose condition held answers *)
Definition branch_reply (resp_data : ConditionalResponse) (request : Request)
  (body_bytes : option string) (path_params : Py.dict string)
  (context : Py.dict pyval) : list event * reply :=
if String.eqb (response_type resp_data) "proxy" then
  match SOAPParser.truthy (cr_proxy_url resp_data) with
  | Some proxy_url =>
      _proxy_conditional_request http_client proxy_url request body_bytes
        (extended_params path_params context)
  | None => ([], (500%Z, "Ошибка конфигурации: не указан proxy_url", [], None))
  end
else
  ([], (status_code resp_data,
        _process_response_template (response resp_data) context,
        or_no_headers (headers resp_data), None)).

(** The loop over [conditional_responses]: [None] when it ends without a
    branch having answered *)
Fixpoint branches_loop (request : Request) (body_bytes : option string)
  (path_params : Py.dict string) (context : Py.dict pyval)
  (responses : list (option ConditionalResponse)) : list event * option reply :=
match responses with
| [] => ([], None)
| None :: rest => branches_loop request body_bytes path_params context rest
| Some resp_data :: rest =>
    match condition resp_data with
    | None => branches_loop request body_bytes path_params context rest
    | Some condition_text =>
        match py_eval condition_text context with
        | (context', Py.Ok condition_result) =>
            if py_bool condition_result then
              let '(evs, r) := branch_reply resp_data request body_bytes path_params context' in
              (EvEval condition_text :: evs, Some r)
            else
              let '(evs, r) := branches_loop request body_bytes path_params context' rest in
              (EvEval condition_text :: evs, r)
        | (context', Py.Raise _) =>
            let '(evs, r) := branches_loop request body_bytes path_params context' rest in
            (EvEval condition_text :: evs, r)
        end
    end
end.

Definition _process_conditional (mock_service : MockService) (request : Request)
  (body_str : option string) (path_params : Py.dict string)
  (body_bytes : option string) : list event * reply :=
let no_conditions :=
  (conditional_status_code mock_service, "Нет условий для обработки",
   or_no_headers (conditional_headers mock_service), None) in
match SOAPParser.truthy (condition_code mock_service), conditional_responses mock_service with
| Some code, Some (r :: rs) =>
    match py_exec code (initial_context request body_str path_params) with
    | Py.Raise e => ([], (500%Z, "Ошибка выполнения условного кода: " +:+ e, [], None))
    | Py.Ok context =>
        match branches_loop request body_bytes path_params context (r :: rs) with
        | (evs, Some answer) => (evs, answer)
        | (evs, None) =>
            (evs, (conditional_status_code mock_service, "Ни одно условие не выполнено",
                   or_no_headers (conditional_headers mock_service), None))
        end
    end
| _, _ => ([], no_conditions)
end.

Definition process_request (mock_service : MockService) (request : Request)
  (body_data : option string) (path_params : Py.dict string)
  (body_bytes : option string) : list event * reply :=
match strategy mock_service with
| PROXY => _process_proxy http_client mock_service request body_data path_params
| STATIC => ([], _process_static mock_service)
| CONDITIONAL => _process_conditional mock_service request body_data path_params body_bytes
end.

End WithEvaluator.

End MockProcessor.

Example build_proxy_url_1 :
  MockProcessor._build_proxy_url "https://api/u/{id}" "/users/{id}" "/users/42" [("id", "42")] "x=1"
  = "https://api/u/42?x=1".
Proof. reflexivity. Qed.

Example build_proxy_url_2 :
  MockProcessor._build_proxy_url "https://api/" "/users" "/users/42/posts" [] ""
  = "https://api/42/posts".
Proof. reflexivity. Qed.

Example build_proxy_url_3 :
  MockProcessor._build_proxy_url "https://api" "/users/{id}" "/users/42" [("id", "42")] ""
  = "https://api/users/42".
Proof. reflexivity. Qed.

(** ** app/api/websocket.py *)

Module ConnectionManager.

(** A connection is known by its identity. *)
Definition WebSocket : Type := nat.

Record manager : Type := {
  active_connections : list WebSocket;
  service_connections : gmap Z (list WebSocket)
}.

Definition empty : manager :=
{| active_connections := []; service_connections := ∅ |}.

(** Truthiness of an optional integer: [None] and [0] are false. *)
Definition given (service_id : option Z) : option Z :=
match service_id with
| Some n => if (n =? 0)%Z then None else Some n
| None => None
end.

Definition connect (m : manager) (websocket : WebSocket) (service_id : option Z) : manager :=
let active := active_connections m ++ [websocket] in
match given service_id with
| Some sid =>
    {| active_connections := active;
       service_connections :=
         <[sid := default [] (service_connections m !! sid) ++ [websocket]]>
           (service_connections m) |}
| None =>
    {| active_connections := active; service_connections := service_connections m |}
end.

(** [l.remove(x)] when [x in l]: the first occurrence goes *)
Fixpoint remove_first (x : WebSocket) (l : list WebSocket) : list WebSocket :=
match l with
| [] => []
| y :: l' => if Nat.eqb x y then l' else y :: remove_first x l'
end.

Definition disconnect (m : manager) (websocket : WebSocket) (service_id : option Z) : manager :=
let active := remove_first websocket (active_connections m) in
match given service_id with
| Some sid =>
    match service_connections m !! sid with
    | Some conns =>
        match remove_first websocket conns with
        | [] => {| active_connections := active;
                   service_connections := delete sid (service_connections m) |}
        | remaining => {| active_connections := active;
                          service_connections := <[sid := remaining]> (service_connections m) |}
        end
    | None => {| active_connections := active; service_connections := service_connections m |}
    end
| None => {| active_connections := active; service_connections := service_connections m |}
end.

(** The calls of [websocket.send_text(message)], one frame each *)
Definition frame : Type := (WebSocket * string)%type.

Definition broadcast_to_all (m : manager) (message : string) : list frame :=
map (fun connection => (connection, message)) (active_connections m).

Definition broadcast_to_service (m : manager) (service_id : Z) (message : string)
  : list frame :=
match service_connections m !! service_id with
| Some connections => map (fun connection => (connection, message)) connections
| None => []
end.

(** [broadcast_log_message]; [mock_service_id] is the record's field and
    [message] the serialized frame. *)
Definition broadcast_log_message (m : manager) (mock_service_id : option Z)
  (message : string) : list frame :=
broadcast_to_all m message ++
match given mock_service_id with
| Some sid => broadcast_to_service m sid message
| None => []
end.

(** How many frames a connection is sent *)
Definition frames_to (websocket : WebSocket) (sent : list frame) : nat :=
length (List.filter (fun f => Nat.eqb f.1 websocket) sent).

End ConnectionManager.

(** ** [schemas/mock_service.py]: the validators of a service *)

Module Schemas.

Definition allowed_methods : list string :=
["GET"; "POST"; "PUT"; "DELETE"; "PATCH"; "HEAD"; "OPTIONS"].

(** The loop of [validate_methods]: the first method that is not allowed *)
Fixpoint first_refused (v : list string) : option string :=
match v with
| [] => None
| method :: rest =>
    if existsb (String.eqb (Py.upper method)) allowed_methods
    then first_refused rest
    else Some method
end.

(** [validate_methods]: raises [ValueError] on the first method that is not
    allowed, returns the methods in upper case otherwise *)
Definition validate_methods (v : list string) : Py.result (list string) :=
match first_refused v with
| Some method => Py.Raise ("Недопустимый HTTP метод: " +:+ method)
| None => Py.Ok (map Py.upper v)
end.

(** [validate_path] *)
Definition validate_path (v : string) : string :=
if negb (Py.startswith v "/") then "/" +:+ v else v.

End Schemas.

(** ** [services/file_logger.py]: reading the log back *)

Module FileLogger.

(** What [get_logs] reads of a [RequestLogEntry]: the service and the time
    stamp, the text [datetime.now().isoformat()] gave when the entry was
    written.  [entry_id] is the field [id]; the other fields travel with
    the entry and are not looked at. *)
Record RequestLogEntry : Type := {
  entry_id : string;
  mock_service_id : option Z;
  timestamp : string
}.

(** [logs[start:stop]] for any two integers: a negative index counts from
    the end, and both are clipped to the list. *)
Definition slice_index (n : nat) (i : Z) : nat :=
if (i <? 0)%Z then Z.to_nat (Z.max 0 (i + Z.of_nat n)) else Nat.min (Z.to_nat i) n.

Definition slice {A} (l : list A) (start stop : Z) : list A :=
let a := slice_index (length l) start in
let b := slice_index (length l) stop in
take (b - a) (drop a l).

(** [logs.sort(key=lambda x: x.timestamp, reverse=True)]: the sort is
    stable, also in reverse.  An entry goes after the entries that are
    newer and before the first one that is not. *)
Fixpoint insert_entry (log_entry : RequestLogEntry) (sorted : list RequestLogEntry)
  : list RequestLogEntry :=
match sorted with
| [] => [log_entry]
| x :: rest =>
    if String.ltb (timestamp log_entry) (timestamp x)
    then x :: insert_entry log_entry rest
    else log_entry :: sorted
end.

Definition sort_newest_first (logs : list RequestLogEntry) : list RequestLogEntry :=
foldr insert_entry [] logs.

(** [service_id is None or log_entry.mock_service_id == service_id] *)
Definition selected (service_id : option Z) (log_entry : RequestLogEntry) : bool :=
match service_id with
| None => true
| Some sid =>
    match mock_service_id log_entry with
    | Some m => Z.eqb m sid
    | None => false
    end
end.

Section WithParser.

(** [json.loads] of a line and the construction of the entry from it:
    [None] when they raise [json.JSONDecodeError] or [TypeError], which
    [get_logs] catches *)
Variable parse_entry : string -> option RequestLogEntry.

(** The loop over the lines of one file *)
Fixpoint read_lines (service_id : option Z) (lines : list string)
  (logs : list RequestLogEntry) : list RequestLogEntry :=
match lines with
| [] => logs
| line :: rest =>
    let line := Py.strip line in
    if negb (Py.nonempty line) then read_lines service_id rest logs
    else
      match parse_entry line with
      | Some log_entry =>
          if selected service_id log_entry
          then read_lines service_id rest (logs ++ [log_entry])
          else read_lines service_id rest logs
      | None => read_lines service_id rest logs
      end
end.

(** The loop over the files, the main one first: a file is its lines, or
    [None] when opening it raises [IOError] or [OSError] *)
Fixpoint read_files (service_id : option Z) (log_files : list (option (list string)))
  (logs : list RequestLogEntry) : list RequestLogEntry :=
match log_files with
| [] => logs
| None :: rest => read_files service_id rest logs
| Some lines :: rest => read_files service_id rest (read_lines service_id lines logs)
end.

Definition get_logs (log_files : list (option (list string))) (service_id : option Z)
  (skip limit : Z) : list RequestLogEntry :=
let logs := read_files service_id log_files [] in
let logs := sort_newest_first logs in
slice logs skip (skip + limit).

End WithParser.

End FileLogger.

(** * Properties *)

(** ** Strings *)

Module PyFacts.

Import Py.

Lemma ascii_eqb_true (a b : ascii) : Ascii.eqb a b = true <-> a = b.
Proof. apply Ascii.eqb_eq. Qed.

Lemma ascii_eqb_false (a b : ascii) : Ascii.eqb a b = false <-> a <> b.
Proof. apply Ascii.eqb_neq. Qed.

Lemma app_nil_l (s : string) : EmptyString +:+ s = s.
Proof. reflexivity. Qed.

Lemma app_cons (c : ascii) (a b : string) : String c a +:+ b = String c (a +:+ b).
Proof. reflexivity. Qed.

Ltac unfold_app := rewrite ?app_cons, ?app_nil_l in *.

Lemma app_empty_r (s : string) : s +:+ EmptyString = s.
Proof. induction s as [|c s IH]; [reflexivity | now rewrite app_cons, IH]. Qed.

Lemma app_assoc (a b c : string) : (a +:+ b) +:+ c = a +:+ (b +:+ c).
Proof. induction a as [|x a IH]; [reflexivity | now rewrite !app_cons, IH]. Qed.

Lemma len_app (a b : string) : len (a +:+ b) = len a + len b.
Proof. induction a as [|x a IH]; [reflexivity | rewrite app_cons; simpl; now rewrite IH]. Qed.

Lemma startswith_app (p r : string) : startswith (p +:+ r) p = true.
Proof.
  induction p as [|c p IH]; [reflexivity|].
  rewrite app_cons. simpl. now rewrite Ascii.eqb_refl.
Qed.

Lemma drop_app (p r : string) : drop (len p) (p +:+ r) = r.
Proof.
  induction p as [|c p IH]; [now destruct r | rewrite app_cons; exact IH].
Qed.

Lemma startswith_split (s p : string) :
  startswith s p = true -> s = p +:+ drop (len p) s.
Proof.
  revert s; induction p as [|c p IH]; intros s H; simpl in *.
  - now destruct s.
  - destruct s as [|b s]; [discriminate|].
    destruct (Ascii.eqb c b) eqn:Hcb; [|discriminate].
    apply ascii_eqb_true in Hcb; subst b.
    rewrite app_cons. f_equal. now apply IH.
Qed.

Lemma startswith_iff (s p : string) :
  startswith s p = true <-> exists r, s = p +:+ r.
Proof.
  split.
  - intros H. exists (drop (len p) s). now apply startswith_split.
  - intros [r ->]. apply startswith_app.
Qed.

Lemma take_drop (n : nat) (s : string) : take n s +:+ drop n s = s.
Proof.
  revert s; induction n as [|n IH]; intros s; simpl.
  - now destruct s.
  - destruct s as [|c s]; [reflexivity | now rewrite app_cons, IH].
Qed.

Lemma len_take (n : nat) (s : string) : n <= len s -> len (take n s) = n.
Proof.
  revert s; induction n as [|n IH]; intros s H; simpl; [reflexivity|].
  destruct s as [|c s]; simpl in *; [lia|]. rewrite IH; lia.
Qed.

Lemma endswith_split (s p : string) :
  endswith s p = true -> s = take (len s - len p) s +:+ p.
Proof.
  unfold endswith. intros H.
  apply andb_true_iff in H as [_ H]. apply String.eqb_eq in H.
  rewrite <- (take_drop (len s - len p) s) at 1. now rewrite H.
Qed.

Lemma endswith_app (b p : string) : endswith (b +:+ p) p = true.
Proof.
  unfold endswith. rewrite len_app.
  apply andb_true_iff; split; [apply Nat.leb_le; lia|].
  replace (len b + len p - len p) with (len b) by lia.
  rewrite drop_app. apply String.eqb_refl.
Qed.

Lemma contains_startswith (sub s : string) : startswith s sub = true -> contains sub s = true.
Proof. intros H. destruct s; simpl in *; now rewrite H. Qed.

Lemma contains_cons (sub : string) (c : ascii) (s : string) :
  contains sub s = true -> contains sub (String c s) = true.
Proof. intros H. cbn [contains]. rewrite H. apply orb_true_r. Qed.

Lemma startswith_app_r (s p r : string) :
  startswith s p = true -> startswith (s +:+ r) p = true.
Proof.
  intros [x ->]%startswith_iff. rewrite app_assoc. apply startswith_app.
Qed.

Lemma contains_app_r (sub s r : string) :
  contains sub s = true -> contains sub (s +:+ r) = true.
Proof.
  induction s as [|c s IH]; intros H.
  - simpl in H. rewrite orb_false_r in H.
    apply contains_startswith. now apply (startswith_app_r EmptyString).
  - cbn [contains] in H. apply orb_true_iff in H as [H|H].
    + apply contains_startswith. now apply startswith_app_r.
    + rewrite app_cons. apply contains_cons. now apply IH.
Qed.

Lemma contains_app_l (sub l s : string) :
  contains sub s = true -> contains sub (l +:+ s) = true.
Proof.
  intros H. induction l as [|c l IH]; [exact H|].
  rewrite app_cons. now apply contains_cons.
Qed.

Lemma contains_iff (sub s : string) :
  contains sub s = true <-> exists l r, s = l +:+ sub +:+ r.
Proof.
  split.
  - induction s as [|c s IH]; cbn [contains]; intros H.
    + rewrite orb_false_r in H. apply startswith_iff in H as [r Hr].
      exists EmptyString, r. exact Hr.
    + apply orb_true_iff in H as [H|H].
      * apply startswith_iff in H as [r Hr]. exists EmptyString, r. exact Hr.
      * destruct (IH H) as (l & r & ->). exists (String c l), r. reflexivity.
  - intros (l & r & ->). apply contains_app_l, contains_startswith, startswith_app.
Qed.

End PyFacts.

(** ** The wildcard branch of the path matcher *)

Module WildcardFacts.

Import Py PyFacts PathParser.

(** [path_pattern[:-3]] *)
Definition base_path (path_pattern : string) : string :=
take (len path_pattern - 3) path_pattern.

Lemma extract_parameters_wildcard (T P : string) :
  endswith T "{*}" = true ->
  extract_parameters T P =
  if startswith P (base_path T)
  then Ok (Some [("*", drop (len (base_path T)) P)])
  else Ok None.
Proof. intros H. unfold extract_parameters. now rewrite H. Qed.

Lemma wildcard_match_iff (T P : string) (params : dict string) :
  endswith T "{*}" = true ->
  extract_parameters T P = Ok (Some params) <->
  exists captured, P = base_path T +:+ captured /\ params = [("*", captured)].
Proof.
  intros H. rewrite (extract_parameters_wildcard T P H). split.
  - destruct (startswith P (base_path T)) eqn:Hs; [|discriminate].
    intros [= <-]. eexists. split; [|reflexivity]. now apply startswith_split.
  - intros (captured & -> & ->). now rewrite startswith_app, drop_app.
Qed.

(** C10: a template that ends with the wildcard is matched by prefix alone.
    Such a template may hold named placeholders and still pass validation
    (here ["/api/{id}/files{*}"]); a placeholder [{name}] before the
    wildcard is literal text: every path that matches holds the characters
    [{name}] themselves, and the parameters returned are the single entry
    for ["*"], the rest of the path after the base. *)
Theorem wildcard_named_placeholders_are_literal :
  validate_path_pattern "/api/{id}/files{*}" = true /\
  forall (T P name : string) (params : dict string),
    endswith T "{*}" = true ->
    contains ("{" +:+ name +:+ "}") (base_path T) = true ->
    extract_parameters T P = Ok (Some params) ->
    contains ("{" +:+ name +:+ "}") P = true /\
    exists captured, P = base_path T +:+ captured /\ params = [("*", captured)].
Proof.
  split; [reflexivity|].
  intros T P name params Hend Hname Hmatch.
  apply (wildcard_match_iff T P params Hend) in Hmatch as (captured & -> & ->).
  split; [now apply contains_app_r | now exists captured].
Qed.

Lemma wildcard_named_placeholders_are_literal_witness :
  contains "{id}" "/api/{id}/files/a.txt" = true /\
  exists captured,
    "/api/{id}/files/a.txt" = base_path "/api/{id}/files{*}" +:+ captured /\
    [("*", "/a.txt")] = [("*", captured)].
Proof.
  apply (proj2 wildcard_named_placeholders_are_literal
           "/api/{id}/files{*}" "/api/{id}/files/a.txt" "id" [("*", "/a.txt")]);
    reflexivity.
Defined.

(** A path with a value in the place of the placeholder does not match. *)
Example wildcard_no_capture :
  extract_parameters "/api/{id}/files{*}" "/api/42/files/a.txt" = Ok None.
Proof. reflexivity. Qed.

End WildcardFacts.

(** ** The subscription hub *)

Module HubFacts.

Import ConnectionManager.

Lemma frames_to_app (ws : WebSocket) (a b : list frame) :
  frames_to ws (a ++ b) = frames_to ws a + frames_to ws b.
Proof. unfold frames_to. now rewrite List.filter_app, length_app. Qed.

Lemma frames_to_absent (ws : WebSocket) (message : string) (l : list WebSocket) :
  ~ In ws l -> frames_to ws (map (fun c => (c, message)) l) = 0.
Proof.
  unfold frames_to. induction l as [|c l IH]; intros Hnot; [reflexivity|].
  simpl. destruct (Nat.eqb c ws) eqn:Hc.
  - apply Nat.eqb_eq in Hc. subst c. exfalso. apply Hnot. now left.
  - apply IH. intros Hin. apply Hnot. now right.
Qed.

Lemma frames_to_self (ws : WebSocket) (message : string) :
  frames_to ws [(ws, message)] = 1.
Proof. unfold frames_to. simpl. now rewrite Nat.eqb_refl. Qed.

Lemma frames_to_map_app (ws : WebSocket) (message : string) (l : list WebSocket) :
  ~ In ws l -> frames_to ws (map (fun c => (c, message)) (l ++ [ws])) = 1.
Proof.
  intros Hnot. rewrite map_app, frames_to_app, (frames_to_absent ws message l Hnot).
  apply frames_to_self.
Qed.

(** A connection the hub does not hold yet *)
Definition fresh (m : manager) (ws : WebSocket) : Prop :=
  ~ In ws (active_connections m) /\
  forall sid conns, service_connections m !! sid = Some conns -> ~ In ws conns.

Lemma fresh_service_list (m : manager) (ws : WebSocket) (sid : Z) :
  fresh m ws -> ~ In ws (default [] (service_connections m !! sid)).
Proof.
  intros [_ H]. destruct (service_connections m !! sid) as [conns|] eqn:E; simpl.
  - now apply (H sid).
  - intros [].
Qed.

(** C1, what the code does: [connect] puts every connection in
    [active_connections], also one that subscribes to a service.  So a
    subscriber of service [s] is sent two frames for a record of [s], one
    by [broadcast_to_all] and one by [broadcast_to_service], and one frame
    for a record of any other service, where the claim has exactly one and
    none. *)
Theorem service_subscriber_frames (m : manager) (ws : WebSocket) (s s' : Z)
    (message : string) :
  s <> 0%Z -> s' <> s -> fresh m ws ->
  let m' := connect m ws (Some s) in
  frames_to ws (broadcast_log_message m' (Some s) message) = 2 /\
  frames_to ws (broadcast_log_message m' (Some s') message) = 1 /\
  frames_to ws (broadcast_log_message m' None message) = 1.
Proof.
  intros Hs Hs' Hfresh m'. subst m'.
  assert (Hg : given (Some s) = Some s).
  { simpl. destruct (Z.eqb_spec s 0); [contradiction | reflexivity]. }
  unfold broadcast_log_message, connect. rewrite Hg.
  unfold broadcast_to_all, broadcast_to_service. simpl active_connections.
  simpl service_connections. rewrite !frames_to_app.
  rewrite (frames_to_map_app ws message _ (proj1 Hfresh)).
  split; [|split].
  - rewrite lookup_insert_eq.
    now rewrite (frames_to_map_app ws message _ (fresh_service_list m ws s Hfresh)).
  - destruct (given (Some s')) as [sid|] eqn:Hg'; [|reflexivity].
    assert (sid = s') as ->.
    { simpl in Hg'. destruct (s' =? 0)%Z; congruence. }
    rewrite lookup_insert_ne by congruence.
    destruct (service_connections m !! s') as [conns|] eqn:E; [|reflexivity].
    now rewrite (frames_to_absent ws message conns (proj2 Hfresh s' conns E)).
  - reflexivity.
Qed.

Lemma service_subscriber_frames_witness :
  let m' := connect (connect empty 0 None) 1 (Some 7%Z) in
  frames_to 1 (broadcast_log_message m' (Some 7%Z) "frame") = 2 /\
  frames_to 1 (broadcast_log_message m' (Some 8%Z) "frame") = 1 /\
  frames_to 1 (broadcast_log_message m' None "frame") = 1.
Proof.
  apply (service_subscriber_frames (connect empty 0 None) 1 7 8 "frame").
  - discriminate.
  - discriminate.
  - split.
    + simpl. intros [H|[]]. discriminate.
    + simpl. intros sid conns H. rewrite lookup_empty in H. discriminate.
Defined.

(** The global subscriber of the same scenario is sent one frame. *)
Example global_subscriber_frames :
  let m' := connect (connect empty 0 None) 1 (Some 7%Z) in
  frames_to 0 (broadcast_log_message m' (Some 7%Z) "frame") = 1 /\
  frames_to 0 (broadcast_log_message m' (Some 8%Z) "frame") = 1.
Proof. split; reflexivity. Qed.

End HubFacts.

(** ** Proxying: the headers that pass, and the status of a failure *)

Module ProxyFacts.

Import Py Models MockProcessor.

(** No key of [d] is [name] in any spelling. *)
Definition header_absent (name : string) (d : dict string) : Prop :=
  forall k v, In (k, v) d -> lower k <> name.

Definition not_excluded (excluded : list string) (kv : string * string) : Prop :=
  existsb (String.eqb (lower kv.1)) excluded = false.

Lemma set_preserves (P : string * string -> Prop) (d : dict string) (k v : string) :
  (forall v', P (k, v') -> P (k, v)) ->
  Forall P d -> P (k, v) -> Forall P (Py.set d k v).
Proof.
  intros Hval Hd Hk. induction Hd as [|[k' v'] d Hkv Hd IH]; simpl.
  - constructor; [exact Hk | constructor].
  - destruct (String.eqb k' k) eqn:E.
    + apply String.eqb_eq in E. subst k'. constructor; [exact Hk | exact Hd].
    + constructor; [exact Hkv | exact IH].
Qed.

Lemma copy_headers_fold (excluded : list string) (items : list (string * string))
    (acc : dict string) :
  Forall (not_excluded excluded) acc ->
  Forall (not_excluded excluded)
    (fold_left
       (fun d kv => if existsb (String.eqb (lower kv.1)) excluded then d else Py.set d kv.1 kv.2)
       items acc).
Proof.
  revert acc. induction items as [|[k v] items IH]; intros acc Hacc; [exact Hacc|].
  simpl. apply IH.
  destruct (existsb (String.eqb (lower k)) excluded) eqn:E; [exact Hacc|].
  apply set_preserves; [intros v' H; exact H | exact Hacc | exact E].
Qed.

Lemma copy_headers_except_sound (excluded : list string) (items : list (string * string)) :
  Forall (not_excluded excluded) (copy_headers_except excluded items).
Proof. apply copy_headers_fold. constructor. Qed.

Lemma copy_headers_except_absent (excluded : list string)
    (items : list (string * string)) (name : string) :
  In name excluded -> header_absent name (copy_headers_except excluded items).
Proof.
  intros Hname k v Hin Heq.
  pose proof (copy_headers_except_sound excluded items) as Hall.
  rewrite List.Forall_forall in Hall. specialize (Hall _ Hin).
  unfold not_excluded in Hall. simpl in Hall.
  assert (existsb (String.eqb (lower k)) excluded = true) as Htrue.
  { apply existsb_exists. exists name. split; [exact Hname|].
    rewrite Heq. apply String.eqb_refl. }
  congruence.
Qed.

Lemma header_absent_nil (name : string) : header_absent name [].
Proof. intros k v []. Qed.

(** The headers of every request sent upstream, and those of the reply *)
Definition forwarded_clean (evs : list event) : Prop :=
  forall method url h content, In (EvHttp method url h content) evs ->
    header_absent "content-length" h /\ header_absent "host" h.

Definition returned_clean (r : reply) : Prop :=
  header_absent "content-length" (headers_of r) /\
  header_absent "transfer-encoding" (headers_of r) /\
  header_absent "connection" (headers_of r) /\
  header_absent "content-encoding" (headers_of r).

Lemma forwarded_clean_one (method url content : string) (items : list (string * string)) :
  forwarded_clean [EvHttp method url (copy_headers_except excluded_headers items) content].
Proof.
  intros m u h c [H|[]]. inversion H; subst.
  split; apply copy_headers_except_absent; simpl; auto.
Qed.

Lemma returned_clean_copy (st : Z) (body : string) (items : list (string * string))
    (info : option ProxyInfo) :
  returned_clean (st, body, copy_headers_except excluded_response_headers items, info).
Proof.
  unfold returned_clean, headers_of. simpl.
  repeat split; apply copy_headers_except_absent; simpl; auto.
Qed.

Lemma returned_clean_empty (st : Z) (body : string) (info : option ProxyInfo) :
  returned_clean (st, body, [], info).
Proof. unfold returned_clean, headers_of. simpl. repeat split; apply header_absent_nil. Qed.

(** C4: on the [PROXY] strategy and on a conditional proxy branch alike,
    whatever the request and whatever the upstream answers, no header sent
    upstream is [Content-Length] or [Host] and no header returned to the
    client is [Content-Length], [Transfer-Encoding], [Connection] or
    [Content-Encoding], the names compared in lower case. *)
Theorem proxy_headers_are_filtered
    (http_client : string -> string -> dict string -> string -> http_outcome)
    (request : Request) (body_data : option string) (path_params : dict string) :
  (forall mock_service : MockService,
     forwarded_clean (_process_proxy http_client mock_service request body_data path_params).1 /\
     returned_clean (_process_proxy http_client mock_service request body_data path_params).2) /\
  (forall proxy_url : string,
     forwarded_clean
       (_proxy_conditional_request http_client proxy_url request body_data path_params).1 /\
     returned_clean
       (_proxy_conditional_request http_client proxy_url request body_data path_params).2).
Proof.
  split.
  - intros mock_service. unfold _process_proxy.
    destruct (SOAPParser.truthy (proxy_url mock_service)) as [configured|]; simpl.
    + split; [apply forwarded_clean_one|].
      destruct (http_client _ _ _ _); simpl;
        [apply returned_clean_copy | apply returned_clean_empty | apply returned_clean_empty].
    + split; [intros m u h c [] | apply returned_clean_empty].
  - intros proxy_url. unfold _proxy_conditional_request. simpl.
    split; [apply forwarded_clean_one|].
    destruct (http_client _ _ _ _); simpl;
      [apply returned_clean_copy | apply returned_clean_empty | apply returned_clean_empty].
Qed.

(** The spelling of the name does not matter. *)
Example copy_headers_1 :
  copy_headers_except excluded_headers
    [("Content-Length", "12"); ("accept", "*/*"); ("HOST", "mock"); ("x-id", "7")]
  = [("accept", "*/*"); ("x-id", "7")].
Proof. reflexivity. Qed.

(** An upstream that no request reaches *)
Definition unreachable (e : string) : string -> string -> dict string -> string -> http_outcome :=
  fun _ _ _ _ => RequestError e.

(** The [PROXY] strategy answers a transport error with 502. *)
Lemma process_proxy_transport_error (e : string) (mock_service : MockService)
    (request : Request) (body_data : option string) (path_params : dict string) :
  SOAPParser.truthy (proxy_url mock_service) <> None ->
  let r := (_process_proxy (unreachable e) mock_service request body_data path_params).2 in
  status_of r = 502%Z /\
  option_map proxy_error (proxy_info_of r) = Some (Some e).
Proof.
  intros Hurl. unfold _process_proxy.
  destruct (SOAPParser.truthy (proxy_url mock_service)); [|contradiction].
  simpl. split; reflexivity.
Qed.

(** C2, what the code does on a conditional proxy branch: the only handler
    of [_proxy_conditional_request] is [except Exception], so a transport
    error is answered with 500, where the [PROXY] strategy and the claim
    have 502.  The error message is in [proxy_error] in both. *)
Theorem conditional_proxy_transport_error (e : string) (proxy_url : string)
    (request : Request) (body_data : option string) (path_params : dict string) :
  let r := (_proxy_conditional_request (unreachable e) proxy_url request body_data path_params).2 in
  status_of r = 500%Z /\
  body_of r = "Ошибка проксирования: " +:+ e /\
  option_map proxy_error (proxy_info_of r) = Some (Some e).
Proof. repeat split. Qed.

End ProxyFacts.

(** ** The target URL of a proxied request *)

Module TargetUrlFacts.

Import Py PyFacts MockProcessor.

(** *** [str.replace] by its equations *)

Lemma replace_from_drop (k : nat) (old new s : string) :
  k <= len s -> old <> EmptyString ->
  replace_from k old new s = replace_from 0 old new (drop k s).
Proof.
  intros Hk Hold. revert s Hk. induction k as [|k IH]; intros s Hk.
  - now destruct s.
  - destruct s as [|c s]; simpl in Hk; [lia|].
    simpl. apply IH. lia.
Qed.

Lemma replace_here (old new s : string) :
  old <> EmptyString -> replace old new (old +:+ s) = new +:+ replace old new s.
Proof.
  intros Hold. destruct old as [|a old]; [contradiction|].
  unfold replace. rewrite app_cons.
  cbn [replace_from]. rewrite <- app_cons, startswith_app. f_equal.
  replace (len (String a old) - 1) with (len old) by (simpl; lia).
  rewrite replace_from_drop; [now rewrite drop_app | rewrite len_app; lia | discriminate].
Qed.

Lemma replace_skip (old new : string) (c : ascii) (s : string) :
  old <> EmptyString -> startswith (String c s) old = false ->
  replace old new (String c s) = String c (replace old new s).
Proof.
  intros Hold Hs. destruct old as [|a old]; [contradiction|].
  unfold replace. cbn [replace_from]. now rewrite Hs.
Qed.

Lemma replace_absent (old new s : string) :
  old <> EmptyString -> contains old s = false -> replace old new s = s.
Proof.
  intros Hold. induction s as [|c s IH]; intros H.
  - destruct old; [contradiction | reflexivity].
  - cbn [contains] in H. apply orb_false_iff in H as [H1 H2].
    rewrite replace_skip by assumption. now rewrite IH.
Qed.

(** *** What the function computes *)

Definition with_query (target_url query_string : string) : string :=
  if nonempty query_string then target_url +:+ "?" +:+ query_string else target_url.

(** A placeholder of the URL names a parameter. *)
Definition has_params (proxy_url : string) (path_params : dict string) : bool :=
  existsb (fun param => contains ("{" +:+ param +:+ "}") proxy_url) (keys path_params).

(** The parameters are put in one after the other, in the order of the
    dictionary; a placeholder that is not there leaves the URL as it is. *)
Definition put_params (proxy_url : string) (path_params : dict string) : string :=
  fold_left (fun url kv => replace ("{" +:+ kv.1 +:+ "}") kv.2 url) path_params proxy_url.

Definition lead_slash (s : string) : string :=
  if startswith s "/" then s else "/" +:+ s.

Lemma placeholder_nonempty (param : string) : "{" +:+ param +:+ "}" <> EmptyString.
Proof. discriminate. Qed.

Lemma put_params_fold (path_params : dict string) (url : string) :
  fold_left
    (fun target_url kv =>
       if contains (placeholder kv.1) target_url
       then replace (placeholder kv.1) kv.2 target_url
       else target_url)
    path_params url
  = put_params url path_params.
Proof.
  unfold put_params, placeholder. revert url.
  induction path_params as [|[k v] ps IH]; intros url; [reflexivity|].
  simpl. rewrite <- IH. f_equal.
  destruct (contains ("{" +:+ k +:+ "}") url) eqn:E; [reflexivity|].
  symmetry. apply replace_absent; [apply placeholder_nonempty | exact E].
Qed.

Lemma build_proxy_url_eq (proxy_url mock_path request_path : string)
    (path_params : dict string) (query_string : string) :
  _build_proxy_url proxy_url mock_path request_path path_params query_string
  = with_query
      (if has_params proxy_url path_params then put_params proxy_url path_params
       else
         if negb (String.eqb request_path mock_path) then
           if nonempty (_extract_additional_path mock_path request_path)
           then rstrip_char "/" proxy_url +:+ _extract_additional_path mock_path request_path
           else rstrip_char "/" proxy_url
         else rstrip_char "/" proxy_url)
      query_string.
Proof.
  unfold _build_proxy_url. rewrite put_params_fold. reflexivity.
Qed.

(** The claim's reading of the second case: one test on the paths as they
    are, then the characters of the request path after the template. *)
Definition claimed_target_url (proxy_url mock_path request_path : string)
    (path_params : dict string) (query_string : string) : string :=
  with_query
    (if has_params proxy_url path_params then put_params proxy_url path_params
     else
       rstrip_char "/" proxy_url +:+
       (if String.eqb request_path mock_path then EmptyString
        else lead_slash (drop (len mock_path) request_path)))
    query_string.

(** C6 as stated fails: the two paths are compared again after their
    trailing slashes are gone, so a request for ["/a/"] on the template
    ["/a"] adds nothing to the URL. *)
Lemma claimed_target_url_fails :
  ~ (forall proxy_url mock_path request_path path_params query_string,
       _build_proxy_url proxy_url mock_path request_path path_params query_string
       = claimed_target_url proxy_url mock_path request_path path_params query_string).
Proof.
  intros H. specialize (H "http://up" "/a" "/a/" [] EmptyString).
  vm_compute in H. discriminate.
Qed.

(** C6, amended.  With a placeholder of a parameter in [proxy_url], the
    parameters are substituted and no path is added.  Otherwise the URL
    loses its trailing slashes and, when the request path is not the
    template, gets what [_extract_additional_path] finds once both paths
    have lost their trailing slashes: nothing when they are then equal, the
    rest of the request path with a leading slash when it starts with the
    template, the whole request path when it does not.  The query string,
    when there is one, follows a question mark. *)
Theorem build_proxy_url_cases (proxy_url mock_path request_path : string)
    (path_params : dict string) (query_string : string) :
  let url := _build_proxy_url proxy_url mock_path request_path path_params query_string in
  let stripped := rstrip_char "/" proxy_url in
  let mock := rstrip_char "/" mock_path in
  let req := rstrip_char "/" request_path in
  (has_params proxy_url path_params = true ->
     url = with_query (put_params proxy_url path_params) query_string) /\
  (has_params proxy_url path_params = false ->
     (request_path = mock_path \/ req = mock ->
        url = with_query stripped query_string) /\
     (forall rest, request_path <> mock_path -> req = mock +:+ rest -> rest <> EmptyString ->
        url = with_query (stripped +:+ lead_slash rest) query_string) /\
     (request_path <> mock_path -> startswith req mock = false ->
        url = with_query (stripped +:+ req) query_string)).
Proof.
  intros url stripped mock req. subst url.
  rewrite build_proxy_url_eq.
  split; intros Hp; rewrite Hp.
  - reflexivity.
  - fold stripped. unfold _extract_additional_path. fold mock. fold req.
    split; [|split].
    + intros [Heq|Heq].
      * subst request_path. now rewrite String.eqb_refl.
      * destruct (String.eqb request_path mock_path); [reflexivity|]. simpl negb. cbv iota.
        rewrite Heq, String.eqb_refl. reflexivity.
    + intros rest Hne Hreq Hrest.
      apply String.eqb_neq in Hne. rewrite Hne. simpl negb. cbv iota.
      destruct (String.eqb mock req) eqn:E.
      { apply String.eqb_eq in E. rewrite Hreq in E.
        rewrite <- (app_empty_r mock) in E at 1.
        apply String.app_inj in E. congruence. }
      rewrite Hreq, startswith_app, drop_app. fold (lead_slash rest).
      assert (nonempty (lead_slash rest) = true) as ->; [|reflexivity].
      unfold lead_slash. destruct rest; [contradiction|].
      destruct (startswith _ _); reflexivity.
    + intros Hne Hs. apply String.eqb_neq in Hne. rewrite Hne. simpl negb. cbv iota.
      destruct (String.eqb mock req) eqn:E.
      { apply String.eqb_eq in E. rewrite <- E in Hs.
        rewrite <- (app_empty_r mock) in Hs at 1. now rewrite startswith_app in Hs. }
      rewrite Hs. destruct req; [|reflexivity].
      simpl nonempty. cbv iota. now rewrite app_empty_r.
Qed.

End TargetUrlFacts.

Lemma build_proxy_url_cases_witness :
  MockProcessor._build_proxy_url "https://api/u/{id}" "/users/{id}" "/users/42" [("id", "42")] "x=1"
  = TargetUrlFacts.with_query
      (TargetUrlFacts.put_params "https://api/u/{id}" [("id", "42")]) "x=1"
  /\
  MockProcessor._build_proxy_url "https://api/" "/users/{id}" "/users/42/" [("id", "42")] ""
  = TargetUrlFacts.with_query ("https://api" +:+ "/users/42") "".
Proof.
  split.
  - apply (proj1 (TargetUrlFacts.build_proxy_url_cases
                    "https://api/u/{id}" "/users/{id}" "/users/42" [("id", "42")] "x=1")).
    reflexivity.
  - apply (proj2 (TargetUrlFacts.build_proxy_url_cases
                    "https://api/" "/users/{id}" "/users/42/" [("id", "42")] "")).
    + reflexivity.
    + discriminate.
    + reflexivity.
Defined.

(** ** A small evaluator, for examples

    It knows the scripts and expressions the examples use and raises on
    every other text, as Python does on an unbound name. *)

Module Toy.

Import Py MockProcessor.

#[local] Unset Elimination Schemes.

Inductive value : Type :=
| TNone
| TBool (b : bool)
| TInt (n : Z)
| TText (s : string)
| TMap (d : list (string * value)).

#[local] Set Elimination Schemes.

Definition str (v : value) : string :=
  match v with
  | TNone => "None"
  | TBool true => "True"
  | TBool false => "False"
  | TInt n => pretty n
  | TText s => s
  | TMap [] => "{}"
  | TMap _ => "{...}"
  end.

Definition bool_of (v : value) : bool :=
  match v with
  | TNone => false
  | TBool b => b
  | TInt n => negb (n =? 0)%Z
  | TText s => nonempty s
  | TMap [] => false
  | TMap _ => true
  end.

Definition dumps (v : value) : result string :=
  match v with
  | TNone => Ok "null"
  | TBool true => Ok "true"
  | TBool false => Ok "false"
  | TInt n => Ok (pretty n)
  | TText s => Ok (SOAPParser.dq +:+ s +:+ SOAPParser.dq)
  | TMap [] => Ok "{}"
  | TMap _ => Raise "TypeError"
  end.

(** The scripts [n = 3] and [n = 20] *)
Definition exec (code : string) (context : dict value) : result (dict value) :=
  if String.eqb code "n = 3" then Ok (Py.set context "n" (TInt 3))
  else if String.eqb code "n = 20" then Ok (Py.set context "n" (TInt 20))
  else Raise "invalid syntax".

(** The constants, a bound name, and the comparison [n > 10] *)
Definition eval (expr : string) (context : dict value) : dict value * result value :=
  (context,
   if String.eqb expr "True" then Ok (TBool true)
   else if String.eqb expr "False" then Ok (TBool false)
   else if String.eqb expr "n > 10" then
     match get context "n" with
     | Some (TInt n) => Ok (TBool (10 <? n)%Z)
     | Some _ => Raise "'>' not supported between these instances"
     | None => Raise "name 'n' is not defined"
     end
   else
     match get context expr with
     | Some v => Ok v
     | None => Raise ("name '" +:+ expr +:+ "' is not defined")
     end).

#[export] Instance evaluator : Evaluator := {|
  pyval := value;
  VNone := TNone;
  VStr := TText;
  VDict := TMap;
  py_str := str;
  py_as_str := fun v => match v with TText s => Some s | _ => None end;
  py_is_none := fun v => match v with TNone => true | _ => false end;
  py_bool := bool_of;
  json_loads := fun _ => Raise "Expecting value";
  json_dumps := dumps;
  py_exec := exec;
  py_eval := eval
|}.

(** An upstream that answers every request with 200 and the URL it got *)
Definition echo : string -> string -> dict string -> string -> http_outcome :=
  fun _ url _ _ => Response 200 [("content-type", "text/plain")] url.

Definition get_x (query : string) : Request :=
  {| req_method := "GET"; req_path := "/x"; req_query := query;
     req_url := "http://mock/x"; req_headers := [("host", "mock")];
     req_query_params := []; req_body := EmptyString |}.

End Toy.

(** ** The conditional strategy *)

Module ConditionalFacts.

Import Py PyFacts Models MockProcessor.

(** The conditions a run evaluated, in order *)
Definition evaluated (evs : list event) : list string :=
  omap (fun ev => match ev with EvEval c => Some c | EvHttp _ _ _ _ => None end) evs.

Section Conditional.

Context {E : Evaluator}.
Variable http_client : string -> string -> dict string -> string -> http_outcome.

(** *** Template expansion *)

Lemma template_without_python (response_template : string) (context : dict pyval) :
  contains_python response_template context = false ->
  _process_response_template response_template context = response_template.
Proof. intros H. unfold _process_response_template. now rewrite H. Qed.

Lemma template_plain_raises (response_template : string) (context context' : dict pyval)
    (e : string) :
  json_shaped response_template = false ->
  py_eval response_template context = (context', Raise e) ->
  _process_response_template response_template context = response_template.
Proof.
  intros Hj He. unfold _process_response_template.
  destruct (contains_python response_template context); [|reflexivity].
  now rewrite Hj, He.
Qed.

(** C8, amended.  When the evaluation of a template raises, a template that
    is not JSON-shaped comes back unchanged.  A JSON-shaped template (or
    one whose value [json.dumps] refuses) comes back with every occurrence
    of the name of each variable of the context, the reserved names apart,
    replaced by the text of its value, one variable after the other. *)
Theorem template_evaluation_error (response_template : string)
    (context context' : dict pyval) :
  (forall e, json_shaped response_template = false ->
     py_eval response_template context = (context', Raise e) ->
     _process_response_template response_template context = response_template) /\
  (forall e, contains_python response_template context = true ->
     json_shaped response_template = true ->
     py_eval response_template context = (context', Raise e) ->
     _process_response_template response_template context
     = replace_variables context' response_template) /\
  (forall v e, contains_python response_template context = true ->
     json_shaped response_template = true ->
     py_eval response_template context = (context', Ok v) ->
     json_dumps v = Raise e ->
     _process_response_template response_template context
     = replace_variables context' response_template).
Proof.
  split; [|split].
  - intros e. apply template_plain_raises.
  - intros e Hp Hj He. unfold _process_response_template. now rewrite Hp, Hj, He.
  - intros v e Hp Hj He Hd. unfold _process_response_template. now rewrite Hp, Hj, He, Hd.
Qed.

(** *** The loop over the branches *)

Lemma evaluated_app (a b : list event) : evaluated (a ++ b) = evaluated a ++ evaluated b.
Proof. unfold evaluated. apply omap_app. Qed.

Lemma proxy_conditional_no_eval (proxy_url : string) (request : Request)
    (body_data : option string) (path_params : dict string) :
  evaluated (_proxy_conditional_request http_client proxy_url request body_data path_params).1 = [].
Proof. reflexivity. Qed.

Lemma branch_reply_no_eval (resp_data : ConditionalResponse) (request : Request)
    (body_bytes : option string) (path_params : dict string) (context : dict pyval) :
  evaluated (branch_reply http_client resp_data request body_bytes path_params context).1 = [].
Proof.
  unfold branch_reply.
  destruct (String.eqb (response_type resp_data) "proxy"); [|reflexivity].
  destruct (SOAPParser.truthy (cr_proxy_url resp_data)); reflexivity.
Qed.

(** [skipped context entries context' conditions]: from [context] the loop
    passes every entry of [entries] without an answer -- an entry that is
    [None] or has no condition, a condition that is false, a condition that
    raises -- evaluating [conditions] and ending in [context']. *)
Inductive skipped : dict pyval -> list (option ConditionalResponse) ->
                    dict pyval -> list string -> Prop :=
| skipped_done context :
    skipped context [] context []
| skipped_none context rest context' conditions :
    skipped context rest context' conditions ->
    skipped context (None :: rest) context' conditions
| skipped_no_condition context resp_data rest context' conditions :
    condition resp_data = None ->
    skipped context rest context' conditions ->
    skipped context (Some resp_data :: rest) context' conditions
| skipped_false context resp_data c context1 v rest context' conditions :
    condition resp_data = Some c ->
    py_eval c context = (context1, Ok v) ->
    py_bool v = false ->
    skipped context1 rest context' conditions ->
    skipped context (Some resp_data :: rest) context' (c :: conditions)
| skipped_raise context resp_data c context1 e rest context' conditions :
    condition resp_data = Some c ->
    py_eval c context = (context1, Raise e) ->
    skipped context1 rest context' conditions ->
    skipped context (Some resp_data :: rest) context' (c :: conditions).

Lemma branches_loop_skipped (request : Request) (body_bytes : option string)
    (path_params : dict string) (context context' : dict pyval)
    (pre rest : list (option ConditionalResponse)) (conditions : list string) :
  skipped context pre context' conditions ->
  branches_loop http_client request body_bytes path_params context (pre ++ rest)
  = (map EvEval conditions
       ++ (branches_loop http_client request body_bytes path_params context' rest).1,
     (branches_loop http_client request body_bytes path_params context' rest).2).
Proof.
  induction 1 as [context | context pre context' conditions _ IH
                 | context resp_data pre context' conditions Hc _ IH
                 | context resp_data c context1 v pre context' conditions Hc He Hv _ IH
                 | context resp_data c context1 e pre context' conditions Hc He _ IH].
  - simpl. now destruct (branches_loop _ _ _ _ _ rest).
  - exact IH.
  - simpl. rewrite Hc. exact IH.
  - simpl. rewrite Hc, He, Hv, IH. reflexivity.
  - simpl. rewrite Hc, He, IH. reflexivity.
Qed.

Lemma branches_loop_first_truthy (request : Request) (body_bytes : option string)
    (path_params : dict string) (context context1 context2 : dict pyval)
    (pre post : list (option ConditionalResponse)) (conditions : list string)
    (resp_data : ConditionalResponse) (c : string) (v : pyval) :
  skipped context pre context1 conditions ->
  condition resp_data = Some c ->
  py_eval c context1 = (context2, Ok v) ->
  py_bool v = true ->
  let answer := branch_reply http_client resp_data request body_bytes path_params context2 in
  branches_loop http_client request body_bytes path_params context (pre ++ Some resp_data :: post)
  = (map EvEval conditions ++ EvEval c :: answer.1, Some answer.2).
Proof.
  intros Hskip Hc He Hv answer.
  rewrite (branches_loop_skipped _ _ _ _ _ _ _ _ Hskip).
  simpl. rewrite Hc, He, Hv. fold answer. now destruct answer.
Qed.

Lemma evaluated_map_eval (conditions : list string) :
  evaluated (map EvEval conditions) = conditions.
Proof. induction conditions as [|c cs IH]; [reflexivity | simpl; now rewrite IH]. Qed.

Lemma process_conditional_runs (mock_service : MockService) (request : Request)
    (body_str : option string) (path_params : dict string) (body_bytes : option string)
    (code : string) (responses : list (option ConditionalResponse)) :
  SOAPParser.truthy (condition_code mock_service) = Some code ->
  conditional_responses mock_service = Some responses ->
  responses <> [] ->
  _process_conditional http_client mock_service request body_str path_params body_bytes
  = match py_exec code (initial_context request body_str path_params) with
    | Raise e => ([], (500%Z, "Ошибка выполнения условного кода: " +:+ e, [], None))
    | Ok context =>
        match branches_loop http_client request body_bytes path_params context responses with
        | (evs, Some answer) => (evs, answer)
        | (evs, None) =>
            (evs, (conditional_status_code mock_service, "Ни одно условие не выполнено",
                   or_no_headers (conditional_headers mock_service), None))
        end
    end.
Proof.
  intros Hcode Hresp Hne. unfold _process_conditional. rewrite Hcode, Hresp.
  destruct responses; [contradiction | reflexivity].
Qed.

(** C7: the branches are tried in the order of the list.  When the entries
    before a branch are passed without an answer -- also those whose
    condition raises -- and the condition of the branch holds, the reply is
    the one of that branch and the conditions evaluated are those of the
    entries passed and the one of the branch: none of a later entry.  When
    [condition_code] itself raises, the reply is 500 with the message and
    no condition is evaluated. *)
Theorem first_truthy_branch_wins (mock_service : MockService) (request : Request)
    (body_str : option string) (path_params : dict string) (body_bytes : option string)
    (code : string) (pre post : list (option ConditionalResponse))
    (resp_data : ConditionalResponse) :
  SOAPParser.truthy (condition_code mock_service) = Some code ->
  conditional_responses mock_service = Some (pre ++ Some resp_data :: post) ->
  let run := _process_conditional http_client mock_service request body_str path_params body_bytes in
  (forall context context1 context2 conditions c v,
     py_exec code (initial_context request body_str path_params) = Ok context ->
     skipped context pre context1 conditions ->
     condition resp_data = Some c ->
     py_eval c context1 = (context2, Ok v) ->
     py_bool v = true ->
     run.2 = (branch_reply http_client resp_data request body_bytes path_params context2).2 /\
     evaluated run.1 = conditions ++ [c]) /\
  (forall e,
     py_exec code (initial_context request body_str path_params) = Raise e ->
     run = ([], (500%Z, "Ошибка выполнения условного кода: " +:+ e, [], None))).
Proof.
  intros Hcode Hresp run. subst run.
  rewrite (process_conditional_runs _ _ _ _ _ _ _ Hcode Hresp)
    by (destruct pre; discriminate).
  split.
  - intros context context1 context2 conditions c v Hexec Hskip Hc He Hv.
    rewrite Hexec.
    rewrite (branches_loop_first_truthy _ _ _ _ _ _ _ post _ _ _ _ Hskip Hc He Hv).
    simpl. split; [reflexivity|].
    rewrite evaluated_app, evaluated_map_eval. simpl.
    now rewrite branch_reply_no_eval.
  - intros e Hexec. now rewrite Hexec.
Qed.

End Conditional.

Lemma template_evaluation_error_witness :
  _process_response_template (E := Toy.evaluator) "m + 1" [("n", Toy.TInt 3)] = "m + 1" /\
  _process_response_template (E := Toy.evaluator) "{n: m}" [("n", Toy.TInt 3)]
  = replace_variables (E := Toy.evaluator) [("n", Toy.TInt 3)] "{n: m}".
Proof.
  split.
  - apply (proj1 (template_evaluation_error (E := Toy.evaluator)
                    "m + 1" [("n", Toy.TInt 3)] [("n", Toy.TInt 3)])
             "name 'm + 1' is not defined"); reflexivity.
  - apply (proj1 (proj2 (template_evaluation_error (E := Toy.evaluator)
                           "{n: m}" [("n", Toy.TInt 3)] [("n", Toy.TInt 3)]))
             "name '{n: m}' is not defined"); reflexivity.
Defined.

(** A service with four branches: an unbound name, a comparison that is
    false, the branch that answers, and one that would also hold. *)
Definition static_branch (c body : string) : ConditionalResponse :=
  {| condition := Some c; response_type := "static"; response := body;
     cr_proxy_url := None; status_code := 200; headers := None |}.

Definition proxy_branch (c url : string) : ConditionalResponse :=
  {| condition := Some c; response_type := "proxy"; response := EmptyString;
     cr_proxy_url := Some url; status_code := 200; headers := None |}.

Definition four_branches : MockService :=
  {| id := 1; name := "cond"; path := "/x"; methods := ["GET"];
     strategy := CONDITIONAL; service_type := REST; proxy_url := None;
     static_response := None; static_status_code := 200; static_headers := None;
     condition_code := Some "n = 3";
     conditional_responses :=
       Some [Some (static_branch "m" "unbound");
             Some (proxy_branch "n > 10" "https://big/{n}");
             Some (static_branch "n" "ok");
             Some (static_branch "True" "late")];
     conditional_status_code := 200; conditional_headers := None; is_active := true |}.

Definition context_after_code : dict Toy.value :=
  Py.set (initial_context (E := Toy.evaluator) (Toy.get_x EmptyString) (Some EmptyString) [])
    "n" (Toy.TInt 3).

Lemma first_truthy_branch_wins_witness :
  let run :=
    _process_conditional (E := Toy.evaluator) Toy.echo four_branches
      (Toy.get_x EmptyString) (Some EmptyString) [] (Some EmptyString) in
  run.2 = (200%Z, "ok", [], None) /\ evaluated run.1 = ["m"; "n > 10"; "n"].
Proof.
  refine (proj1 (first_truthy_branch_wins (E := Toy.evaluator) Toy.echo four_branches
                   (Toy.get_x EmptyString) (Some EmptyString) [] (Some EmptyString)
                   "n = 3"
                   [Some (static_branch "m" "unbound");
                    Some (proxy_branch "n > 10" "https://big/{n}")]
                   [Some (static_branch "True" "late")]
                   (static_branch "n" "ok") eq_refl eq_refl)
            context_after_code context_after_code context_after_code
            ["m"; "n > 10"] "n" (Toy.TInt 3) eq_refl _ eq_refl eq_refl eq_refl).
  eapply skipped_raise; [reflexivity | reflexivity |].
  eapply skipped_false; [reflexivity | reflexivity | reflexivity |].
  apply skipped_done.
Defined.

(** The same service when the comparison holds: the proxy branch answers,
    with the variable of the script in the URL. *)
Example proxy_branch_answers :
  let bigger :=
    {| id := 1; name := "cond"; path := "/x"; methods := ["GET"];
       strategy := CONDITIONAL; service_type := REST; proxy_url := None;
       static_response := None; static_status_code := 200; static_headers := None;
       condition_code := Some "n = 20";
       conditional_responses := conditional_responses four_branches;
       conditional_status_code := 200; conditional_headers := None; is_active := true |} in
  _process_conditional (E := Toy.evaluator) Toy.echo bigger
    (Toy.get_x "n=20") (Some EmptyString) [] (Some EmptyString)
  = ([EvEval "m"; EvEval "n > 10";
      EvHttp "GET" "https://big/20?n=20" [] EmptyString],
     (200%Z, "https://big/20?n=20", [("content-type", "text/plain")],
      Some {| target_url := "https://big/20?n=20"; proxy_headers := [];
              proxy_response_status := Some 200%Z;
              proxy_response_headers := [("content-type", "text/plain")];
              proxy_response_body := "https://big/20?n=20"; proxy_error := None |})).
Proof. reflexivity. Qed.

(** The two paths side by side, the upstream out of reach: the [PROXY]
    strategy answers 502, the proxy branch of a conditional service 500. *)
Example transport_error_statuses :
  let upstream := ProxyFacts.unreachable "All connection attempts failed" in
  let proxied :=
    {| id := 2; name := "proxy"; path := "/x"; methods := ["GET"];
       strategy := PROXY; service_type := REST; proxy_url := Some "https://big";
       static_response := None; static_status_code := 200; static_headers := None;
       condition_code := None; conditional_responses := None;
       conditional_status_code := 200; conditional_headers := None; is_active := true |} in
  let conditional :=
    {| id := 3; name := "cond"; path := "/x"; methods := ["GET"];
       strategy := CONDITIONAL; service_type := REST; proxy_url := None;
       static_response := None; static_status_code := 200; static_headers := None;
       condition_code := Some "n = 20";
       conditional_responses := Some [Some (proxy_branch "True" "https://big")];
       conditional_status_code := 200; conditional_headers := None; is_active := true |} in
  status_of (process_request (E := Toy.evaluator) upstream proxied
               (Toy.get_x EmptyString) (Some EmptyString) [] None).2 = 502%Z /\
  status_of (process_request (E := Toy.evaluator) upstream conditional
               (Toy.get_x EmptyString) (Some EmptyString) [] (Some EmptyString)).2 = 500%Z.
Proof. split; reflexivity. Qed.

(** C8 as stated fails on a JSON-shaped template: [m] is unbound, the
    evaluation raises [NameError], and the fallback writes the value of [n]
    in the place of its name. *)
Lemma json_template_error_not_unchanged :
  ~ (forall (E : Evaluator) (response_template : string) (context context' : dict pyval)
       (e : string),
       py_eval response_template context = (context', Raise e) ->
       _process_response_template response_template context = response_template).
Proof.
  intros H.
  specialize (H Toy.evaluator "{n: m}" [("n", Toy.TInt 3)] [("n", Toy.TInt 3)]
                "name '{n: m}' is not defined" eq_refl).
  vm_compute in H. discriminate.
Qed.

Example json_template_error_result :
  _process_response_template (E := Toy.evaluator) "{n: m}" [("n", Toy.TInt 3)] = "{3: m}".
Proof. reflexivity. Qed.

(** The same template as the response of a branch, through the strategy *)
Example json_template_error_in_branch :
  let service :=
    {| id := 4; name := "cond"; path := "/x"; methods := ["GET"];
       strategy := CONDITIONAL; service_type := REST; proxy_url := None;
       static_response := None; static_status_code := 200; static_headers := None;
       condition_code := Some "n = 3";
       conditional_responses := Some [Some (static_branch "True" "{n: m}")];
       conditional_status_code := 200; conditional_headers := None; is_active := true |} in
  process_request (E := Toy.evaluator) Toy.echo service
    (Toy.get_x EmptyString) (Some EmptyString) [] (Some EmptyString)
  = ([EvEval "True"], (200%Z, "{3: m}", [], None)).
Proof. reflexivity. Qed.

End ConditionalFacts.

(** ** The SOAP method of a request *)

Module SOAPFacts.

Import Py PyFacts SOAPParser.

Lemma truthy_nonempty (o : option string) (s : string) :
  truthy o = Some s -> o = Some s /\ s <> EmptyString.
Proof.
  destruct o as [x|]; [|discriminate]. simpl.
  destruct x; [discriminate|]. intros [= <-]. split; [reflexivity | discriminate].
Qed.

Lemma truthy_some (s : string) : s <> EmptyString -> truthy (Some s) = Some s.
Proof. destruct s; [contradiction | reflexivity]. Qed.

Section WithBodyParser.

Variable extract_soap_method_from_body : string -> option string.

#[local] Abbreviation extract := (extract_soap_method extract_soap_method_from_body).

(** The name the body gives, when the body is there and gives one *)
Definition body_name (body : option string) : option string :=
  match truthy body with
  | Some b =>
      match truthy (extract_soap_method_from_body b) with
      | Some method_from_body => truthy (Some (_normalize_method_name method_from_body))
      | None => None
      end
  | None => None
  end.

(** A header name good enough for the first return: more than one
    character, before and after normalization *)
Definition good_header_name (h : string) : bool :=
  (1 <? len (strip h))%nat && (1 <? len (_normalize_method_name h))%nat.

Lemma extract_soap_method_eq (headers : dict string) (body : option string) :
  extract headers body =
  match truthy (extract_soap_method_from_headers headers) with
  | Some h =>
      if good_header_name h then Some (_normalize_method_name h)
      else match body_name body with
           | Some m => Some m
           | None => truthy (Some (_normalize_method_name h))
           end
  | None => body_name body
  end.
Proof.
  unfold extract_soap_method, body_name, good_header_name.
  destruct (truthy (extract_soap_method_from_headers headers)) as [h|]; [|now destruct (match truthy body with Some _ => _ | None => _ end)].
  destruct (1 <? len (strip h))%nat; simpl.
  - destruct (_normalize_method_name h) as [|a n] eqn:En; simpl; [reflexivity|].
    destruct (1 <? S (len n))%nat; reflexivity.
  - reflexivity.
Qed.

(** C9, amended.  [extract_soap_method] never returns the empty string.  A
    header name of at most one character is not returned at once: a name
    found in the body goes before it; but when the body gives none, the
    header name is returned after all, also when it has one character. *)
Theorem short_header_name_is_last_resort (headers : dict string) (body : option string) :
  (forall m, extract headers body = Some m -> m <> EmptyString) /\
  (forall h, truthy (extract_soap_method_from_headers headers) = Some h ->
     good_header_name h = false ->
     (forall m, body_name body = Some m -> extract headers body = Some m) /\
     (body_name body = None ->
        extract headers body = truthy (Some (_normalize_method_name h)))).
Proof.
  rewrite extract_soap_method_eq. split.
  - intros m.
    assert (Hbody : forall x, body_name body = Some x -> x <> EmptyString).
    { unfold body_name. intros x.
      destruct (truthy body); [|discriminate].
      destruct (truthy (extract_soap_method_from_body s)); [|discriminate].
      intros H. now apply truthy_nonempty in H. }
    destruct (truthy (extract_soap_method_from_headers headers)) as [h|]; [|apply Hbody].
    unfold good_header_name.
    destruct ((1 <? len (strip h))%nat && (1 <? len (_normalize_method_name h))%nat) eqn:G.
    + intros [= <-]. apply andb_true_iff in G as [_ G]. apply Nat.ltb_lt in G.
      intros Hn. rewrite Hn in G. simpl in G. lia.
    + destruct (body_name body) as [x|] eqn:B.
      * intros [= <-]. now apply Hbody.
      * intros H. now apply truthy_nonempty in H.
  - intros h Hh Hgood. rewrite Hh, Hgood. split.
    + intros m Hm. now rewrite Hm.
    + intros Hnone. now rewrite Hnone.
Qed.

End WithBodyParser.

(** C9 as stated fails: the action [urn:a] names the method [a]; without a
    body it is what [extract_soap_method] returns. *)
Lemma one_character_method_returned :
  ~ (forall (body_parser : string -> option string) (headers : dict string)
       (body : option string) (m : string),
       extract_soap_method body_parser headers body = Some m -> 2 <= len m).
Proof.
  intros H.
  specialize (H (fun _ => None) [("soapaction", dq +:+ "urn:a" +:+ dq)] None "a" eq_refl).
  simpl in H. lia.
Qed.

Lemma short_header_name_is_last_resort_witness :
  extract_soap_method (fun _ => Some "Sub") [("soapaction", "urn:a")]
    (Some "<Body><Sub/></Body>") = Some "Sub" /\
  extract_soap_method (fun _ => None) [("soapaction", "urn:a")] (Some "<x/>")
  = truthy (Some (_normalize_method_name "a")).
Proof.
  split.
  - apply (proj1 (proj2 (short_header_name_is_last_resort (fun _ => Some "Sub")
                           [("soapaction", "urn:a")] (Some "<Body><Sub/></Body>"))
                    "a" eq_refl eq_refl)).
    reflexivity.
  - apply (proj2 (proj2 (short_header_name_is_last_resort (fun _ => None)
                           [("soapaction", "urn:a")] (Some "<x/>")) "a" eq_refl eq_refl)).
    reflexivity.
Defined.

End SOAPFacts.

(** ** The router *)

Module RouterFacts.

Import Py Models MockServiceService.

Section WithBodyParser.

Variable extract_soap_method_from_body : string -> option string.

(** A service that allows the method and whose template matches the path,
    with the parameters of the match *)
Definition candidate (path method : string) (service : MockService)
  : option (MockService * dict string) :=
  if method_allowed method service then
    match PathParser.extract_parameters (Models.path service) path with
    | Ok (Some path_params) => Some (service, path_params)
    | _ => None
    end
  else None.

Definition candidates (path method : string) (services : list MockService)
  : list (MockService * dict string) :=
  omap (candidate path method) services.

Definition never_raises (path : string) (services : list MockService) : Prop :=
  forall service e, In service services ->
    PathParser.extract_parameters (Models.path service) path <> Raise e.

Definition all_soap (l : list (MockService * dict string)) : Prop :=
  forall c, In c l -> service_type c.1 = SOAP.

Lemma find_loop_without_method (path method : string) (body : option string)
    (headers : option (dict string)) (hs : dict string)
    (services : list MockService) (fallback : option (MockService * dict string)) :
  headers_given headers = Some hs ->
  SOAPParser.truthy (SOAPParser.extract_soap_method extract_soap_method_from_body hs body) = None ->
  never_raises path services ->
  all_soap (candidates path method services) ->
  find_loop extract_soap_method_from_body path method body headers fallback services
  = Ok (match last (candidates path method services) with
        | Some c => Some c
        | None => fallback
        end).
Proof.
  intros Hh Hm. revert fallback.
  induction services as [|service rest IH]; intros fallback Hraise Hsoap; [reflexivity|].
  assert (Hraise' : never_raises path rest).
  { intros s e Hin. apply Hraise. now right. }
  assert (Hcons : candidates path method (service :: rest)
                  = match candidate path method service with
                    | Some c => c :: candidates path method rest
                    | None => candidates path method rest
                    end) by reflexivity.
  rewrite Hcons in *. clear Hcons. unfold candidate in *. cbn [find_loop].
  destruct (method_allowed method service); simpl negb; cbv iota.
  - destruct (PathParser.extract_parameters (Models.path service) path)
      as [[path_params|]|e] eqn:Ep.
    + assert (Hs : service_type service = SOAP).
      { apply (Hsoap (service, path_params)). now left. }
      rewrite Hs, Hh, Hm.
      rewrite IH; [|exact Hraise' | intros c Hc; apply Hsoap; now right].
      rewrite last_cons.
      now destruct (last (candidates path method rest)).
    + now apply IH.
    + exfalso. apply (Hraise service e); [now left | exact Ep].
  - now apply IH.
Qed.

(** A service the router returns at once when the request names the SOAP
    method [soap_method]: a REST service, or a SOAP service whose name
    matches the method *)
Definition strict (soap_method : string) (c : MockService * dict string) : bool :=
  match service_type c.1 with
  | REST => true
  | SOAP => _matches_soap_service (name c.1) soap_method
  end.

Lemma find_loop_with_method (path method : string) (body : option string)
    (headers : option (dict string)) (hs : dict string) (soap_method : string)
    (services : list MockService) (fallback : option (MockService * dict string)) :
  headers_given headers = Some hs ->
  SOAPParser.truthy (SOAPParser.extract_soap_method extract_soap_method_from_body hs body)
  = Some soap_method ->
  never_raises path services ->
  find_loop extract_soap_method_from_body path method body headers fallback services
  = Ok (match head (List.filter (strict soap_method) (candidates path method services)) with
        | Some c => Some c
        | None => fallback
        end).
Proof.
  intros Hh Hm.
  induction services as [|service rest IH]; intros Hraise; [reflexivity|].
  assert (Hraise' : never_raises path rest).
  { intros s e Hin. apply Hraise. now right. }
  assert (Hcons : candidates path method (service :: rest)
                  = match candidate path method service with
                    | Some c => c :: candidates path method rest
                    | None => candidates path method rest
                    end) by reflexivity.
  rewrite Hcons. clear Hcons. unfold candidate. cbn [find_loop].
  destruct (method_allowed method service); simpl negb; cbv iota.
  - destruct (PathParser.extract_parameters (Models.path service) path)
      as [[path_params|]|e] eqn:Ep.
    + cbn [List.filter]. unfold strict at 1. cbn [fst].
      destruct (service_type service); [reflexivity|].
      rewrite Hh, Hm.
      destruct (_matches_soap_service (name service) soap_method); [reflexivity|].
      now apply IH.
    + now apply IH.
    + exfalso. apply (Hraise service e); [now left | exact Ep].
  - now apply IH.
Qed.

(** C3, amended.  For a request with headers, when no template fails to
    compile: if no SOAP method can be read from the request and every
    active service that allows the method and matches the path is a SOAP
    service, the router returns the last of these services in the order of
    the table, with the parameters of its match, and no service when there
    is none.  If a method can be read, the router returns the first such
    service that is a REST service or has a name that matches the method:
    there is no fallback then. *)
Theorem soap_fallback_is_last_candidate (services : list MockService)
    (path method : string) (body : option string)
    (headers : option (dict string)) (hs : dict string) :
  let active := filter (fun s => is_active s = true) services in
  let soap_method :=
    SOAPParser.truthy (SOAPParser.extract_soap_method extract_soap_method_from_body hs body) in
  let found :=
    find_mock_service_by_path_and_method extract_soap_method_from_body
      services path method body headers in
  headers_given headers = Some hs ->
  never_raises path active ->
  (soap_method = None ->
   all_soap (candidates path method active) ->
   found = Ok (last (candidates path method active))) /\
  (forall m, soap_method = Some m ->
     found = Ok (head (List.filter (strict m) (candidates path method active)))).
Proof.
  intros active soap_method found Hh Hraise. subst found soap_method.
  unfold find_mock_service_by_path_and_method. fold active. split.
  - intros Hm Hsoap.
    rewrite (find_loop_without_method _ _ _ _ hs _ _ Hh Hm Hraise Hsoap).
    now destruct (last (candidates path method active)).
  - intros m Hm.
    rewrite (find_loop_with_method _ _ _ _ hs m _ _ Hh Hm Hraise).
    now destruct (head (List.filter (strict m) (candidates path method active))).
Qed.

End WithBodyParser.

(** The two services of the scenario *)
Definition soap_service (n : Z) (service_name : string) : MockService :=
  {| id := n; name := service_name; path := "/soap"; methods := ["POST"];
     strategy := STATIC; service_type := SOAP; proxy_url := None;
     static_response := Some service_name; static_status_code := 200;
     static_headers := None; condition_code := None; conditional_responses := None;
     conditional_status_code := 200; conditional_headers := None; is_active := true |}.

Definition calc : list MockService :=
  [soap_service 1 "Calc_Add"; soap_service 2 "Calc_Sub"].

Definition plain_headers : dict string :=
  [("host", "mock"); ("content-type", "text/xml")].

Lemma calc_never_raises : never_raises "/soap" calc.
Proof.
  intros service e [<-|[<-|[]]]; discriminate.
Qed.

Lemma calc_all_soap : all_soap (candidates "/soap" "POST" calc).
Proof.
  intros c [<-|[<-|[]]]; reflexivity.
Qed.

(** C3 as stated fails: with neither an action nor a body, the second of
    the two services is returned, not the first. *)
Lemma soap_fallback_is_not_first :
  ~ (forall (body_parser : string -> option string) (services : list MockService)
       (path method : string) (body : option string)
       (headers : option (dict string)) (hs : dict string),
       let active := filter (fun s => is_active s = true) services in
       headers_given headers = Some hs ->
       SOAPParser.truthy (SOAPParser.extract_soap_method body_parser hs body) = None ->
       never_raises path active ->
       all_soap (candidates path method active) ->
       find_mock_service_by_path_and_method body_parser services path method body headers
       = Ok (head (candidates path method active))).
Proof.
  intros H.
  specialize (H (fun _ => None) calc "/soap" "POST" (Some EmptyString)
                (Some plain_headers) plain_headers eq_refl eq_refl
                calc_never_raises calc_all_soap).
  vm_compute in H. discriminate.
Qed.

Lemma soap_fallback_is_last_candidate_witness :
  find_mock_service_by_path_and_method (fun _ => None) calc "/soap" "POST"
    (Some EmptyString) (Some plain_headers)
  = Ok (Some (soap_service 2 "Calc_Sub", [])) /\
  find_mock_service_by_path_and_method (fun _ => None) calc "/soap" "POST"
    (Some EmptyString) (Some [("host", "mock"); ("soapaction", "urn:Sub")])
  = Ok (Some (soap_service 2 "Calc_Sub", [])).
Proof.
  split.
  - apply (proj1 (soap_fallback_is_last_candidate (fun _ => None) calc "/soap" "POST"
                    (Some EmptyString) (Some plain_headers) plain_headers eq_refl
                    calc_never_raises) eq_refl calc_all_soap).
  - apply (proj2 (soap_fallback_is_last_candidate (fun _ => None) calc "/soap" "POST"
                    (Some EmptyString) (Some [("host", "mock"); ("soapaction", "urn:Sub")])
                    [("host", "mock"); ("soapaction", "urn:Sub")] eq_refl
                    calc_never_raises) "Sub" eq_refl).
Defined.

(** With an action the name decides, whatever the order. *)
Example soap_action_selects :
  find_mock_service_by_path_and_method (fun _ => None) calc "/soap" "POST"
    (Some EmptyString) (Some [("host", "mock"); ("soapaction", "urn:Add")])
  = Ok (Some (soap_service 1 "Calc_Add", [])).
Proof. reflexivity. Qed.

End RouterFacts.

(** ** The path matcher: a match gives the path back *)

Module MatcherFacts.

Import Py PyFacts PathParser.

(** Substitution of parameters into a template, each placeholder by the
    value of its name (a name without a value stays as it is) *)
Fixpoint substitute_tokens (ts : list token) (params : dict string) : string :=
  match ts with
  | [] => EmptyString
  | TLit c :: ts' => String c (substitute_tokens ts' params)
  | TName n :: ts' =>
      default ("{" +:+ n +:+ "}") (get params n) +:+ substitute_tokens ts' params
  end.

Definition substitute (path_pattern : string) (params : dict string) : string :=
  substitute_tokens (tokens path_pattern) params.

(** The same with the values taken in order *)
Fixpoint fill (ts : list token) (vals : dict string) : string :=
  match ts with
  | [] => EmptyString
  | TLit c :: ts' => String c (fill ts' vals)
  | TName n :: ts' =>
      match vals with
      | (_, v) :: vals' => v +:+ fill ts' vals'
      | [] => "{" +:+ n +:+ "}" +:+ fill ts' []
      end
  end.

(** What a group can hold: one character at least, and no slash *)
Definition segment_value (v : string) : Prop :=
  v <> EmptyString /\ mem "/" v = false.

Lemma match_group_sound (k : string -> option (dict string)) (n : string) :
  forall s pre d,
    match_group k n pre s = Some d ->
    exists v rest d',
      segment_value v /\ s = v +:+ rest /\ k rest = Some d' /\ d = (n, pre +:+ v) :: d'.
Proof.
  induction s as [|a s IH]; intros pre d H; simpl in H; [discriminate|].
  destruct (Ascii.eqb a "/") eqn:Ea; [discriminate|].
  destruct (match_group k n (pre +:+ String a EmptyString) s) as [d1|] eqn:Eg.
  - injection H as <-.
    destruct (IH _ _ Eg) as (v & rest & d' & [Hv Hm] & -> & Hk & ->).
    exists (String a v), rest, d'. repeat split.
    + discriminate.
    + simpl. now rewrite Ea.
    + exact Hk.
    + now rewrite app_assoc.
  - destruct (k s) as [d1|] eqn:Ek; [|discriminate]. injection H as <-.
    exists (String a EmptyString), s, d1. repeat split.
    + discriminate.
    + simpl. now rewrite Ea.
    + exact Ek.
Qed.

Lemma at_dollar_cases (tail : string) :
  at_dollar tail = true -> tail = EmptyString \/ tail = String "010" EmptyString.
Proof.
  destruct tail as [|c [|c' t]]; simpl; intros H; [now left | | discriminate].
  apply Ascii.eqb_eq in H. subst c. now right.
Qed.

(** A name without [>] in it: the group of its placeholder has no lead. *)
Definition plain_name (n : string) : Prop := mem ">" n = false.

Lemma break_gt_plain (n : string) : plain_name n -> break_gt n = (n, None).
Proof.
  unfold plain_name. induction n as [|c n IH]; intros H; [reflexivity|].
  simpl in H |- *. apply orb_false_iff in H as [Hc Hn].
  now rewrite Hc, (IH Hn).
Qed.

Lemma item_of_token_plain (n : string) :
  plain_name n -> item_of_token (TName n) = RGroup n EmptyString.
Proof. intros H. unfold item_of_token. now rewrite (break_gt_plain n H). Qed.

(** The matcher is sound: the string is the template with the captured
    values in the places of the groups, up to [$]. *)
Lemma re_match_sound (ts : list token) :
  Forall plain_name (token_names ts) ->
  forall s d,
    re_match_items (map item_of_token ts) s = Some d ->
    exists tail,
      at_dollar tail = true /\ s = fill ts d +:+ tail /\
      keys d = token_names ts /\ Forall (fun kv => segment_value kv.2) d.
Proof.
  induction ts as [|[c|n] ts IH]; intros Hplain s d H.
  - simpl in H. destruct (at_dollar s) eqn:Ed; [|discriminate]. injection H as <-.
    exists s. repeat split; [exact Ed | constructor].
  - simpl in H. destruct s as [|a s]; [discriminate|].
    destruct (Ascii.eqb a c) eqn:Ec; [|discriminate].
    apply Ascii.eqb_eq in Ec. subst a.
    destruct (IH Hplain _ _ H) as (tail & Hd & -> & Hk & Hv).
    exists tail. repeat split; assumption.
  - apply Forall_cons in Hplain as [Hn Hplain].
    cbn [map] in H. rewrite (item_of_token_plain n Hn) in H. simpl in H.
    destruct (match_group_sound _ _ _ _ _ H) as (v & rest & d' & Hv & -> & Hk & ->).
    destruct (IH Hplain _ _ Hk) as (tail & Hd & -> & Hkeys & Hvals).
    exists tail. repeat split.
    + exact Hd.
    + simpl. now rewrite app_assoc.
    + unfold keys in *. simpl. now rewrite Hkeys.
    + constructor; [exact Hv | exact Hvals].
Qed.

(** *** From the values in order to the values by name *)

Lemma get_app_absent {V} (d0 d : dict V) (k : string) :
  ~ In k (keys d0) -> get (d0 ++ d) k = get d k.
Proof.
  induction d0 as [|[k' v'] d0 IH]; intros Hk; [reflexivity|].
  simpl. destruct (String.eqb k' k) eqn:E.
  - apply String.eqb_eq in E. subst k'. exfalso. apply Hk. now left.
  - apply IH. intros Hin. apply Hk. now right.
Qed.

Lemma distinct_NoDup (l : list string) : distinct l = true -> NoDup l.
Proof.
  induction l as [|x l IH]; intros H; [constructor|].
  simpl in H. apply andb_true_iff in H as [Hx Hl]. constructor; [|now apply IH].
  rewrite list_elem_of_In. intros Hin.
  apply negb_true_iff in Hx.
  assert (existsb (String.eqb x) l = true) as Ht.
  { apply existsb_exists. exists x. split; [exact Hin | apply String.eqb_refl]. }
  congruence.
Qed.

Lemma substitute_fill (ts : list token) :
  forall d0 d,
    keys d = token_names ts ->
    NoDup (token_names ts) ->
    (forall n, In n (token_names ts) -> ~ In n (keys d0)) ->
    substitute_tokens ts (d0 ++ d) = fill ts d.
Proof.
  induction ts as [|[c|n] ts IH]; intros d0 d Hkeys Hnd Hfresh; simpl.
  - reflexivity.
  - f_equal. now apply IH.
  - simpl in Hkeys. destruct d as [|[k v] d']; [discriminate|].
    unfold keys in Hkeys. simpl in Hkeys. injection Hkeys as -> Hkeys.
    simpl in Hnd. apply NoDup_cons in Hnd as [Hn Hnd].
    rewrite get_app_absent by (apply Hfresh; now left).
    simpl. rewrite String.eqb_refl. simpl. f_equal.
    change (d0 ++ (n, v) :: d') with (d0 ++ [(n, v)] ++ d').
    rewrite List.app_assoc. apply IH; [exact Hkeys | exact Hnd |].
    intros m Hm. unfold keys. rewrite map_app, List.in_app_iff. simpl.
    intros [Hin|[<-|[]]].
    + apply (Hfresh m); [now right | exact Hin].
    + apply Hn. now apply list_elem_of_In.
Qed.

Lemma no_wildcard_regex (T : string) :
  contains "{*}" T = false -> _pattern_to_regex T = map item_of_token (tokens T).
Proof. intros H. unfold _pattern_to_regex. now rewrite H. Qed.

Lemma group_names_tokens (ts : list token) :
  Forall plain_name (token_names ts) ->
  group_names (map item_of_token ts) = token_names ts.
Proof.
  induction ts as [|[c|n] ts IH]; intros Hplain; [reflexivity | exact (IH Hplain) |].
  apply Forall_cons in Hplain as [Hn Hplain].
  cbn [map]. rewrite (item_of_token_plain n Hn).
  change (group_names (RGroup n EmptyString :: map item_of_token ts))
    with (n :: group_names (map item_of_token ts)).
  now rewrite (IH Hplain).
Qed.

(** A match of a template without the wildcard gives the path back. *)
Lemma match_round_trip (T P : string) (params : dict string) :
  contains "{*}" T = false ->
  endswith T "{*}" = false ->
  Forall plain_name (extract_parameter_names T) ->
  extract_parameters T P = Ok (Some params) ->
  endswith P (String "010" EmptyString) = false ->
  substitute T params = P /\ Forall (fun kv => segment_value kv.2) params.
Proof.
  intros Hw He Hplain H Hnl. unfold extract_parameters in H. rewrite He in H.
  rewrite (no_wildcard_regex T Hw) in H.
  destruct (re_compiles (map item_of_token (tokens T))) eqn:Hc; [|discriminate].
  injection H as H.
  destruct (re_match_sound _ Hplain _ _ H) as (tail & Hd & -> & Hkeys & Hvals).
  split; [|exact Hvals].
  unfold re_compiles in Hc. apply andb_true_iff in Hc as [_ Hc].
  rewrite (group_names_tokens _ Hplain) in Hc. apply distinct_NoDup in Hc.
  unfold substitute.
  rewrite <- (substitute_fill (tokens T) [] params Hkeys Hc) by (intros n _ []).
  simpl app.
  destruct (at_dollar_cases tail Hd) as [->| ->].
  - now rewrite app_empty_r.
  - now rewrite endswith_app in Hnl.
Qed.

(** *** The matcher is complete on templates made of whole segments *)

(** Every placeholder is followed by a slash or ends the template. *)
Fixpoint segment_shaped (ts : list token) : Prop :=
  match ts with
  | [] => True
  | TLit _ :: ts' => segment_shaped ts'
  | TName _ :: ts' =>
      match ts' with
      | [] => True
      | TLit c :: _ => c = "/"%char
      | TName _ :: _ => False
      end /\ segment_shaped ts'
  end.

Definition segment_end (rest : string) : Prop :=
  rest = EmptyString \/ startswith rest "/" = true.

Lemma match_group_stops (k : string -> option (dict string)) (n pre rest : string) :
  segment_end rest -> match_group k n pre rest = None.
Proof.
  intros [->|H]; [reflexivity|].
  destruct rest as [|a rest]; [reflexivity|]. cbn [startswith] in H.
  destruct (Ascii.eqb "/" a) eqn:E; [|discriminate].
  apply Ascii.eqb_eq in E. subst a. reflexivity.
Qed.

Lemma match_group_greedy (k : string -> option (dict string)) (n : string) :
  forall v pre rest d',
    segment_value v -> segment_end rest -> k rest = Some d' ->
    match_group k n pre (v +:+ rest) = Some ((n, pre +:+ v) :: d').
Proof.
  induction v as [|a v IH]; intros pre rest d' [Hne Hm] Hrest Hk; [contradiction|].
  rewrite app_cons. simpl in Hm |- *.
  apply orb_false_iff in Hm as [Ha Hm]. rewrite Ha.
  destruct v as [|b v].
  - rewrite app_nil_l, (match_group_stops k n _ rest Hrest), Hk. reflexivity.
  - rewrite (IH (pre +:+ String a EmptyString) rest d'); [|split; [discriminate | exact Hm] | exact Hrest | exact Hk].
    now rewrite app_assoc.
Qed.

Lemma fill_segment_end (ts : list token) (d : dict string) :
  match ts with
  | [] => True
  | TLit c :: _ => c = "/"%char
  | TName _ :: _ => False
  end ->
  segment_end (fill ts d).
Proof.
  destruct ts as [|[c|n] ts]; simpl.
  - intros _. now left.
  - intros ->. right. reflexivity.
  - intros [].
Qed.

Lemma re_match_complete (ts : list token) :
  Forall plain_name (token_names ts) ->
  segment_shaped ts ->
  forall d,
    keys d = token_names ts ->
    Forall (fun kv => segment_value kv.2) d ->
    re_match_items (map item_of_token ts) (fill ts d) = Some d.
Proof.
  induction ts as [|[c|n] ts IH]; intros Hplain Hshape d Hkeys Hvals.
  - destruct d; [reflexivity | discriminate].
  - simpl. rewrite Ascii.eqb_refl. now apply IH.
  - apply Forall_cons in Hplain as [Hn Hplain].
    destruct Hshape as [Hnext Hshape].
    destruct d as [|[k v] d']; [discriminate|].
    unfold keys, token_names in Hkeys. simpl in Hkeys. injection Hkeys as -> Hkeys.
    apply Forall_cons in Hvals as [Hv Hvals].
    cbn [map]. rewrite (item_of_token_plain n Hn). simpl.
    rewrite (match_group_greedy _ n v EmptyString (fill ts d') d' Hv
               (fill_segment_end ts d' Hnext) (IH Hplain Hshape d' Hkeys Hvals)).
    reflexivity.
Qed.

(** *** A template that passes validation holds the wildcard only at its end *)

Lemma mem_app (c : ascii) (a b : string) : mem c (a +:+ b) = mem c a || mem c b.
Proof.
  induction a as [|x a IH]; [reflexivity|].
  rewrite app_cons. simpl. rewrite IH. now rewrite orb_assoc.
Qed.

Lemma until_close_split (s content : string) :
  until_close s = Some content ->
  exists rest, s = content +:+ "}" +:+ rest.
Proof.
  revert content. induction s as [|c s IH]; intros content H; simpl in H; [discriminate|].
  destruct (Ascii.eqb c "}") eqn:Ec.
  - injection H as <-. apply Ascii.eqb_eq in Ec. subst c. now exists s.
  - destruct (until_close s) as [x|]; [|discriminate]. injection H as <-.
    destruct (IH x eq_refl) as [rest ->]. now exists rest.
Qed.

Lemma tokens_from_skip (k : nat) (s : string) :
  k <= len s -> tokens_from k s = tokens (drop k s).
Proof.
  revert s. induction k as [|k IH]; intros s Hk.
  - now destruct s.
  - destruct s as [|c s]; simpl in Hk; [lia|]. simpl. apply IH. lia.
Qed.

Lemma tokens_placeholder (s content : string) :
  until_close s = Some content -> content <> EmptyString ->
  exists rest, s = content +:+ "}" +:+ rest /\
    tokens (String "{" s) = TName content :: tokens rest.
Proof.
  intros Hu Hne. destruct (until_close_split s content Hu) as [rest Hs].
  exists rest. split; [exact Hs|].
  unfold tokens at 1. simpl. rewrite Hu.
  destruct content as [|a n]; [contradiction|]. f_equal.
  rewrite tokens_from_skip.
  - f_equal. rewrite Hs at 1. rewrite <- app_assoc.
    transitivity (drop (len (String a n +:+ "}")) ((String a n +:+ "}") +:+ rest));
      [|apply drop_app].
    f_equal. rewrite len_app. simpl. lia.
  - rewrite Hs, !len_app. simpl. lia.
Qed.

Lemma tokens_literal (c : ascii) (s : string) :
  (Ascii.eqb c "{" = false \/ until_close s = None \/ until_close s = Some EmptyString) ->
  tokens (String c s) = TLit c :: tokens s.
Proof.
  unfold tokens. simpl. intros [->|[->| ->]]; [reflexivity| |];
    destruct (Ascii.eqb c "{"); reflexivity.
Qed.

Lemma wildcard_at_start (s : string) :
  startswith (String "{" s) "{*}" = true -> until_close s = Some "*".
Proof.
  intros H. cbn [startswith] in H. rewrite Ascii.eqb_refl in H.
  destruct s as [|a s]; [discriminate|].
  destruct (Ascii.eqb "*" a) eqn:Ea; [|discriminate].
  apply Ascii.eqb_eq in Ea. subst a.
  destruct s as [|b s]; [discriminate|].
  destruct (Ascii.eqb "}" b) eqn:Eb; [|discriminate].
  apply Ascii.eqb_eq in Eb. subst b. reflexivity.
Qed.

Lemma wildcard_inside (content rest : string) :
  contains "{*}" (content +:+ "}" +:+ rest) = true ->
  mem "{" content = true \/ contains "{*}" rest = true.
Proof.
  induction content as [|a content IH]; intros H.
  - rewrite app_nil_l in H. right. exact H.
  - rewrite app_cons in H. cbn [contains] in H.
    apply orb_true_iff in H as [H|H].
    + left. cbn [startswith] in H. destruct (Ascii.eqb "{" a) eqn:E; [|discriminate].
      apply Ascii.eqb_eq in E. subst a. reflexivity.
    + destruct (IH H) as [Hm|Hc]; [left | now right].
      simpl. rewrite Hm. apply orb_true_r.
Qed.

(** A name the validation refuses in a template that does not end with the
    wildcard *)
Definition bad_name (name : string) : Prop :=
  name = "*" \/ mem "{" name = true.

Lemma wildcard_gives_bad_name (n : nat) :
  forall s, len s <= n -> contains "{*}" s = true ->
    exists name, In name (token_names (tokens s)) /\ bad_name name.
Proof.
  induction n as [|n IH]; intros s Hlen Hc.
  - destruct s; [discriminate | simpl in Hlen; lia].
  - destruct s as [|c s]; [discriminate|]. simpl in Hlen.
    assert (Hlit : tokens (String c s) = TLit c :: tokens s ->
                   startswith (String c s) "{*}" = false ->
                   exists name, In name (token_names (tokens (String c s))) /\ bad_name name).
    { intros Ht Hs. rewrite Ht. cbn [contains] in Hc. rewrite Hs in Hc.
      simpl in Hc. destruct (IH s ltac:(lia) Hc) as (name & Hin & Hbad).
      exists name. split; [exact Hin | exact Hbad]. }
    destruct (Ascii.eqb c "{") eqn:Ec.
    + apply Ascii.eqb_eq in Ec. subst c.
      destruct (until_close s) as [[|a nm]|] eqn:Eu.
      * apply Hlit; [apply tokens_literal; auto|].
        destruct (startswith (String "{" s) "{*}") eqn:Es; [|reflexivity].
        apply wildcard_at_start in Es. congruence.
      * destruct (tokens_placeholder s (String a nm) Eu ltac:(discriminate)) as (rest & Hs & Ht).
        rewrite Ht. cbn [contains] in Hc. apply orb_true_iff in Hc as [Hc|Hc].
        -- apply wildcard_at_start in Hc. rewrite Eu in Hc.
           assert (String a nm = "*") as Hstar by congruence.
           exists (String a nm). split; [now left | left; exact Hstar].
        -- rewrite Hs in Hc. apply wildcard_inside in Hc as [Hm|Hc].
           ++ exists (String a nm). split; [now left | right; exact Hm].
           ++ assert (len rest <= n) as Hr.
              { rewrite Hs, !len_app in Hlen. lia. }
              destruct (IH rest Hr Hc) as (name & Hin & Hbad).
              exists name. split; [now right | exact Hbad].
      * apply Hlit; [apply tokens_literal; auto|].
        destruct (startswith (String "{" s) "{*}") eqn:Es; [|reflexivity].
        apply wildcard_at_start in Es. congruence.
    + apply Hlit; [apply tokens_literal; auto|].
      cbn [startswith]. rewrite Ascii.eqb_sym, Ec. reflexivity.
Qed.

Lemma all_ident_excludes (c : ascii) (s : string) :
  ident_char c = false -> all_chars ident_char s = true -> mem c s = false.
Proof.
  intros Hc. induction s as [|a s IH]; intros H; [reflexivity|].
  simpl in H |- *. apply andb_true_iff in H as [Ha Hs].
  rewrite (IH Hs), orb_false_r.
  destruct (Ascii.eqb a c) eqn:E; [|reflexivity].
  apply Ascii.eqb_eq in E. subst a. congruence.
Qed.

Lemma isidentifier_excludes (c : ascii) (s : string) :
  ident_char c = false -> isidentifier s = true -> mem c s = false.
Proof.
  intros Hc. destruct s as [|a s]; [reflexivity|]. intros H. simpl in H.
  apply andb_true_iff in H as [Ha Hs]. apply (all_ident_excludes c _ Hc).
  simpl. rewrite Hs, andb_true_r. unfold ident_char. now rewrite Ha.
Qed.

Lemma matches_identifier_excludes (c : ascii) (s : string) :
  ident_char c = false -> Ascii.eqb "010" c = false ->
  matches_identifier s = true -> mem c s = false.
Proof.
  intros Hc Hnl. unfold matches_identifier. intros H. apply orb_true_iff in H as [H|H].
  - now apply isidentifier_excludes.
  - apply andb_true_iff in H as [He Hi].
    pose proof (isidentifier_excludes c _ Hc Hi) as Hm.
    pose proof (endswith_split _ _ He) as Hs.
    change (len (String "010" EmptyString)) with 1 in Hs.
    rewrite Hs, mem_app, Hm. cbn [mem orb]. now rewrite Hnl.
Qed.

Lemma valid_name_identifier (T name : string) :
  validate_path_pattern T = true ->
  endswith T "{*}" = false ->
  In name (extract_parameter_names T) ->
  matches_identifier name = true.
Proof.
  intros Hv He Hin. unfold validate_path_pattern in Hv.
  destruct (negb (nonempty T)); [discriminate|].
  destruct (negb (startswith T "/")); [discriminate|].
  destruct (negb (distinct (extract_parameter_names T))); [discriminate|].
  rewrite forallb_forall in Hv. specialize (Hv name Hin).
  unfold param_ok in Hv. rewrite He in Hv.
  destruct (negb (nonempty (strip name))); [discriminate|].
  destruct (String.eqb name "*") eqn:Estar; [discriminate | exact Hv].
Qed.

Lemma valid_names_plain (T : string) :
  validate_path_pattern T = true ->
  endswith T "{*}" = false ->
  Forall plain_name (extract_parameter_names T).
Proof.
  intros Hv He. rewrite List.Forall_forall. intros name Hin.
  apply (matches_identifier_excludes ">"); [reflexivity | reflexivity |].
  now apply (valid_name_identifier T).
Qed.

Lemma valid_template_wildcard (T : string) :
  validate_path_pattern T = true ->
  endswith T "{*}" = false ->
  contains "{*}" T = false.
Proof.
  intros Hv He. destruct (contains "{*}" T) eqn:Hc; [exfalso|reflexivity].
  destruct (wildcard_gives_bad_name (len T) T (le_n _) Hc) as (name & Hin & Hbad).
  pose proof (valid_name_identifier T name Hv He Hin) as Hid.
  destruct Hbad as [->|Hm]; [discriminate|].
  rewrite (matches_identifier_excludes "{" name eq_refl eq_refl Hid) in Hm.
  discriminate.
Qed.

(** *** The claim *)

(** C5 as stated fails from right to left: a value with a slash in it
    substitutes to a path that the template does not match. *)
Lemma round_trip_iff_fails :
  ~ (forall (T P : string) (params : dict string),
       validate_path_pattern T = true ->
       endswith T "{*}" = false ->
       (extract_parameters T P = Ok (Some params) <-> substitute T params = P)).
Proof.
  intros H.
  destruct (H "/users/{id}" "/users/a/b" [("id", "a/b")] eq_refl eq_refl) as [_ H2].
  specialize (H2 eq_refl). discriminate.
Qed.

(** C5, amended.  For a template that passes validation and does not end
    with the wildcard, and a path that does not end with a line feed: when
    the match returns parameters, substituting them into the template gives
    the path, and every value is a non-empty text without a slash.  The
    converse holds when every placeholder of the template is followed by a
    slash or ends it and the names are distinct identifiers: such values,
    one for each placeholder in order, substitute to a path on which the
    match returns them.  For a template that ends with the wildcard, the match returns
    parameters exactly for the paths that start with the text before the
    wildcard, and the parameters are the rest of the path under ["*"]. *)
Theorem match_round_trip_amended (T : string) :
  (forall P params,
     validate_path_pattern T = true ->
     endswith T "{*}" = false ->
     endswith P (String "010" EmptyString) = false ->
     extract_parameters T P = Ok (Some params) ->
     substitute T params = P /\ Forall (fun kv => segment_value kv.2) params) /\
  (forall params,
     contains "{*}" T = false ->
     forallb isidentifier (extract_parameter_names T) = true ->
     distinct (extract_parameter_names T) = true ->
     segment_shaped (tokens T) ->
     keys params = extract_parameter_names T ->
     Forall (fun kv => segment_value kv.2) params ->
     extract_parameters T (substitute T params) = Ok (Some params)) /\
  (forall P params,
     endswith T "{*}" = true ->
     (extract_parameters T P = Ok (Some params) <->
      exists captured,
        P = WildcardFacts.base_path T +:+ captured /\ params = [("*", captured)])).
Proof.
  split; [|split].
  - intros P params Hv He Hnl H.
    apply (match_round_trip T P params (valid_template_wildcard T Hv He) He
             (valid_names_plain T Hv He) H Hnl).
  - intros params Hw Hid Hd Hshape Hkeys Hvals.
    assert (He : endswith T "{*}" = false).
    { destruct (endswith T "{*}") eqn:E; [|reflexivity].
      rewrite (endswith_split _ _ E) in Hw.
      rewrite (contains_app_l "{*}" _ "{*}" eq_refl) in Hw. discriminate. }
    assert (Hplain : Forall plain_name (extract_parameter_names T)).
    { rewrite List.Forall_forall. intros name Hin.
      rewrite forallb_forall in Hid.
      apply (isidentifier_excludes ">"); [reflexivity | now apply Hid]. }
    unfold extract_parameters. rewrite He, (no_wildcard_regex T Hw).
    unfold re_compiles. rewrite (group_names_tokens _ Hplain).
    fold (extract_parameter_names T). rewrite Hid, Hd. cbn [andb].
    apply distinct_NoDup in Hd.
    unfold substitute.
    rewrite <- (List.app_nil_l params) at 1.
    rewrite (substitute_fill (tokens T) [] params Hkeys Hd) by (intros n _ []).
    now rewrite (re_match_complete (tokens T) Hplain Hshape params Hkeys Hvals).
  - intros P params He. apply WildcardFacts.wildcard_match_iff. exact He.
Qed.

Lemma segment_value_one : segment_value "42".
Proof. split; [discriminate | reflexivity]. Qed.

Lemma match_round_trip_amended_witness :
  (substitute "/users/{id}/posts" [("id", "42")] = "/users/42/posts" /\
   Forall (fun kv => segment_value kv.2) [("id", "42")]) /\
  extract_parameters "/users/{id}/posts" (substitute "/users/{id}/posts" [("id", "42")])
  = Ok (Some [("id", "42")]).
Proof.
  split.
  - apply (proj1 (match_round_trip_amended "/users/{id}/posts")
             "/users/42/posts" [("id", "42")]); reflexivity.
  - apply (proj1 (proj2 (match_round_trip_amended "/users/{id}/posts")) [("id", "42")]).
    + reflexivity.
    + reflexivity.
    + reflexivity.
    + simpl. tauto.
    + reflexivity.
    + constructor; [exact segment_value_one | constructor].
Defined.

(** A template without placeholders matches its own text followed by a line
    feed, since [$] matches before a final line feed. *)
Example literal_template_line_feed :
  extract_parameters "/hello" ("/hello" +:+ String "010" EmptyString) = Ok (Some []).
Proof. reflexivity. Qed.

End MatcherFacts.

(** * Further properties *)

(** ** The hub: connections come and go *)

Module HubLifecycle.

Import ConnectionManager HubFacts.

(** [disconnect] deletes a list that became empty, so the map holds no
    empty list. *)
Definition no_empty_list (m : manager) : Prop :=
  forall sid conns, service_connections m !! sid = Some conns -> conns <> [].

Lemma remove_first_absent (ws : WebSocket) (l : list WebSocket) :
  ~ In ws l -> remove_first ws l = l.
Proof.
  induction l as [|y l IH]; intros Hnot; [reflexivity|].
  simpl. destruct (Nat.eqb ws y) eqn:E.
  - apply Nat.eqb_eq in E. subst y. exfalso. apply Hnot. now left.
  - f_equal. apply IH. intros Hin. apply Hnot. now right.
Qed.

Lemma remove_first_last (ws : WebSocket) (l : list WebSocket) :
  ~ In ws l -> remove_first ws (l ++ [ws]) = l.
Proof.
  induction l as [|y l IH]; intros Hnot; simpl.
  - now rewrite Nat.eqb_refl.
  - destruct (Nat.eqb ws y) eqn:E.
    + apply Nat.eqb_eq in E. subst y. exfalso. apply Hnot. now left.
    + f_equal. apply IH. intros Hin. apply Hnot. now right.
Qed.

Lemma remove_first_incl (ws x : WebSocket) (l : list WebSocket) :
  In x (remove_first ws l) -> In x l.
Proof.
  induction l as [|y l IH]; [intros []|].
  simpl. destruct (Nat.eqb ws y); [now right|].
  intros [->|H]; [now left | right; now apply IH].
Qed.

Lemma fresh_no_frames (m : manager) (ws : WebSocket) (record_id : option Z)
    (message : string) :
  fresh m ws -> frames_to ws (broadcast_log_message m record_id message) = 0.
Proof.
  intros [Ha Hs]. unfold broadcast_log_message, broadcast_to_all, broadcast_to_service.
  rewrite frames_to_app, (frames_to_absent ws message _ Ha).
  destruct (given record_id) as [sid|]; [|reflexivity].
  destruct (service_connections m !! sid) as [conns|] eqn:E; [|reflexivity].
  now rewrite (frames_to_absent ws message conns (Hs sid conns E)).
Qed.

Lemma connect_disconnect (m : manager) (ws : WebSocket) (service_id : option Z) :
  no_empty_list m -> fresh m ws ->
  disconnect (connect m ws service_id) ws service_id = m.
Proof.
  intros Hwf [Ha Hs]. destruct m as [active services].
  unfold connect, disconnect. simpl in *.
  destruct (given service_id) as [sid|] eqn:Hg; simpl; rewrite ?Hg;
    rewrite (remove_first_last ws active Ha); [|reflexivity].
  rewrite lookup_insert_eq.
  destruct (services !! sid) as [conns|] eqn:E; simpl.
  - rewrite (remove_first_last ws conns (Hs sid conns E)).
    destruct conns as [|c conns]; [now destruct (Hwf sid [] E)|].
    f_equal. rewrite insert_insert_eq. now apply insert_id.
  - rewrite Nat.eqb_refl. f_equal. now apply delete_insert_id.
Qed.

(** A connection that comes and goes leaves the hub as it was, and is sent
    nothing afterwards. *)
Theorem connect_then_disconnect_restores (m : manager) (ws : WebSocket)
    (service_id record_id : option Z) (message : string) :
  no_empty_list m -> fresh m ws ->
  disconnect (connect m ws service_id) ws service_id = m /\
  frames_to ws
    (broadcast_log_message (disconnect (connect m ws service_id) ws service_id)
       record_id message) = 0.
Proof.
  intros Hwf Hfresh. rewrite (connect_disconnect m ws service_id Hwf Hfresh).
  split; [reflexivity | now apply fresh_no_frames].
Qed.

Lemma no_empty_list_empty : no_empty_list empty.
Proof. intros sid conns H. simpl in H. rewrite lookup_empty in H. discriminate. Qed.

Lemma fresh_empty (ws : WebSocket) : fresh empty ws.
Proof.
  split; [intros [] |]. intros sid conns H. simpl in H.
  rewrite lookup_empty in H. discriminate.
Qed.

Lemma connect_then_disconnect_restores_witness :
  disconnect (connect empty 5 (Some 7%Z)) 5 (Some 7%Z) = empty /\
  frames_to 5
    (broadcast_log_message (disconnect (connect empty 5 (Some 7%Z)) 5 (Some 7%Z))
       (Some 7%Z) "frame") = 0.
Proof.
  apply (connect_then_disconnect_restores empty 5 (Some 7%Z) (Some 7%Z) "frame").
  - exact no_empty_list_empty.
  - exact (fresh_empty 5).
Defined.

(** The map never holds an empty list: [connect] and [disconnect] keep it
    so, whatever their arguments. *)
Theorem no_empty_list_preserved (m : manager) (ws : WebSocket) (service_id : option Z) :
  no_empty_list m ->
  no_empty_list (connect m ws service_id) /\ no_empty_list (disconnect m ws service_id).
Proof.
  intros Hwf. split.
  - unfold connect. destruct (given service_id) as [sid|]; [|exact Hwf].
    intros k conns. simpl. rewrite lookup_insert.
    destruct (decide (sid = k)) as [->|Hne].
    + intros [= <-]. now destruct (default [] (service_connections m !! k)).
    + apply Hwf.
  - unfold disconnect. destruct (given service_id) as [sid|]; [|exact Hwf].
    destruct (service_connections m !! sid) as [old|] eqn:E; [|exact Hwf].
    destruct (remove_first ws old) as [|c remaining] eqn:R; intros k conns; simpl.
    + rewrite lookup_delete. destruct (decide (sid = k)); [discriminate | apply Hwf].
    + rewrite lookup_insert. destruct (decide (sid = k)); [|apply Hwf].
      intros [= <-]. discriminate.
Qed.

Lemma no_empty_list_preserved_witness :
  no_empty_list (connect empty 5 (Some 7%Z)) /\
  no_empty_list (disconnect empty 5 (Some 7%Z)).
Proof. apply (no_empty_list_preserved empty 5 (Some 7%Z)). exact no_empty_list_empty. Defined.

Lemma frames_to_other (ws other : WebSocket) (message : string) (l : list WebSocket) :
  other <> ws ->
  frames_to other (map (fun c => (c, message)) (l ++ [ws]))
  = frames_to other (map (fun c => (c, message)) l).
Proof.
  intros Hne. rewrite map_app, frames_to_app. unfold frames_to at 2. simpl.
  destruct (Nat.eqb ws other) eqn:E; [|simpl; lia].
  apply Nat.eqb_eq in E. congruence.
Qed.

(** A new connection changes nothing for the others: each of them is sent
    the frames it was sent before, for every record. *)
Theorem connect_leaves_others (m : manager) (ws other : WebSocket)
    (service_id record_id : option Z) (message : string) :
  other <> ws ->
  frames_to other (broadcast_log_message (connect m ws service_id) record_id message)
  = frames_to other (broadcast_log_message m record_id message).
Proof.
  intros Hne. unfold broadcast_log_message, broadcast_to_all, broadcast_to_service, connect.
  destruct (given service_id) as [sid|]; simpl; rewrite !frames_to_app;
    rewrite (frames_to_other ws other message _ Hne); [|reflexivity].
  f_equal. destruct (given record_id) as [rid|]; [|reflexivity].
  rewrite lookup_insert. destruct (decide (sid = rid)) as [->|Hsr]; [|reflexivity].
  rewrite (frames_to_other ws other message _ Hne).
  now destruct (service_connections m !! rid).
Qed.

Lemma connect_leaves_others_witness :
  frames_to 0 (broadcast_log_message (connect (connect empty 0 None) 1 (Some 7%Z))
                 (Some 7%Z) "frame")
  = frames_to 0 (broadcast_log_message (connect empty 0 None) (Some 7%Z) "frame").
Proof.
  apply (connect_leaves_others (connect empty 0 None) 1 0 (Some 7%Z) (Some 7%Z) "frame").
  discriminate.
Defined.

(** A connection without a service filter -- also one asked for service 0,
    which Python takes for no filter -- is sent exactly one frame for every
    record, whatever service the record is of. *)
Theorem global_subscriber_one_frame (m : manager) (ws : WebSocket)
    (record_id : option Z) (message : string) :
  fresh m ws ->
  frames_to ws (broadcast_log_message (connect m ws None) record_id message) = 1 /\
  frames_to ws (broadcast_log_message (connect m ws (Some 0%Z)) record_id message) = 1.
Proof.
  intros [Ha Hs].
  assert (H : frames_to ws (broadcast_log_message (connect m ws None) record_id message) = 1).
  { unfold broadcast_log_message, broadcast_to_all, broadcast_to_service, connect. simpl.
    rewrite frames_to_app, (frames_to_map_app ws message _ Ha).
    destruct (given record_id) as [rid|]; [|reflexivity].
    destruct (service_connections m !! rid) as [conns|] eqn:E; [|reflexivity].
    now rewrite (frames_to_absent ws message conns (Hs rid conns E)). }
  split; exact H.
Qed.

Lemma global_subscriber_one_frame_witness :
  frames_to 3 (broadcast_log_message (connect empty 3 None) (Some 8%Z) "frame") = 1 /\
  frames_to 3 (broadcast_log_message (connect empty 3 (Some 0%Z)) (Some 8%Z) "frame") = 1.
Proof. apply (global_subscriber_one_frame empty 3 (Some 8%Z) "frame"). exact (fresh_empty 3). Defined.

End HubLifecycle.

(** ** The router: what is returned, and when *)

Module RouterMore.

Import Py PyFacts Models MockServiceService RouterFacts.

(** *** Letter case *)

Lemma upper_lower_char (c : ascii) : upper_char (lower_char c) = upper_char c.
Proof. destruct c as [[] [] [] [] [] [] [] []]; reflexivity. Qed.

Lemma lower_upper_char (c : ascii) : lower_char (upper_char c) = lower_char c.
Proof. destruct c as [[] [] [] [] [] [] [] []]; reflexivity. Qed.

Lemma lower_lower_char (c : ascii) : lower_char (lower_char c) = lower_char c.
Proof. destruct c as [[] [] [] [] [] [] [] []]; reflexivity. Qed.

Lemma upper_lower (s : string) : upper (lower s) = upper s.
Proof. induction s as [|c s IH]; simpl; [reflexivity | now rewrite upper_lower_char, IH]. Qed.

Lemma lower_upper (s : string) : lower (upper s) = lower s.
Proof. induction s as [|c s IH]; simpl; [reflexivity | now rewrite lower_upper_char, IH]. Qed.

Lemma lower_lower (s : string) : lower (lower s) = lower s.
Proof. induction s as [|c s IH]; simpl; [reflexivity | now rewrite lower_lower_char, IH]. Qed.

Lemma method_allowed_lower (method : string) (service : MockService) :
  method_allowed (lower method) service = method_allowed method service.
Proof. unfold method_allowed. now rewrite upper_lower. Qed.

Section WithBodyParser.

Variable extract_soap_method_from_body : string -> option string.

Lemma find_loop_method_case (path method : string) (body : option string)
    (headers : option (dict string)) (services : list MockService) :
  forall fallback,
    find_loop extract_soap_method_from_body path (lower method) body headers fallback services
    = find_loop extract_soap_method_from_body path method body headers fallback services.
Proof.
  induction services as [|service rest IH]; intros fallback; [reflexivity|].
  cbn [find_loop]. rewrite method_allowed_lower, !IH.
  destruct (negb (method_allowed method service)); [reflexivity|].
  destruct (PathParser.extract_parameters (Models.path service) path) as [[path_params|]|e];
    try reflexivity.
  destruct (service_type service), (headers_given headers) as [hs|]; try reflexivity.
  destruct (SOAPParser.truthy _); [|apply IH].
  reflexivity.
Qed.

(** The letter case of the request method does not matter to the router:
    [get] is routed as [GET] is. *)
Theorem routing_ignores_method_case (services : list MockService)
    (path method : string) (body : option string) (headers : option (dict string)) :
  find_mock_service_by_path_and_method extract_soap_method_from_body
    services path (lower method) body headers
  = find_mock_service_by_path_and_method extract_soap_method_from_body
      services path method body headers.
Proof. unfold find_mock_service_by_path_and_method. apply find_loop_method_case. Qed.

(** *** What the router returns is a match *)

(** [service] allows the method and its template matches the path with
    [path_params]. *)
Definition matches_request (path method : string) (c : MockService * dict string) : Prop :=
  method_allowed method c.1 = true /\
  PathParser.extract_parameters (Models.path c.1) path = Ok (Some c.2).

Lemma find_loop_sound (path method : string) (body : option string)
    (headers : option (dict string)) (services : list MockService) :
  forall fallback found,
    (forall c, fallback = Some c -> In c.1 services /\ matches_request path method c) ->
    forall rest,
      (forall s, In s rest -> In s services) ->
      find_loop extract_soap_method_from_body path method body headers fallback rest
      = Ok (Some found) ->
      In found.1 services /\ matches_request path method found.
Proof.
  intros fallback found Hfb rest. revert fallback Hfb.
  induction rest as [|service rest IH]; intros fallback Hfb Hin H.
  - apply Hfb. simpl in H. congruence.
  - assert (Hin' : forall s, In s rest -> In s services).
    { intros s Hs. apply Hin. now right. }
    cbn [find_loop] in H.
    destruct (method_allowed method service) eqn:Hm; simpl negb in H; cbv iota in H;
      [|now apply (IH fallback)].
    destruct (PathParser.extract_parameters (Models.path service) path)
      as [[path_params|]|e] eqn:Ep; [| now apply (IH fallback) | discriminate].
    assert (Hc : In service services /\ matches_request path method (service, path_params)).
    { split; [apply Hin; now left | split; assumption]. }
    destruct (service_type service).
    + injection H as <-. exact Hc.
    + destruct (headers_given headers) as [hs|]; [|now apply (IH fallback)].
      destruct (SOAPParser.truthy _) as [soap_method|].
      * destruct (_matches_soap_service (name service) soap_method);
          [injection H as <-; exact Hc | now apply (IH fallback)].
      * apply (IH (Some (service, path_params))); [|exact Hin' | exact H].
        intros c [= <-]. exact Hc.
Qed.

(** Whatever the router returns is an active service of the table that
    allows the method of the request and whose template matches the path;
    the parameters returned are those of this match. *)
Theorem routed_service_matches (services : list MockService)
    (path method : string) (body : option string) (headers : option (dict string))
    (service : MockService) (path_params : dict string) :
  find_mock_service_by_path_and_method extract_soap_method_from_body
    services path method body headers = Ok (Some (service, path_params)) ->
  In service services /\ is_active service = true /\
  method_allowed method service = true /\
  PathParser.extract_parameters (Models.path service) path = Ok (Some path_params).
Proof.
  intros H. unfold find_mock_service_by_path_and_method in H.
  destruct (find_loop_sound path method body headers
              (filter (fun s => is_active s = true) services)
              None (service, path_params) ltac:(discriminate) _ (fun s Hs => Hs) H)
    as [Hin [Hm Hp]].
  apply list_elem_of_In, list_elem_of_filter in Hin as [Hact Hin].
  apply list_elem_of_In in Hin. repeat split; assumption.
Qed.

(** *** Misses *)

Lemma find_loop_no_candidate (path method : string) (body : option string)
    (headers : option (dict string)) (services : list MockService) :
  forall fallback,
    never_raises path services ->
    candidates path method services = [] ->
    find_loop extract_soap_method_from_body path method body headers fallback services
    = Ok fallback.
Proof.
  induction services as [|service rest IH]; intros fallback Hraise Hnone; [reflexivity|].
  assert (Hraise' : never_raises path rest).
  { intros s e Hin. apply Hraise. now right. }
  assert (Hcons : candidates path method (service :: rest)
                  = match candidate path method service with
                    | Some c => c :: candidates path method rest
                    | None => candidates path method rest
                    end) by reflexivity.
  rewrite Hcons in Hnone. unfold candidate in Hnone. cbn [find_loop].
  destruct (method_allowed method service); simpl negb; cbv iota; [|now apply IH].
  destruct (PathParser.extract_parameters (Models.path service) path)
    as [[path_params|]|e] eqn:Ep; [discriminate | now apply IH |].
  exfalso. apply (Hraise service e); [now left | exact Ep].
Qed.

Lemma find_loop_rest_candidate (path method : string) (body : option string)
    (headers : option (dict string)) (services : list MockService) :
  forall fallback,
    never_raises path services ->
    (exists c, In c (candidates path method services) /\ service_type c.1 = REST) ->
    exists found,
      find_loop extract_soap_method_from_body path method body headers fallback services
      = Ok (Some found).
Proof.
  induction services as [|service rest IH]; intros fallback Hraise (c & Hin & Hrest);
    [destruct Hin|].
  assert (Hraise' : never_raises path rest).
  { intros s e Hs. apply Hraise. now right. }
  assert (Hcons : candidates path method (service :: rest)
                  = match candidate path method service with
                    | Some c => c :: candidates path method rest
                    | None => candidates path method rest
                    end) by reflexivity.
  rewrite Hcons in Hin. unfold candidate in Hin. cbn [find_loop].
  destruct (method_allowed method service); simpl negb; cbv iota;
    [|apply IH; [exact Hraise' | now exists c]].
  destruct (PathParser.extract_parameters (Models.path service) path)
    as [[path_params|]|e] eqn:Ep.
  - destruct (service_type service) eqn:Hs; [now eexists|].
    assert (Hlater : exists c, In c (candidates path method rest) /\ service_type c.1 = REST).
    { destruct Hin as [<-|Hin]; [simpl in Hrest; congruence | now exists c]. }
    destruct (headers_given headers) as [hs|]; [|now apply IH].
    destruct (SOAPParser.truthy _) as [soap_method|]; [|now apply IH].
    destruct (_matches_soap_service (name service) soap_method); [now eexists | now apply IH].
  - apply IH; [exact Hraise' | now exists c].
  - exfalso. apply (Hraise service e); [now left | exact Ep].
Qed.

(** When no template fails to compile: the router misses if no active
    service both allows the method and matches the path; and it does not
    miss if one of those that do is a REST service. *)
Theorem miss_and_rest_match (services : list MockService)
    (path method : string) (body : option string) (headers : option (dict string)) :
  let active := filter (fun s => is_active s = true) services in
  let found :=
    find_mock_service_by_path_and_method extract_soap_method_from_body
      services path method body headers in
  never_raises path active ->
  (candidates path method active = [] -> found = Ok None) /\
  ((exists c, In c (candidates path method active) /\ service_type c.1 = REST) ->
   exists c, found = Ok (Some c)).
Proof.
  intros active found Hraise. subst found. unfold find_mock_service_by_path_and_method.
  fold active. split.
  - intros Hnone. now apply find_loop_no_candidate.
  - intros Hrest. now apply find_loop_rest_candidate.
Qed.

Lemma find_loop_all_rest (path method : string) (body : option string)
    (headers : option (dict string)) (services : list MockService) :
  forall fallback,
    never_raises path services ->
    (forall c, In c (candidates path method services) -> service_type c.1 = REST) ->
    find_loop extract_soap_method_from_body path method body headers fallback services
    = Ok (match head (candidates path method services) with
          | Some c => Some c
          | None => fallback
          end).
Proof.
  induction services as [|service rest IH]; intros fallback Hraise Hrest; [reflexivity|].
  assert (Hraise' : never_raises path rest).
  { intros s e Hs. apply Hraise. now right. }
  assert (Hcons : candidates path method (service :: rest)
                  = match candidate path method service with
                    | Some c => c :: candidates path method rest
                    | None => candidates path method rest
                    end) by reflexivity.
  rewrite Hcons in *. unfold candidate in *. cbn [find_loop].
  destruct (method_allowed method service); simpl negb; cbv iota; [|now apply IH].
  destruct (PathParser.extract_parameters (Models.path service) path)
    as [[path_params|]|e] eqn:Ep.
  - assert (Hs : service_type service = REST).
    { apply (Hrest (service, path_params)). now left. }
    now rewrite Hs.
  - now apply IH.
  - exfalso. apply (Hraise service e); [now left | exact Ep].
Qed.

(** Among REST services the order of the table decides: when every active
    service that allows the method and matches the path is a REST service,
    the first of them is returned, whatever the headers and the body. *)
Theorem first_rest_service_wins (services : list MockService)
    (path method : string) (body : option string) (headers : option (dict string)) :
  let active := filter (fun s => is_active s = true) services in
  never_raises path active ->
  (forall c, In c (candidates path method active) -> service_type c.1 = REST) ->
  find_mock_service_by_path_and_method extract_soap_method_from_body
    services path method body headers
  = Ok (head (candidates path method active)).
Proof.
  intros active Hraise Hrest. unfold find_mock_service_by_path_and_method. fold active.
  rewrite (find_loop_all_rest _ _ _ _ _ None Hraise Hrest).
  now destruct (head (candidates path method active)).
Qed.

End WithBodyParser.

(** Two REST services on overlapping templates, and one that is switched off *)
Definition rest_service (n : Z) (template : string) (on : bool) : MockService :=
  {| id := n; name := "rest"; path := template; methods := ["GET"; "post"];
     strategy := STATIC; service_type := REST; proxy_url := None;
     static_response := Some template; static_status_code := 200;
     static_headers := None; condition_code := None; conditional_responses := None;
     conditional_status_code := 200; conditional_headers := None; is_active := on |}.

Definition users : list MockService :=
  [rest_service 1 "/users/{id}" false;
   rest_service 2 "/users/{id}" true;
   rest_service 3 "/users/{*}" true].

Lemma users_never_raise :
  never_raises "/users/42" (filter (fun s => is_active s = true) users).
Proof. intros service e [<-|[<-|[]]]; discriminate. Qed.

Lemma routed_service_matches_witness :
  In (rest_service 2 "/users/{id}" true) users /\
  is_active (rest_service 2 "/users/{id}" true) = true /\
  method_allowed "get" (rest_service 2 "/users/{id}" true) = true /\
  PathParser.extract_parameters "/users/{id}" "/users/42" = Ok (Some [("id", "42")]).
Proof.
  apply (routed_service_matches (fun _ => None) users "/users/42" "get" None None
           (rest_service 2 "/users/{id}" true) [("id", "42")]).
  reflexivity.
Defined.

Lemma miss_and_rest_match_witness :
  find_mock_service_by_path_and_method (fun _ => None) users "/orders" "GET" None None
  = Ok None /\
  exists c,
    find_mock_service_by_path_and_method (fun _ => None) users "/users/42" "GET" None None
    = Ok (Some c).
Proof.
  split.
  - apply (proj1 (miss_and_rest_match (fun _ => None) users "/orders" "GET" None None
                    ltac:(intros service e [<-|[<-|[]]]; discriminate))).
    reflexivity.
  - apply (proj2 (miss_and_rest_match (fun _ => None) users "/users/42" "GET" None None
                    users_never_raise)).
    exists (rest_service 2 "/users/{id}" true, [("id", "42")]).
    split; [now left | reflexivity].
Defined.

Lemma first_rest_service_wins_witness :
  find_mock_service_by_path_and_method (fun _ => None) users "/users/42" "GET" None None
  = Ok (Some (rest_service 2 "/users/{id}" true, [("id", "42")])).
Proof.
  apply (first_rest_service_wins (fun _ => None) users "/users/42" "GET" None None
           users_never_raise).
  intros c [<-|[<-|[]]]; reflexivity.
Defined.

End RouterMore.

(** ** The router: names of SOAP services and methods *)

Module NameMatching.

Import Py PyFacts MockServiceService.

Lemma startswith_contains (s x : string) : startswith s x = true -> contains x s = true.
Proof. apply contains_startswith. Qed.

Lemma endswith_contains (s x : string) : endswith s x = true -> contains x s = true.
Proof.
  intros H. rewrite (endswith_split s x H).
  apply contains_app_l, contains_startswith.
  rewrite <- (app_empty_r x) at 1. apply startswith_app.
Qed.

Lemma contains_right_part (a b s : string) :
  contains (a +:+ b) s = true -> contains b s = true.
Proof.
  intros (l & r & ->)%contains_iff. apply contains_iff.
  exists (l +:+ a), r. now rewrite !app_assoc.
Qed.

Lemma contains_left_part (a b s : string) :
  contains (a +:+ b) s = true -> contains a s = true.
Proof.
  intros (l & r & ->)%contains_iff. apply contains_iff.
  exists l, (b +:+ r). now rewrite !app_assoc.
Qed.

Lemma contains_self (s : string) : contains s s = true.
Proof.
  apply contains_startswith. rewrite <- (app_empty_r s) at 1. apply startswith_app.
Qed.

(** Two names share a part of three characters or more, the parts being
    what stands between dots, underscores and hyphens. *)
Definition share_part (a b : string) : bool :=
  existsb (fun x =>
    long_part x &&
    existsb (fun y =>
      long_part y && (String.eqb x y || contains x y || contains y x))
      (split_by name_separator b))
    (split_by name_separator a).

Lemma share_part_sym (a b : string) : share_part a b = share_part b a.
Proof.
  unfold share_part. apply eq_true_iff_eq. rewrite !existsb_exists.
  split; intros (x & Hx & H); apply andb_true_iff in H as [Hlx H];
    apply existsb_exists in H as (y & Hy & H); apply andb_true_iff in H as [Hly H];
    exists y; (split; [exact Hy|]); rewrite Hly; simpl;
    apply existsb_exists; exists x; (split; [exact Hx|]); rewrite Hlx; simpl;
    rewrite String.eqb_sym, <- orb_assoc, (orb_comm (contains y x)), orb_assoc; exact H.
Qed.

Lemma matches_soap_service_eq (service_name soap_method : string) :
  _matches_soap_service service_name soap_method =
  nonempty service_name && nonempty soap_method &&
  (let a := strip (lower service_name) in
   let b := strip (lower soap_method) in
   contains b a || contains a b || share_part a b).
Proof.
  unfold _matches_soap_service.
  destruct (nonempty service_name); [|reflexivity].
  destruct (nonempty soap_method); [|reflexivity].
  cbn [negb orb andb]. cbv zeta.
  set (a := strip (lower service_name)). set (b := strip (lower soap_method)).
  fold (share_part a b).
  destruct (contains b a) eqn:D; [reflexivity|].
  assert (Hno : forall x, contains x a = true -> contains b x = true -> False).
  { intros x (l & r & Ha)%contains_iff (l' & r' & ->)%contains_iff.
    assert (contains b a = true); [|congruence].
    apply contains_iff. exists (l +:+ l'), (r' +:+ r). rewrite Ha, !app_assoc. reflexivity. }
  destruct (endswith a ("_" +:+ b)) eqn:E1.
  { exfalso. apply (Hno ("_" +:+ b)); [now apply endswith_contains|].
    apply contains_app_l, contains_self. }
  destruct (startswith a (b +:+ "_")) eqn:E2.
  { exfalso. apply (Hno (b +:+ "_")); [now apply startswith_contains|].
    apply contains_app_r, contains_self. }
  destruct (endswith a ("." +:+ b)) eqn:E3.
  { exfalso. apply (Hno ("." +:+ b)); [now apply endswith_contains|].
    apply contains_app_l, contains_self. }
  destruct (startswith a (b +:+ ".")) eqn:E4.
  { exfalso. apply (Hno (b +:+ ".")); [now apply startswith_contains|].
    apply contains_app_r, contains_self. }
  destruct (endswith a b) eqn:E5.
  { exfalso. apply (Hno b); [now apply endswith_contains | apply contains_self]. }
  destruct (startswith a b) eqn:E6.
  { exfalso. apply (Hno b); [now apply startswith_contains | apply contains_self]. }
  reflexivity.
Qed.

(** Of the rules of [_matches_soap_service] three decide: one name inside
    the other, either way, or a shared part of three characters or more;
    the rules on prefixes and suffixes add nothing to them. *)
Theorem name_matching_three_rules (service_name soap_method : string) :
  _matches_soap_service service_name soap_method = true <->
  service_name <> EmptyString /\ soap_method <> EmptyString /\
  let a := strip (lower service_name) in
  let b := strip (lower soap_method) in
  (contains b a = true \/ contains a b = true \/ share_part a b = true).
Proof.
  rewrite matches_soap_service_eq. cbv zeta.
  rewrite !andb_true_iff, !orb_true_iff.
  assert (Hn : forall s, nonempty s = true <-> s <> EmptyString).
  { intros [|c s]; simpl; split; congruence. }
  rewrite !Hn. tauto.
Qed.

(** Name matching is symmetric: a method matches a service name exactly
    when the name, taken as a method, matches the method taken as a name. *)
Theorem name_matching_symmetric (service_name soap_method : string) :
  _matches_soap_service service_name soap_method
  = _matches_soap_service soap_method service_name.
Proof.
  rewrite !matches_soap_service_eq. cbv zeta.
  rewrite (share_part_sym (strip (lower soap_method))).
  rewrite (andb_comm (nonempty soap_method)).
  f_equal. f_equal. apply orb_comm.
Qed.

(** Names that differ in letter case only match each other. *)
Theorem name_matching_ignores_case (service_name soap_method : string) :
  service_name <> EmptyString ->
  lower service_name = lower soap_method ->
  _matches_soap_service service_name soap_method = true.
Proof.
  intros Hne Heq. rewrite matches_soap_service_eq. cbv zeta.
  rewrite Heq, contains_self.
  assert (soap_method <> EmptyString).
  { intros ->. destruct service_name; [contradiction | discriminate]. }
  destruct service_name; [contradiction|]. destruct soap_method; [contradiction|].
  reflexivity.
Qed.

Lemma name_matching_ignores_case_witness :
  _matches_soap_service "GetUserInfo" "getuserinfo" = true.
Proof. apply name_matching_ignores_case; [discriminate | reflexivity]. Defined.

End NameMatching.

(** ** The processor: headers, upstream requests, parameters *)

Module ProcessorMore.

Import Py PyFacts Models MockProcessor.

(** *** Dictionaries *)

Lemma get_set_same {V} (d : dict V) (k : string) (v : V) : get (Py.set d k v) k = Some v.
Proof.
  induction d as [|[k' v'] d IH]; simpl.
  - now rewrite String.eqb_refl.
  - destruct (String.eqb k' k) eqn:E; simpl; rewrite E; [reflexivity | exact IH].
Qed.

Lemma get_set_other {V} (d : dict V) (k k' : string) (v : V) :
  k <> k' -> get (Py.set d k v) k' = get d k'.
Proof.
  intros Hne. induction d as [|[k0 v0] d IH]; simpl.
  - apply String.eqb_neq in Hne. now rewrite Hne.
  - destruct (String.eqb k0 k) eqn:E; simpl.
    + apply String.eqb_eq in E. subst k0. apply String.eqb_neq in Hne. now rewrite Hne.
    + destruct (String.eqb k0 k'); [reflexivity | exact IH].
Qed.

Lemma keys_set {V} (d : dict V) (k : string) (v : V) :
  keys (Py.set d k v) = if existsb (String.eqb k) (keys d) then keys d else keys d ++ [k].
Proof.
  unfold keys. induction d as [|[k' v'] d IH]; simpl; [reflexivity|].
  rewrite (String.eqb_sym k k'). destruct (String.eqb k' k) eqn:E; simpl; [reflexivity|].
  rewrite IH. now destruct (existsb (String.eqb k) (map fst d)).
Qed.

Lemma set_keeps_keys_distinct {V} (d : dict V) (k : string) (v : V) :
  NoDup (keys d) -> NoDup (keys (Py.set d k v)).
Proof.
  intros Hnd. rewrite keys_set.
  destruct (existsb (String.eqb k) (keys d)) eqn:E; [exact Hnd|].
  apply NoDup_app. split; [exact Hnd|]. split; [|apply NoDup_singleton].
  intros x Hx Hk. apply list_elem_of_In in Hx. apply list_elem_of_In in Hk.
  destruct Hk as [<-|[]].
  assert (existsb (String.eqb k) (keys d) = true); [|congruence].
  apply existsb_exists. exists k. split; [exact Hx | apply String.eqb_refl].
Qed.

(** *** The headers that pass *)

Lemma copy_headers_fold_get (excluded : list string) (items : list (string * string))
    (k : string) :
  existsb (String.eqb (lower k)) excluded = false ->
  forall kept all : dict string,
    get kept k = get all k ->
    get (fold_left
           (fun d kv => if existsb (String.eqb (lower kv.1)) excluded then d
                        else Py.set d kv.1 kv.2) items kept) k
    = get (fold_left (fun d kv => Py.set d kv.1 kv.2) items all) k.
Proof.
  intros Hk. induction items as [|[k0 v0] items IH]; intros kept all Hget; [exact Hget|].
  simpl. apply IH.
  destruct (String.eqb_spec k0 k) as [->|Hne].
  - rewrite Hk. now rewrite !get_set_same.
  - rewrite (get_set_other all k0 k v0 Hne).
    destruct (existsb (String.eqb (lower k0)) excluded); [exact Hget|].
    now rewrite (get_set_other kept k0 k v0 Hne).
Qed.

Lemma copy_headers_fold_distinct (excluded : list string) (items : list (string * string)) :
  forall acc : dict string,
    NoDup (keys acc) ->
    NoDup (keys (fold_left
                   (fun d kv => if existsb (String.eqb (lower kv.1)) excluded then d
                                else Py.set d kv.1 kv.2) items acc)).
Proof.
  induction items as [|[k0 v0] items IH]; intros acc Hnd; [exact Hnd|].
  simpl. apply IH. destruct (existsb _ excluded); [exact Hnd|].
  now apply set_keeps_keys_distinct.
Qed.

(** The copy of the headers loses nothing else: a header whose name is not
    excluded comes out with the value [dict(items)] has for it, and every
    name comes out once.  This holds for the request headers sent upstream
    and for the response headers returned, on both proxy paths. *)
Theorem other_headers_pass_unchanged (excluded : list string)
    (items : list (string * string)) :
  (forall k, existsb (String.eqb (lower k)) excluded = false ->
     get (copy_headers_except excluded items) k = get (dict_of_items items) k) /\
  NoDup (keys (copy_headers_except excluded items)).
Proof.
  split.
  - intros k Hk. unfold copy_headers_except, dict_of_items.
    now apply copy_headers_fold_get.
  - unfold copy_headers_except. apply copy_headers_fold_distinct. constructor.
Qed.

Lemma other_headers_pass_unchanged_witness :
  get (copy_headers_except excluded_headers
         [("accept", "a"); ("Host", "mock"); ("accept", "b")]) "accept"
  = get (dict_of_items [("accept", "a"); ("Host", "mock"); ("accept", "b")]) "accept".
Proof.
  apply (proj1 (other_headers_pass_unchanged excluded_headers
                  [("accept", "a"); ("Host", "mock"); ("accept", "b")])).
  reflexivity.
Defined.

(** *** The additional path *)

Lemma rstrip_no_trailing (p : ascii -> bool) (s x : string) (c : ascii) :
  p c = true -> rstrip_by p s <> x +:+ String c EmptyString.
Proof.
  intros Hc. revert x. induction s as [|a s IH]; intros x; simpl.
  - destruct x; discriminate.
  - destruct (rstrip_by p s) as [|b r] eqn:R.
    + destruct (p a) eqn:Ha.
      * destruct x; discriminate.
      * destruct x as [|y [|z x]]; try discriminate.
        intros [= ->]. congruence.
    + destruct x as [|y x]; [discriminate|].
      rewrite app_cons. intros [= _ H]. now apply (IH x).
Qed.

Lemma rstrip_char_no_slash (s : string) : endswith (rstrip_char "/" s) "/" = false.
Proof.
  destruct (endswith (rstrip_char "/" s) "/") eqn:E; [exfalso|reflexivity].
  apply endswith_split in E.
  now apply (rstrip_no_trailing (Ascii.eqb "/") s _ "/"%char eq_refl) in E.
Qed.

Lemma endswith_cons_false (c d : ascii) (s : string) :
  s <> EmptyString ->
  endswith s (String d EmptyString) = false ->
  endswith (String c s) (String d EmptyString) = false.
Proof.
  intros Hne H.
  destruct (endswith (String c s) (String d EmptyString)) eqn:E; [exfalso|reflexivity].
  apply endswith_split in E. remember (take _ _) as l eqn:Hl. clear Hl.
  destruct l as [|a l].
  - rewrite app_nil_l in E. injection E as _ ->. contradiction.
  - rewrite app_cons in E. injection E as _ ->. now rewrite endswith_app in H.
Qed.

Lemma endswith_drop_false (n : nat) (s x : string) :
  x <> EmptyString -> endswith s x = false -> endswith (drop n s) x = false.
Proof.
  intros Hx. revert s. induction n as [|n IH]; intros s H; [now destruct s|].
  destruct s as [|c s]; [exact H|]. simpl. apply IH.
  destruct (endswith s x) eqn:E; [|reflexivity].
  apply endswith_split in E. rewrite E in H.
  rewrite <- app_cons, endswith_app in H. discriminate.
Qed.

Lemma rstrip_keeps_first (p : ascii -> bool) (c : ascii) (s : string) :
  rstrip_by p (String c s) = EmptyString \/
  exists r, rstrip_by p (String c s) = String c r.
Proof.
  simpl. destruct (rstrip_by p s) as [|b r].
  - destruct (p c); [now left | right; now exists EmptyString].
  - right. now eexists.
Qed.

(** What [_extract_additional_path] adds to the URL never ends with a
    slash; and for a request path that starts with a slash it is empty or
    starts with a slash. *)
Theorem additional_path_shape (mock_path request_path : string) :
  endswith (_extract_additional_path mock_path request_path) "/" = false /\
  (startswith request_path "/" = true ->
   _extract_additional_path mock_path request_path = EmptyString \/
   startswith (_extract_additional_path mock_path request_path) "/" = true).
Proof.
  unfold _extract_additional_path.
  set (mock := rstrip_char "/" mock_path). set (req := rstrip_char "/" request_path).
  assert (Hreq : endswith req "/" = false) by apply rstrip_char_no_slash.
  destruct (String.eqb mock req) eqn:Heq; [split; [reflexivity | now left]|].
  destruct (startswith req mock) eqn:Hs.
  - pose proof (startswith_split req mock Hs) as Hsplit.
    set (additional := drop (len mock) req) in *.
    assert (Ha : endswith additional "/" = false).
    { apply endswith_drop_false; [discriminate | exact Hreq]. }
    destruct (startswith additional "/") eqn:Hl; [split; [exact Ha | now right]|].
    split; [|intros _; right; reflexivity].
    destruct additional as [|a additional'] eqn:Hadd.
    { rewrite app_empty_r in Hsplit. rewrite Hsplit, String.eqb_refl in Heq. discriminate. }
    change ("/" +:+ String a additional') with (String "/" (String a additional')).
    apply endswith_cons_false; [discriminate | exact Ha].
  - split; [exact Hreq|]. intros Hslash.
    destruct request_path as [|c rp]; [discriminate|].
    cbn [startswith] in Hslash. destruct (Ascii.eqb "/" c) eqn:Ec; [|discriminate].
    apply Ascii.eqb_eq in Ec. subst c.
    destruct (rstrip_keeps_first (Ascii.eqb "/") "/" rp) as [H|[r H]];
      unfold req, rstrip_char; rewrite H; [now left | right; reflexivity].
Qed.

Lemma additional_path_shape_witness :
  _extract_additional_path "/users/" "/users/42/posts/" = EmptyString \/
  startswith (_extract_additional_path "/users/" "/users/42/posts/") "/" = true.
Proof. apply (proj2 (additional_path_shape "/users/" "/users/42/posts/")). reflexivity. Defined.

End ProcessorMore.

(** ** The processor: what a request does upstream *)

Module UpstreamFacts.

Import Py PyFacts Models MockProcessor ConditionalFacts.

(** The requests a run sent upstream *)
Definition upstream (evs : list event) : list event :=
  List.filter (fun ev => match ev with EvHttp _ _ _ _ => true | EvEval _ => false end) evs.

Section Upstream.

Context {E : Evaluator}.
Variable http_client : string -> string -> dict string -> string -> http_outcome.

Lemma process_proxy_upstream (mock_service : MockService) (request : Request)
    (body_data : option string) (path_params : dict string) :
  length (upstream (_process_proxy http_client mock_service request body_data path_params).1) <= 1.
Proof.
  unfold _process_proxy. destruct (SOAPParser.truthy (proxy_url mock_service)); simpl; lia.
Qed.

Lemma branch_reply_upstream (resp_data : ConditionalResponse) (request : Request)
    (body_bytes : option string) (path_params : dict string) (context : dict pyval) :
  length (upstream (branch_reply http_client resp_data request body_bytes path_params context).1)
  <= 1.
Proof.
  unfold branch_reply.
  destruct (String.eqb (response_type resp_data) "proxy"); [|simpl; lia].
  destruct (SOAPParser.truthy (cr_proxy_url resp_data)); simpl; lia.
Qed.

Lemma branches_loop_upstream (request : Request) (body_bytes : option string)
    (path_params : dict string) (responses : list (option ConditionalResponse)) :
  forall context,
    length (upstream
              (branches_loop http_client request body_bytes path_params context responses).1)
    <= 1.
Proof.
  induction responses as [|[resp_data|] rest IH]; intros context; simpl; [lia | | apply IH].
  destruct (condition resp_data) as [c|]; [|apply IH].
  destruct (py_eval c context) as [context' [v|e]].
  - destruct (py_bool v).
    + pose proof (branch_reply_upstream resp_data request body_bytes path_params context') as H.
      destruct (branch_reply _ _ _ _ _ _) as [evs r]. exact H.
    + specialize (IH context'). destruct (branches_loop _ _ _ _ _ rest) as [evs r]. exact IH.
  - specialize (IH context'). destruct (branches_loop _ _ _ _ _ rest) as [evs r]. exact IH.
Qed.

(** Whatever the strategy, the evaluator and the upstream do, one request
    served sends at most one request upstream; the static strategy sends
    none and evaluates nothing. *)
Theorem at_most_one_upstream_request (mock_service : MockService) (request : Request)
    (body_data : option string) (path_params : dict string) (body_bytes : option string) :
  length (upstream
            (process_request http_client mock_service request body_data path_params
               body_bytes).1) <= 1 /\
  (strategy mock_service = STATIC ->
   (process_request http_client mock_service request body_data path_params body_bytes).1 = []).
Proof.
  unfold process_request. split.
  - destruct (strategy mock_service).
    + apply process_proxy_upstream.
    + simpl. lia.
    + unfold _process_conditional.
      destruct (SOAPParser.truthy (condition_code mock_service)) as [code|]; [|simpl; lia].
      destruct (conditional_responses mock_service) as [[|r rs]|]; try (simpl; lia).
      destruct (py_exec code _) as [context|e]; [|simpl; lia].
      pose proof (branches_loop_upstream request body_bytes path_params (r :: rs) context) as H.
      destruct (branches_loop _ _ _ _ _ (r :: rs)) as [evs [answer|]]; exact H.
  - intros ->. reflexivity.
Qed.

(** *** The target of a conditional proxy branch *)

(** A conditional proxy branch never forwards the path of the request: its
    target is the URL of the branch -- with the parameters put in when it
    names one, without its trailing slashes otherwise -- and the query. *)
Theorem conditional_proxy_target (proxy_url : string) (request : Request)
    (body_data : option string) (path_params : dict string) :
  exists headers content,
    (_proxy_conditional_request http_client proxy_url request body_data path_params).1
    = [EvHttp (req_method request)
         (TargetUrlFacts.with_query
            (if TargetUrlFacts.has_params proxy_url path_params
             then TargetUrlFacts.put_params proxy_url path_params
             else rstrip_char "/" proxy_url)
            (req_query request))
         headers content].
Proof.
  unfold _proxy_conditional_request. cbn [fst].
  rewrite TargetUrlFacts.build_proxy_url_eq, String.eqb_refl. cbn [negb].
  now eexists _, _.
Qed.

(** *** The parameters of a conditional proxy branch *)

Lemma extended_params_fold_keep (k : string) (context : dict pyval) :
  (forall v, In (k, v) context -> is_excluded_var k = true \/ py_is_none v = true) ->
  forall acc : dict string,
    get (fold_left
           (fun acc kv =>
              if negb (is_excluded_var kv.1) && negb (py_is_none kv.2)
              then Py.set acc kv.1 (py_str kv.2) else acc) context acc) k
    = get acc k.
Proof.
  induction context as [|[k0 v0] context IH]; intros Hk acc; [reflexivity|].
  simpl. rewrite IH by (intros v Hv; apply Hk; now right).
  destruct (negb (is_excluded_var k0) && negb (py_is_none v0)) eqn:Hc; [|reflexivity].
  apply andb_true_iff in Hc as [Hex Hnone].
  apply negb_true_iff in Hex, Hnone.
  apply ProcessorMore.get_set_other. intros ->.
  destruct (Hk v0 ltac:(now left)); congruence.
Qed.

(** The parameters a proxy branch substitutes are the path parameters
    under every name the branch leaves out: the names the processor binds
    itself, the names that start with an underscore, the names the context
    does not bind and those it binds to [None]. *)
Theorem reserved_names_stay_path_parameters (path_params : dict string)
    (context : dict pyval) (k : string) :
  is_excluded_var k = true \/ (forall v, In (k, v) context -> py_is_none v = true) ->
  get (extended_params path_params context) k = get path_params k.
Proof.
  intros H. unfold extended_params. apply extended_params_fold_keep.
  intros v Hv. destruct H as [H|H]; [now left | right; now apply H].
Qed.

(** A variable of the script that is not left out and is not [None] goes
    before the path parameter of the same name: the branch substitutes the
    text of its value. *)
Theorem script_variable_overrides_path_parameter (path_params : dict string)
    (context : dict pyval) (k : string) (v : pyval) :
  NoDup (keys context) ->
  In (k, v) context ->
  is_excluded_var k = false ->
  py_is_none v = false ->
  get (extended_params path_params context) k = Some (py_str v).
Proof.
  unfold extended_params. revert path_params.
  induction context as [|[k0 v0] context IH]; intros acc Hnd Hin Hex Hnone; [destruct Hin|].
  unfold keys in Hnd. simpl in Hnd. apply NoDup_cons in Hnd as [Hk0 Hnd].
  destruct Hin as [[= -> ->]|Hin].
  - simpl. rewrite Hex, Hnone. simpl.
    rewrite extended_params_fold_keep; [apply ProcessorMore.get_set_same|].
    intros v' Hv'. exfalso. apply Hk0. apply list_elem_of_In.
    apply (List.in_map fst) in Hv'. exact Hv'.
  - simpl. now apply IH.
Qed.

(** *** The default replies of the conditional strategy *)

(** When the loop passes every branch without an answer, the strategy
    answers with [conditional_status_code], the text of the default reply
    and [conditional_headers], having evaluated every condition once and
    sent nothing upstream.  Without condition code or without branches it
    answers with the other default text and evaluates nothing, the
    condition code neither. *)
Theorem conditional_default_replies (mock_service : MockService) (request : Request)
    (body_str : option string) (path_params : dict string) (body_bytes : option string) :
  (forall code r rs context context' conditions,
     SOAPParser.truthy (condition_code mock_service) = Some code ->
     conditional_responses mock_service = Some (r :: rs) ->
     py_exec code (initial_context request body_str path_params) = Ok context ->
     skipped context (r :: rs) context' conditions ->
     _process_conditional http_client mock_service request body_str path_params body_bytes
     = (map EvEval conditions,
        (conditional_status_code mock_service, "Ни одно условие не выполнено",
         or_no_headers (conditional_headers mock_service), None))) /\
  (SOAPParser.truthy (condition_code mock_service) = None \/
   conditional_responses mock_service = None \/
   conditional_responses mock_service = Some [] ->
   _process_conditional http_client mock_service request body_str path_params body_bytes
   = ([], (conditional_status_code mock_service, "Нет условий для обработки",
           or_no_headers (conditional_headers mock_service), None))).
Proof.
  split.
  - intros code r rs context context' conditions Hcode Hresp Hexec Hskip.
    unfold _process_conditional. rewrite Hcode, Hresp, Hexec.
    pose proof (branches_loop_skipped http_client request body_bytes path_params
                  context context' (r :: rs) [] conditions Hskip) as Hloop.
    rewrite List.app_nil_r in Hloop. rewrite Hloop. simpl.
    now rewrite List.app_nil_r.
  - intros H. unfold _process_conditional.
    destruct H as [-> | [-> | ->]].
    + reflexivity.
    + now destruct (SOAPParser.truthy (condition_code mock_service)).
    + now destruct (SOAPParser.truthy (condition_code mock_service)).
Qed.

End Upstream.

Lemma at_most_one_upstream_request_witness :
  (process_request (E := Toy.evaluator) Toy.echo
     {| id := 5; name := "static"; path := "/x"; methods := ["GET"];
        strategy := STATIC; service_type := REST; proxy_url := None;
        static_response := Some "ok"; static_status_code := 200; static_headers := None;
        condition_code := None; conditional_responses := None;
        conditional_status_code := 200; conditional_headers := None; is_active := true |}
     (Toy.get_x EmptyString) None [] None).1 = [].
Proof.
  apply (proj2 (at_most_one_upstream_request (E := Toy.evaluator) Toy.echo
                  {| id := 5; name := "static"; path := "/x"; methods := ["GET"];
                     strategy := STATIC; service_type := REST; proxy_url := None;
                     static_response := Some "ok"; static_status_code := 200;
                     static_headers := None;
                     condition_code := None; conditional_responses := None;
                     conditional_status_code := 200; conditional_headers := None;
                     is_active := true |}
                  (Toy.get_x EmptyString) None [] None)).
  reflexivity.
Defined.

Lemma reserved_names_stay_path_parameters_witness :
  get (extended_params (E := Toy.evaluator) [("path", "p")]
         [("path", Toy.TText "/x"); ("n", Toy.TInt 20)]) "path" = Some "p".
Proof.
  apply (reserved_names_stay_path_parameters (E := Toy.evaluator) [("path", "p")]
           [("path", Toy.TText "/x"); ("n", Toy.TInt 20)] "path").
  left. reflexivity.
Defined.

Lemma script_variable_overrides_path_parameter_witness :
  get (extended_params (E := Toy.evaluator) [("n", "1")]
         [("path", Toy.TText "/x"); ("n", Toy.TInt 20)]) "n" = Some "20".
Proof.
  apply (script_variable_overrides_path_parameter (E := Toy.evaluator) [("n", "1")]
           [("path", Toy.TText "/x"); ("n", Toy.TInt 20)] "n" (Toy.TInt 20)).
  - unfold keys. simpl. apply NoDup_cons. split; [|apply NoDup_singleton].
    intros H. apply list_elem_of_In in H. destruct H as [H|[]]. discriminate H.
  - right. left. reflexivity.
  - reflexivity.
  - reflexivity.
Defined.

(** A service whose two branches both fail: an unbound name and a
    comparison that is false *)
Definition no_branch : MockService :=
  {| id := 6; name := "cond"; path := "/x"; methods := ["GET"];
     strategy := CONDITIONAL; service_type := REST; proxy_url := None;
     static_response := None; static_status_code := 200; static_headers := None;
     condition_code := Some "n = 3";
     conditional_responses :=
       Some [Some (static_branch "m" "unbound");
             Some (proxy_branch "n > 10" "https://big/{n}")];
     conditional_status_code := 404; conditional_headers := None; is_active := true |}.

Lemma conditional_default_replies_witness :
  _process_conditional (E := Toy.evaluator) Toy.echo no_branch
    (Toy.get_x EmptyString) (Some EmptyString) [] (Some EmptyString)
  = ([EvEval "m"; EvEval "n > 10"],
     (404%Z, "Ни одно условие не выполнено", [], None)).
Proof.
  refine (proj1 (conditional_default_replies (E := Toy.evaluator) Toy.echo no_branch
                   (Toy.get_x EmptyString) (Some EmptyString) [] (Some EmptyString))
            "n = 3" (Some (static_branch "m" "unbound"))
            [Some (proxy_branch "n > 10" "https://big/{n}")]
            context_after_code context_after_code ["m"; "n > 10"]
            eq_refl eq_refl eq_refl _).
  eapply skipped_raise; [reflexivity | reflexivity |].
  eapply skipped_false; [reflexivity | reflexivity | reflexivity |].
  apply skipped_done.
Defined.

End UpstreamFacts.

(** ** The SOAP method name: what it can look like *)

Module MethodNameFacts.

Import Py PyFacts SOAPParser.

(** *** The pieces of [split] *)

Lemma split_pieces_free (c : ascii) (s : string) :
  Forall (fun w => mem c w = false) (split c s).
Proof.
  induction s as [|a s IH]; cbn [split].
  - now repeat constructor.
  - destruct (Ascii.eqb a c) eqn:Eac.
    + constructor; [reflexivity | exact IH].
    + destruct (split c s) as [|w ws].
      * constructor; [|constructor]. cbn [mem]. now rewrite Eac.
      * apply Forall_cons in IH as [Hw Hws]. constructor; [|exact Hws].
        cbn [mem]. now rewrite Eac, Hw.
Qed.

Lemma split_pieces_keep_free (d c : ascii) (s : string) :
  mem d s = false -> Forall (fun w => mem d w = false) (split c s).
Proof.
  induction s as [|a s IH]; cbn [split mem]; intros H.
  - now repeat constructor.
  - apply orb_false_iff in H as [Had Hs]. specialize (IH Hs).
    destruct (Ascii.eqb a c).
    + constructor; [reflexivity | exact IH].
    + destruct (split c s) as [|w ws].
      * constructor; [|constructor]. cbn [mem]. now rewrite Had.
      * apply Forall_cons in IH as [Hw Hws]. constructor; [|exact Hws].
        cbn [mem]. now rewrite Had, Hw.
Qed.

Lemma Forall_hd (P : string -> Prop) (l : list string) :
  P EmptyString -> Forall P l -> P (hd EmptyString l).
Proof. intros H0 H. destruct H; [exact H0 | assumption]. Qed.

Lemma Forall_last (P : string -> Prop) (l : list string) :
  P EmptyString -> Forall P l -> P (List.last l EmptyString).
Proof.
  intros H0 H. induction H as [|x l Hx Hl IH]; [exact H0|].
  destruct l; [exact Hx | exact IH].
Qed.

Lemma split_first_free (c : ascii) (s : string) : mem c (split_first c s) = false.
Proof.
  unfold split_first.
  apply (Forall_hd (fun w => mem c w = false)); [reflexivity | apply split_pieces_free].
Qed.

Lemma split_last_free (c : ascii) (s : string) : mem c (split_last c s) = false.
Proof.
  unfold split_last.
  apply (Forall_last (fun w => mem c w = false)); [reflexivity | apply split_pieces_free].
Qed.

Lemma split_last_keeps_free (d c : ascii) (s : string) :
  mem d s = false -> mem d (split_last c s) = false.
Proof.
  intros H. unfold split_last.
  apply (Forall_last (fun w => mem d w = false));
    [reflexivity | now apply split_pieces_keep_free].
Qed.

(** *** Normalization *)

Lemma normalized_name_free (method_name : string) :
  mem "?" (_normalize_method_name method_name) = false /\
  mem "#" (_normalize_method_name method_name) = false.
Proof.
  unfold _normalize_method_name.
  destruct (negb (nonempty method_name)); [now split|]. cbv zeta.
  set (n0 := strip _).
  assert (H1 : mem "?" (if mem "?" n0 then split_first "?" n0 else n0) = false).
  { destruct (mem "?" n0) eqn:E; [apply split_first_free | exact E]. }
  set (n1 := if mem "?" n0 then split_first "?" n0 else n0) in *.
  destruct (mem "#" n1) eqn:E2.
  - split; [now apply split_last_keeps_free | apply split_last_free].
  - now split.
Qed.

Lemma truthy_some_inv (s m : string) : truthy (Some s) = Some m -> m = s.
Proof. intros H. apply SOAPFacts.truthy_nonempty in H as [[= ->] _]. reflexivity. Qed.

Lemma extract_method_from_action_normalized (action_value m : string) :
  _extract_method_from_action action_value = Some m ->
  exists raw, m = _normalize_method_name raw.
Proof.
  unfold _extract_method_from_action. cbv zeta.
  repeat match goal with
         | |- context [if ?b then _ else _] => destruct b
         end;
    intros H; try discriminate H; injection H as <-; now eexists.
Qed.

(** An action gives no name only when it is blank; the name it gives has
    neither a question mark nor a hash sign in it. *)
Theorem action_name_shape (action_value : string) :
  (_extract_method_from_action action_value = None <-> strip action_value = EmptyString) /\
  (forall m, _extract_method_from_action action_value = Some m ->
     mem "?" m = false /\ mem "#" m = false).
Proof.
  split.
  - unfold _extract_method_from_action. cbv zeta.
    destruct action_value as [|a s]; [now split|]. cbn [nonempty negb orb].
    destruct (strip (String a s)) as [|b t] eqn:Es; cbn [nonempty negb]; [now split|].
    split; [|discriminate].
    repeat match goal with
           | |- context [if ?b then _ else _] => destruct b
           end; discriminate.
  - intros m H. apply extract_method_from_action_normalized in H as [raw ->].
    apply normalized_name_free.
Qed.

Section WithBodyParser.

Variable extract_soap_method_from_body : string -> option string.

Lemma body_name_normalized (body : option string) (m : string) :
  SOAPFacts.body_name extract_soap_method_from_body body = Some m ->
  exists raw, m = _normalize_method_name raw.
Proof.
  unfold SOAPFacts.body_name.
  destruct (truthy body) as [b|]; [|discriminate].
  destruct (truthy (extract_soap_method_from_body b)) as [x|]; [|discriminate].
  intros H. apply truthy_some_inv in H. now exists x.
Qed.

(** Whatever the headers, the body and the parser of the body, the method
    name [extract_soap_method] returns has neither a question mark nor a
    hash sign in it. *)
Theorem reported_method_is_normalized (headers : dict string) (body : option string)
    (m : string) :
  extract_soap_method extract_soap_method_from_body headers body = Some m ->
  mem "?" m = false /\ mem "#" m = false.
Proof.
  rewrite SOAPFacts.extract_soap_method_eq.
  destruct (truthy (extract_soap_method_from_headers headers)) as [h|].
  - destruct (SOAPFacts.good_header_name h).
    + intros [= <-]. apply normalized_name_free.
    + destruct (SOAPFacts.body_name extract_soap_method_from_body body) as [x|] eqn:B.
      * intros [= <-]. apply body_name_normalized in B as [raw ->].
        apply normalized_name_free.
      * intros H. apply truthy_some_inv in H. subst m. apply normalized_name_free.
  - intros H. apply body_name_normalized in H as [raw ->]. apply normalized_name_free.
Qed.

End WithBodyParser.

Lemma action_name_shape_witness :
  mem "?" "getUser" = false /\ mem "#" "getUser" = false.
Proof.
  apply (proj2 (action_name_shape "http://x/svc#getUser?v=1") "getUser"). reflexivity.
Defined.

Lemma reported_method_is_normalized_witness :
  mem "?" "Sub" = false /\ mem "#" "Sub" = false.
Proof.
  apply (reported_method_is_normalized (fun _ => Some "a#Sub?x")
           [("soapaction", "urn:a")] (Some "<Body><Sub/></Body>") "Sub").
  reflexivity.
Defined.

End MethodNameFacts.

(** ** Templates: what validation lets through, and literal templates *)

Module TemplateFacts.

Import Py PyFacts PathParser MatcherFacts.

#[local] Abbreviation LF := (String "010" EmptyString).

Lemma endswith_mem (c : ascii) (s : string) :
  endswith s (String c EmptyString) = true -> mem c s = true.
Proof.
  intros H. rewrite (endswith_split _ _ H), mem_app. cbn [mem].
  rewrite Ascii.eqb_refl. now rewrite orb_true_r.
Qed.

Lemma identifier_no_line_feed (name : string) :
  isidentifier name = true -> endswith name LF = false.
Proof.
  intros H. destruct (endswith name LF) eqn:E; [|reflexivity].
  apply endswith_mem in E.
  now rewrite (isidentifier_excludes "010" name eq_refl H) in E.
Qed.

Lemma validated_distinct (T : string) :
  validate_path_pattern T = true -> distinct (extract_parameter_names T) = true.
Proof.
  unfold validate_path_pattern.
  destruct (negb (nonempty T)); [discriminate|].
  destruct (negb (startswith T "/")); [discriminate|].
  now destruct (distinct (extract_parameter_names T)).
Qed.

Lemma validated_compiles (T : string) :
  validate_path_pattern T = true -> endswith T "{*}" = false ->
  re_compiles (_pattern_to_regex T) = forallb isidentifier (extract_parameter_names T).
Proof.
  intros Hv He.
  rewrite (no_wildcard_regex T (valid_template_wildcard T Hv He)).
  unfold re_compiles. rewrite (group_names_tokens _ (valid_names_plain T Hv He)).
  fold (extract_parameter_names T). rewrite (validated_distinct T Hv). apply andb_true_r.
Qed.

(** Validation lets a name through that ends with a line feed, and this is
    the one way a validated template makes the match raise: for a template
    that passes validation and does not end with the wildcard, the match
    raises -- on every path -- exactly when a name of the template ends
    with a line feed. *)
Theorem line_feed_name_raises (T P : string) :
  validate_path_pattern T = true ->
  endswith T "{*}" = false ->
  (extract_parameters T P = Raise "re.error" <->
   exists name, In name (extract_parameter_names T) /\ endswith name LF = true).
Proof.
  intros Hv He. unfold extract_parameters. rewrite He, (validated_compiles T Hv He).
  destruct (forallb isidentifier (extract_parameter_names T)) eqn:Hid.
  - split; [discriminate|]. intros (name & Hin & Hlf).
    rewrite forallb_forall in Hid.
    now rewrite (identifier_no_line_feed name (Hid name Hin)) in Hlf.
  - split; [|reflexivity]. intros _.
    assert (Hex : existsb (fun n => negb (isidentifier n)) (extract_parameter_names T) = true).
    { clear -Hid. induction (extract_parameter_names T) as [|n l IH]; [discriminate|].
      simpl in Hid |- *. destruct (isidentifier n); [now apply IH | reflexivity]. }
    apply existsb_exists in Hex as (name & Hin & Hn). apply negb_true_iff in Hn.
    exists name. split; [exact Hin|].
    pose proof (valid_name_identifier T name Hv He Hin) as Hm.
    unfold matches_identifier in Hm. rewrite Hn in Hm. cbn [orb] in Hm.
    now apply andb_true_iff in Hm as [Hm _].
Qed.

(** When the match of a validated template returns parameters, their names
    are the names of the template, in its order -- or the one name of the
    wildcard for a template that ends with it. *)
Theorem matched_names_are_template_names (T P : string) (params : dict string) :
  validate_path_pattern T = true ->
  extract_parameters T P = Ok (Some params) ->
  keys params = if endswith T "{*}" then ["*"] else extract_parameter_names T.
Proof.
  intros Hv H. unfold extract_parameters in H.
  destruct (endswith T "{*}") eqn:He.
  - destruct (startswith P (take (len T - 3) T)); [|discriminate].
    injection H as <-. reflexivity.
  - rewrite (no_wildcard_regex T (valid_template_wildcard T Hv He)) in H.
    destruct (re_compiles (map item_of_token (tokens T))); [|discriminate].
    injection H as H.
    now destruct (re_match_sound _ (valid_names_plain T Hv He) _ _ H)
      as (tail & _ & _ & Hkeys & _).
Qed.

(** *** Templates without a brace *)

Fixpoint literal_items (s : string) : list regex_item :=
  match s with
  | EmptyString => []
  | String c s' => RLit c :: literal_items s'
  end.

Lemma tokens_literal_items (s : string) :
  mem "{" s = false -> map item_of_token (tokens s) = literal_items s.
Proof.
  unfold tokens. induction s as [|c s IH]; [reflexivity|].
  cbn [mem tokens_from]. intros H. apply orb_false_iff in H as [Hc Hs].
  rewrite Hc. cbn [map item_of_token literal_items]. now rewrite (IH Hs).
Qed.

Lemma literal_items_compile (s : string) : re_compiles (literal_items s) = true.
Proof.
  unfold re_compiles.
  assert (H : group_names (literal_items s) = []) by (induction s; [reflexivity | assumption]).
  now rewrite H.
Qed.

Lemma literal_items_match (s : string) :
  forall P,
    re_match_items (literal_items s) P
    = if String.eqb P s || String.eqb P (s +:+ LF) then Some [] else None.
Proof.
  induction s as [|a s IH]; intros P.
  - rewrite app_nil_l. cbn [literal_items re_match_items].
    destruct P as [|c [|c' t]]; cbn [at_dollar]; [reflexivity | | ].
    + cbn [String.eqb orb]. now destruct (Ascii.eqb c "010").
    + cbn [String.eqb orb]. destruct (Ascii.eqb c "010"); reflexivity.
  - rewrite app_cons. cbn [literal_items re_match_items].
    destruct P as [|b P]; [reflexivity|].
    cbn [String.eqb]. destruct (Ascii.eqb b a); [apply IH | reflexivity].
Qed.

Lemma no_brace_no_wildcard (T : string) :
  mem "{" T = false -> endswith T "{*}" = false /\ contains "{*}" T = false.
Proof.
  intros H. split.
  - destruct (endswith T "{*}") eqn:E; [|reflexivity].
    rewrite (endswith_split _ _ E), mem_app in H.
    apply orb_false_iff in H as [_ H]. discriminate H.
  - destruct (contains "{*}" T) eqn:E; [|reflexivity].
    apply contains_iff in E as (l & r & ->).
    rewrite !mem_app in H. apply orb_false_iff in H as [_ H].
    apply orb_false_iff in H as [H _]. discriminate H.
Qed.

(** A template without an opening brace never raises and captures nothing:
    it matches its own text, and its own text followed by one line feed,
    and no other path. *)
Theorem literal_template_matches (T P : string) :
  mem "{" T = false ->
  extract_parameters T P
  = Ok (if String.eqb P T || String.eqb P (T +:+ LF) then Some [] else None).
Proof.
  intros H. destruct (no_brace_no_wildcard T H) as [He Hc].
  unfold extract_parameters. rewrite He, (no_wildcard_regex T Hc).
  rewrite (tokens_literal_items T H), literal_items_compile.
  now rewrite literal_items_match.
Qed.

Lemma line_feed_name_raises_witness :
  extract_parameters ("/users/{id" +:+ LF +:+ "}") "/users/42" = Raise "re.error".
Proof.
  apply (proj2 (line_feed_name_raises ("/users/{id" +:+ LF +:+ "}") "/users/42"
                  eq_refl eq_refl)).
  exists ("id" +:+ LF). split; [left; reflexivity | reflexivity].
Defined.

Lemma matched_names_are_template_names_witness :
  keys [("id", "42"); ("post", "7")] = ["id"; "post"].
Proof.
  apply (matched_names_are_template_names "/users/{id}/posts/{post}" "/users/42/posts/7"
           [("id", "42"); ("post", "7")]); reflexivity.
Defined.

Lemma literal_template_matches_witness :
  extract_parameters "/health" ("/health" +:+ LF) = Ok (Some []) /\
  extract_parameters "/health" "/health/" = Ok None.
Proof.
  split.
  - apply (literal_template_matches "/health" ("/health" +:+ LF)). reflexivity.
  - apply (literal_template_matches "/health" "/health/"). reflexivity.
Defined.

End TemplateFacts.

(** ** The validators of the schema *)

Module SchemaFacts.

Import Py PyFacts Models MockServiceService Schemas.

Lemma upper_upper_char (c : ascii) : upper_char (upper_char c) = upper_char c.
Proof. destruct c as [[] [] [] [] [] [] [] []]; reflexivity. Qed.

Lemma upper_upper (s : string) : upper (upper s) = upper s.
Proof. induction s as [|c s IH]; simpl; [reflexivity | now rewrite upper_upper_char, IH]. Qed.

Lemma allowed_methods_spec (m : string) :
  existsb (String.eqb m) allowed_methods = true <-> In m allowed_methods.
Proof.
  rewrite existsb_exists. split.
  - intros (x & Hx & E). apply String.eqb_eq in E. now subst x.
  - intros H. exists m. split; [exact H | apply String.eqb_refl].
Qed.

Lemma first_refused_none (v : list string) :
  first_refused v = None -> Forall (fun m => In (upper m) allowed_methods) v.
Proof.
  induction v as [|m v IH]; [constructor|]. cbn [first_refused].
  destruct (existsb (String.eqb (upper m)) allowed_methods) eqn:E; [|discriminate].
  intros H. constructor; [now apply allowed_methods_spec | now apply IH].
Qed.

Lemma first_refused_upper (v : list string) :
  first_refused v = None -> first_refused (map upper v) = None.
Proof.
  induction v as [|m v IH]; [reflexivity|]. cbn [first_refused map].
  rewrite upper_upper.
  destruct (existsb (String.eqb (upper m)) allowed_methods); [exact IH | discriminate].
Qed.

Lemma validate_methods_ok (v ms : list string) :
  validate_methods v = Ok ms ->
  first_refused v = None /\ ms = map upper v /\ Forall (fun m => In m allowed_methods) ms.
Proof.
  unfold validate_methods. destruct (first_refused v) as [bad|] eqn:E; [discriminate|].
  intros [= <-]. split; [reflexivity|]. split; [reflexivity|].
  apply List.Forall_map. now apply first_refused_none.
Qed.

Lemma map_upper_upper (v : list string) : map upper (map upper v) = map upper v.
Proof. rewrite map_map. apply map_ext. intros m. apply upper_upper. Qed.

(** What [validate_methods] returns is the list it was given in upper case,
    every method of it one of the seven allowed; the validator returns its
    own result as it is. *)
Theorem validated_methods_normal_form (v ms : list string) :
  validate_methods v = Ok ms ->
  ms = map upper v /\
  Forall (fun m => In m allowed_methods) ms /\
  validate_methods ms = Ok ms.
Proof.
  intros H. destruct (validate_methods_ok v ms H) as (Hnone & -> & Hall).
  split; [reflexivity|]. split; [exact Hall|].
  unfold validate_methods. now rewrite (first_refused_upper v Hnone), map_upper_upper.
Qed.

(** A service whose methods went through the validator is routed a request
    exactly when the method of the request, in upper case, is one of its
    methods as stored; no other method than the seven allowed reaches
    it. *)
Theorem only_allowed_methods_are_routed (v : list string) (service : MockService)
    (method : string) :
  validate_methods v = Ok (methods service) ->
  method_allowed method service = existsb (String.eqb (upper method)) (methods service) /\
  (method_allowed method service = true -> In (upper method) allowed_methods).
Proof.
  intros H. destruct (validate_methods_ok v (methods service) H) as (_ & Hms & Hall).
  assert (Heq : method_allowed method service
                = existsb (String.eqb (upper method)) (methods service)).
  { unfold method_allowed. rewrite Hms. now rewrite map_upper_upper. }
  split; [exact Heq|].
  rewrite Heq. intros Hex. apply existsb_exists in Hex as (m & Hin & E).
  apply String.eqb_eq in E. rewrite E.
  rewrite List.Forall_forall in Hall. now apply Hall.
Qed.

(** [validate_path] returns a path that starts with a slash and leaves such
    a path as it is; on its result the template validation depends on the
    names alone. *)
Theorem validated_path_normal_form (v : string) :
  startswith (validate_path v) "/" = true /\
  validate_path (validate_path v) = validate_path v /\
  PathParser.validate_path_pattern (validate_path v)
  = PathParser.distinct (PathParser.extract_parameter_names (validate_path v))
    && forallb (PathParser.param_ok (validate_path v))
         (PathParser.extract_parameter_names (validate_path v)).
Proof.
  assert (H : startswith (validate_path v) "/" = true).
  { unfold validate_path. destruct (startswith v "/") eqn:E; [exact E|].
    cbn [negb]. apply startswith_app. }
  split; [exact H|]. split.
  - unfold validate_path at 1. now rewrite H.
  - unfold PathParser.validate_path_pattern. rewrite H.
    destruct (validate_path v) as [|c s]; [discriminate H|]. cbn [nonempty negb].
    now destruct (PathParser.distinct _).
Qed.

Lemma validated_methods_normal_form_witness :
  ["GET"; "POST"] = map upper ["get"; "Post"] /\
  Forall (fun m => In m allowed_methods) ["GET"; "POST"] /\
  validate_methods ["GET"; "POST"] = Ok ["GET"; "POST"].
Proof. apply (validated_methods_normal_form ["get"; "Post"] ["GET"; "POST"]). reflexivity. Defined.

Lemma only_allowed_methods_are_routed_witness :
  method_allowed "post" (RouterFacts.soap_service 1 "Calc_Add")
  = existsb (String.eqb (upper "post")) (methods (RouterFacts.soap_service 1 "Calc_Add")) /\
  (method_allowed "post" (RouterFacts.soap_service 1 "Calc_Add") = true ->
   In (upper "post") allowed_methods).
Proof.
  apply (only_allowed_methods_are_routed ["post"] (RouterFacts.soap_service 1 "Calc_Add")
           "post").
  reflexivity.
Defined.

End SchemaFacts.

(** ** Reading the log back *)

Module LogFacts.

Import FileLogger.

(** *** Slices *)

Lemma slice_index_nonneg (n : nat) (i : Z) :
  (0 <= i)%Z -> slice_index n i = Nat.min (Z.to_nat i) n.
Proof. intros H. unfold slice_index. destruct (Z.ltb_spec i 0); [lia | reflexivity]. Qed.

Lemma slice_length {A} (l : list A) (start stop : Z) :
  (start <= stop)%Z -> (Z.of_nat (length (slice l start stop)) <= stop - start)%Z.
Proof.
  intros H. unfold slice. rewrite length_take, length_drop. unfold slice_index.
  destruct (Z.ltb_spec start 0), (Z.ltb_spec stop 0); lia.
Qed.

Lemma slice_app {A} (l : list A) (i j k : Z) :
  (0 <= i <= j)%Z -> (j <= k)%Z -> slice l i j ++ slice l j k = slice l i k.
Proof.
  intros Hij Hjk. unfold slice. rewrite !slice_index_nonneg by lia.
  set (n := length l).
  set (a := Nat.min (Z.to_nat i) n). set (b := Nat.min (Z.to_nat j) n).
  set (c := Nat.min (Z.to_nat k) n).
  assert (a <= b <= c) as [Hab Hbc] by lia.
  replace (drop b l) with (drop (b - a) (drop a l))
    by (rewrite drop_drop; f_equal; lia).
  rewrite take_take_drop. f_equal. lia.
Qed.

Lemma slice_subseteq {A} (l : list A) (start stop : Z) (x : A) :
  In x (slice l start stop) -> In x l.
Proof.
  unfold slice. intros H. apply list_elem_of_In in H. apply list_elem_of_In.
  apply (subseteq_drop (slice_index (length l) start) l).
  apply (subseteq_take (slice_index (length l) stop - slice_index (length l) start) _).
  exact H.
Qed.

(** *** The sort *)

(** Newest first: no entry is older than the one after it. *)
Fixpoint descending (l : list RequestLogEntry) : Prop :=
  match l with
  | [] => True
  | x :: rest =>
      match rest with
      | [] => True
      | y :: _ => String.leb (timestamp y) (timestamp x) = true
      end /\ descending rest
  end.

Lemma compare_refl (s : string) : String.compare s s = Eq.
Proof.
  pose proof (String.compare_antisym s s) as H.
  destruct (String.compare s s); [reflexivity | discriminate | discriminate].
Qed.

Lemma ltb_leb (s t : string) : String.ltb s t = true -> String.leb s t = true.
Proof. unfold String.ltb, String.leb. now destruct (String.compare s t). Qed.

Lemma not_ltb_leb (s t : string) : String.ltb s t = false -> String.leb t s = true.
Proof.
  unfold String.ltb, String.leb. rewrite (String.compare_antisym s t).
  now destruct (String.compare t s).
Qed.

Lemma insert_entry_head (e : RequestLogEntry) (l : list RequestLogEntry) (bound : string) :
  String.leb (timestamp e) bound = true ->
  match l with [] => True | y :: _ => String.leb (timestamp y) bound = true end ->
  match insert_entry e l with [] => True | y :: _ => String.leb (timestamp y) bound = true end.
Proof.
  intros He Hl. destruct l as [|x rest]; [exact He|]. cbn [insert_entry].
  now destruct (String.ltb (timestamp e) (timestamp x)).
Qed.

Lemma insert_entry_descending (e : RequestLogEntry) (l : list RequestLogEntry) :
  descending l -> descending (insert_entry e l).
Proof.
  induction l as [|x rest IH]; intros H; [now split|].
  cbn [insert_entry]. destruct (String.ltb (timestamp e) (timestamp x)) eqn:E.
  - destruct H as [Hhead Hrest]. split; [|now apply IH].
    apply insert_entry_head; [now apply ltb_leb | exact Hhead].
  - split; [now apply not_ltb_leb | exact H].
Qed.

Lemma sort_descending (l : list RequestLogEntry) : descending (sort_newest_first l).
Proof.
  unfold sort_newest_first. induction l as [|e l IH]; [exact I|].
  cbn [foldr]. now apply insert_entry_descending.
Qed.

Lemma insert_entry_perm (e : RequestLogEntry) (l : list RequestLogEntry) :
  insert_entry e l ≡ₚ e :: l.
Proof.
  induction l as [|x rest IH]; [reflexivity|]. cbn [insert_entry].
  destruct (String.ltb (timestamp e) (timestamp x)); [|reflexivity].
  rewrite IH. apply Permutation_swap.
Qed.

Lemma sort_perm (l : list RequestLogEntry) : sort_newest_first l ≡ₚ l.
Proof.
  unfold sort_newest_first. induction l as [|e l IH]; [reflexivity|].
  cbn [foldr]. rewrite insert_entry_perm. now rewrite IH.
Qed.

Definition stamped (t : string) (e : RequestLogEntry) : bool := String.eqb (timestamp e) t.

Lemma insert_entry_filter (t : string) (e : RequestLogEntry) (l : list RequestLogEntry) :
  List.filter (stamped t) (insert_entry e l) = List.filter (stamped t) (e :: l).
Proof.
  induction l as [|x rest IH]; [reflexivity|]. cbn [insert_entry].
  destruct (String.ltb (timestamp e) (timestamp x)) eqn:E; [|reflexivity].
  cbn [List.filter] in IH |- *. rewrite IH.
  destruct (stamped t e) eqn:Se, (stamped t x) eqn:Sx; try reflexivity.
  unfold stamped in Se, Sx. apply String.eqb_eq in Se, Sx.
  unfold String.ltb in E. rewrite Se, Sx, compare_refl in E. discriminate E.
Qed.

Lemma descending_drop (n : nat) (l : list RequestLogEntry) :
  descending l -> descending (drop n l).
Proof.
  revert l. induction n as [|n IH]; intros l H; [exact H|].
  destruct l as [|x rest]; [exact I|]. cbn [drop]. apply IH. exact (proj2 H).
Qed.

Lemma descending_take (n : nat) (l : list RequestLogEntry) :
  descending l -> descending (take n l).
Proof.
  revert n. induction l as [|x rest IH]; intros n H; [now destruct n|].
  destruct n as [|n]; [exact I|]. cbn [take]. destruct H as [Hhead Hrest].
  split; [|now apply IH].
  destruct rest as [|y rest']; [now destruct n|]. now destruct n.
Qed.

Lemma descending_lookup (l : list RequestLogEntry) :
  descending l ->
  forall i x y, l !! i = Some x -> l !! S i = Some y ->
    String.leb (timestamp y) (timestamp x) = true.
Proof.
  induction l as [|a rest IH]; intros H i x y Hx Hy; [discriminate|].
  destruct H as [Hhead Hrest]. destruct i as [|i].
  - injection Hx as <-. destruct rest as [|b rest']; [discriminate|].
    injection Hy as <-. exact Hhead.
  - apply (IH Hrest i x y); assumption.
Qed.

(** [logs.sort] as modelled keeps every entry, puts no entry before a newer
    one, and leaves the entries of one time stamp in the order they were
    read: it is the stable sort, newest first. *)
Theorem sort_is_stable_newest_first (logs : list RequestLogEntry) :
  sort_newest_first logs ≡ₚ logs /\
  (forall i x y,
     sort_newest_first logs !! i = Some x -> sort_newest_first logs !! S i = Some y ->
     String.leb (timestamp y) (timestamp x) = true) /\
  (forall t,
     List.filter (stamped t) (sort_newest_first logs) = List.filter (stamped t) logs).
Proof.
  split; [apply sort_perm|]. split; [apply descending_lookup, sort_descending|].
  intros t. unfold sort_newest_first. induction logs as [|e l IH]; [reflexivity|].
  cbn [foldr]. rewrite insert_entry_filter. cbn [List.filter]. now rewrite IH.
Qed.

(** *** The listing *)

Section WithParser.

Variable parse_entry : string -> option RequestLogEntry.

(** [log_entry] is what a line of a file that could be read parses to. *)
Definition logged (log_files : list (option (list string))) (log_entry : RequestLogEntry)
  : Prop :=
  exists lines line,
    In (Some lines) log_files /\ In line lines /\
    Py.strip line <> EmptyString /\ parse_entry (Py.strip line) = Some log_entry.

Lemma read_lines_In (service_id : option Z) (e : RequestLogEntry) (lines : list string) :
  forall logs,
    In e (read_lines parse_entry service_id lines logs) ->
    In e logs \/
    (selected service_id e = true /\
     exists line, In line lines /\ Py.strip line <> EmptyString /\
                  parse_entry (Py.strip line) = Some e).
Proof.
  induction lines as [|line rest IH]; intros logs H; [now left|].
  cbn [read_lines] in H. cbv zeta in H.
  assert (Hrest : forall logs',
             In e (read_lines parse_entry service_id rest logs') ->
             (In e logs' -> In e logs \/
                (selected service_id e = true /\
                 exists l, In l (line :: rest) /\ Py.strip l <> EmptyString /\
                           parse_entry (Py.strip l) = Some e)) ->
             In e logs \/
             (selected service_id e = true /\
              exists l, In l (line :: rest) /\ Py.strip l <> EmptyString /\
                        parse_entry (Py.strip l) = Some e)).
  { intros logs' H' Hlogs'. destruct (IH logs' H') as [Hin|(Hs & l & Hl & Hne & Hp)].
    - now apply Hlogs'.
    - right. split; [exact Hs|]. exists l. split; [now right | now split]. }
  destruct (Py.strip line) as [|c s] eqn:Es; cbn [Py.nonempty negb] in H.
  - apply (Hrest logs H). now left.
  - destruct (parse_entry (String c s)) as [log_entry|] eqn:Ep.
    + destruct (selected service_id log_entry) eqn:Sel.
      * apply (Hrest _ H). intros Hin. apply List.in_app_iff in Hin as [Hin|[<-|[]]].
        -- now left.
        -- right. split; [exact Sel|]. exists line. split; [now left|].
           rewrite Es. split; [discriminate | exact Ep].
      * apply (Hrest logs H). now left.
    + apply (Hrest logs H). now left.
Qed.

Lemma read_files_In (service_id : option Z) (e : RequestLogEntry)
    (log_files : list (option (list string))) :
  forall logs,
    In e (read_files parse_entry service_id log_files logs) ->
    In e logs \/ (selected service_id e = true /\ logged log_files e).
Proof.
  induction log_files as [|[lines|] rest IH]; intros logs H; [now left | |].
  - cbn [read_files] in H. destruct (IH _ H) as [Hin|(Hs & ls & l & Hf & Hl & Hne & Hp)].
    + destruct (read_lines_In service_id e lines logs Hin) as [Hlogs|(Hs & l & Hl & Hne & Hp)].
      * now left.
      * right. split; [exact Hs|]. exists lines, l. split; [now left | now split].
    + right. split; [exact Hs|]. exists ls, l. split; [now right | now split].
  - cbn [read_files] in H. destruct (IH _ H) as [Hin|(Hs & ls & l & Hf & Hl & Hne & Hp)].
    + now left.
    + right. split; [exact Hs|]. exists ls, l. split; [now right | now split].
Qed.

(** A page is never longer than [limit], whatever [skip] is, negative
    values included. *)
Theorem page_within_limit (log_files : list (option (list string)))
    (service_id : option Z) (skip limit : Z) :
  (0 <= limit)%Z ->
  (Z.of_nat (length (get_logs parse_entry log_files service_id skip limit)) <= limit)%Z.
Proof.
  intros H. unfold get_logs.
  pose proof (slice_length
                (sort_newest_first (read_files parse_entry service_id log_files []))
                skip (skip + limit)) as Hlen.
  lia.
Qed.

(** Two pages in a row are the one page of both: the listing can be read
    page by page without losing or repeating an entry, as long as the files
    do not change. *)
Theorem pages_compose (log_files : list (option (list string)))
    (service_id : option Z) (skip first second : Z) :
  (0 <= skip)%Z -> (0 <= first)%Z -> (0 <= second)%Z ->
  get_logs parse_entry log_files service_id skip first
  ++ get_logs parse_entry log_files service_id (skip + first) second
  = get_logs parse_entry log_files service_id skip (first + second).
Proof.
  intros Hs Hf Hn. unfold get_logs.
  replace (skip + (first + second))%Z with (skip + first + second)%Z by lia.
  apply slice_app; lia.
Qed.

(** Every entry of a page is what a non-blank line of a readable file
    parses to, and belongs to the service asked for; no entry of a page is
    older than the next one. *)
Theorem page_entries_logged_newest_first (log_files : list (option (list string)))
    (service_id : option Z) (skip limit : Z) :
  let page := get_logs parse_entry log_files service_id skip limit in
  (forall e, In e page -> logged log_files e /\ selected service_id e = true) /\
  (forall i x y, page !! i = Some x -> page !! S i = Some y ->
     String.leb (timestamp y) (timestamp x) = true).
Proof.
  cbv zeta. unfold get_logs. split.
  - intros e He. apply slice_subseteq in He.
    apply list_elem_of_In in He. rewrite sort_perm in He. apply list_elem_of_In in He.
    destruct (read_files_In service_id e log_files [] He) as [[]|[Hs Hl]]. now split.
  - apply descending_lookup. unfold slice.
    apply descending_take, descending_drop, sort_descending.
Qed.

End WithParser.

(** Three entries of two services, a line that does not parse, a blank
    line, and a file that cannot be opened *)
Definition line_parser (line : string) : option RequestLogEntry :=
  match Py.split " " line with
  | [stamp; "1"] => Some {| entry_id := line; mock_service_id := Some 1%Z; timestamp := stamp |}
  | [stamp; "2"] => Some {| entry_id := line; mock_service_id := Some 2%Z; timestamp := stamp |}
  | [stamp; "-"] => Some {| entry_id := line; mock_service_id := None; timestamp := stamp |}
  | _ => None
  end.

Definition sample_files : list (option (list string)) :=
  [Some ["2026-01-03T10:00:00 1"; "   "; "2026-01-05T09:30:00 2"];
   None;
   Some ["not json"; "2026-01-04T08:00:00 1"; "2026-01-05T09:30:00 1"]].

Example sample_listing :
  map entry_id (get_logs line_parser sample_files None 0 100)
  = ["2026-01-05T09:30:00 2"; "2026-01-05T09:30:00 1";
     "2026-01-04T08:00:00 1"; "2026-01-03T10:00:00 1"].
Proof. reflexivity. Qed.

Example sample_last_page :
  map entry_id (get_logs line_parser sample_files (Some 1%Z) (-1) 5)
  = ["2026-01-03T10:00:00 1"].
Proof. reflexivity. Qed.

Lemma page_within_limit_witness :
  (Z.of_nat (length (get_logs line_parser sample_files None (-3) 2)) <= 2)%Z.
Proof. apply (page_within_limit line_parser sample_files None (-3) 2). lia. Defined.

Lemma pages_compose_witness :
  get_logs line_parser sample_files None 1 1 ++ get_logs line_parser sample_files None (1 + 1) 2
  = get_logs line_parser sample_files None 1 (1 + 2).
Proof. apply (pages_compose line_parser sample_files None 1 1 2); lia. Defined.

Lemma page_entries_logged_newest_first_witness :
  logged line_parser sample_files
    {| entry_id := "2026-01-04T08:00:00 1"; mock_service_id := Some 1%Z;
       timestamp := "2026-01-04T08:00:00" |} /\
  selected (Some 1%Z)
    {| entry_id := "2026-01-04T08:00:00 1"; mock_service_id := Some 1%Z;
       timestamp := "2026-01-04T08:00:00" |} = true.
Proof.
  apply (proj1 (page_entries_logged_newest_first line_parser sample_files (Some 1%Z) 0 10)).
  right. left. reflexivity.
Defined.

Lemma sort_is_stable_newest_first_witness :
  String.leb "2026-01-04T08:00:00" "2026-01-05T09:30:00" = true.
Proof.
  apply (proj1 (proj2 (sort_is_stable_newest_first
                         (read_files line_parser None sample_files [])))
           1
           {| entry_id := "2026-01-05T09:30:00 1"; mock_service_id := Some 1%Z;
              timestamp := "2026-01-05T09:30:00" |}
           {| entry_id := "2026-01-04T08:00:00 1"; mock_service_id := Some 1%Z;
              timestamp := "2026-01-04T08:00:00" |}); reflexivity.
Defined.

End LogFacts.
